(** * waymo2bag: range images to point clouds, and the log sequencer

    A shallow embedding of [waymo2bag/waymo2bag.py].  Python values are
    modelled by the data they carry: protobuf messages are records, numpy
    arrays and tensors are (nested) lists of IEEE floats, [ret_dict] is a
    finite map with string keys, the bag is the list of messages written to
    it, and an exception is the [Raise] outcome of a computation.

    Functions of other packages (waymo_open_dataset, tensorflow's projection
    helpers, tf.transformations, cv2, the tfrecord reader) are fields of the
    class [Library]: the development holds for every implementation of them. *)

From Stdlib Require Import Floats ZArith Ascii.
From stdpp Require Import base option list gmap strings pretty sorting.

Local Open Scope Z_scope.
Local Open Scope string_scope.
Local Open Scope nat_scope.
Local Open Scope list_scope.

(** ** Exceptions and outcomes *)

Inductive exn : Set :=
  | ValueError
  | KeyError
  | IndexError
  | AssertionError
  | TypeError
  | InvalidArgumentError   (* tensorflow.errors.InvalidArgumentError *)
  | DecodeError            (* google.protobuf.message.DecodeError *)
  | cv2_error
  | LibraryError.          (* anything else raised inside a callee *)

Inductive Res (A : Type) : Type :=
  | Ok (a : A)
  | Raise (e : exn).
Arguments Ok {A} a.
Arguments Raise {A} e.

Global Instance Res_ret : MRet Res := @Ok.
Global Instance Res_bind : MBind Res := λ A B f m,
  match m with Ok a => f a | Raise e => Raise e end.
Global Instance Res_fmap : FMap Res := λ A B f m,
  match m with Ok a => Ok (f a) | Raise e => Raise e end.

Definition of_option {A} (e : exn) (o : option A) : Res A :=
  match o with Some a => Ok a | None => Raise e end.

Definition is_Ok {A} (m : Res A) : Prop := ∃ a, m = Ok a.

(** ** Arrays and tensors *)

Abbreviation grid A := (list (list A)) (only parsing).

(** [H, W, C] tensor: [cells] has [H] rows of [W] pixels of [C] channels. *)
Record Tensor := {
  height : nat;
  width : nat;
  depth : nat;
  cells : grid (list float)
}.

(** [chunks n k l]: the first [k] consecutive blocks of [n] elements of [l]. *)
Fixpoint chunks {A} (n k : nat) (l : list A) : list (list A) :=
  match k with
  | 0 => []
  | S k' => take n l :: chunks n k' (drop n l)
  end.

(** [tf.reshape(tf.convert_to_tensor(value=data), dims)] for the rank-3
    shapes the converter handles; a size mismatch is an
    InvalidArgumentError, as is a shape of another rank (the projection
    takes [H, W] range images only). *)
Definition tf_reshape (data : list float) (dims : list nat) : Res Tensor :=
  match dims with
  | [H; W; C] =>
      if decide (length data = H * W * C)
      then Ok {| height := H; width := W; depth := C;
                 cells := chunks C W <$> chunks (W * C) H data |}
      else Raise InvalidArgumentError
  | _ => Raise InvalidArgumentError
  end.

(** [t[..., k]]: the index is checked against the static shape. *)
Definition channel (k : nat) (t : Tensor) : Res (grid float) :=
  if decide (k < depth t)
  then Ok (fmap (M:=list) (fmap (M:=list) (λ px, nth k px 0%float)) (cells t))
  else Raise InvalidArgumentError.

(** [t[..., k:]] never fails. *)
Definition channels_from (k : nat) (t : Tensor) : grid (list float) :=
  fmap (M:=list) (fmap (M:=list) (drop k)) (cells t).

Definition tf_expand_dims {A} (x : A) : list A := [x].

Definition tf_squeeze {A} (l : list A) : Res A :=
  match l with
  | [x] => Ok x
  | _ => Raise InvalidArgumentError
  end.

(** [tf.where(mask)]: the coordinates of the true entries, row-major. *)
Fixpoint true_columns (c : nat) (row : list bool) : list nat :=
  match row with
  | [] => []
  | b :: row' => (if b then [c] else []) ++ true_columns (S c) row'
  end.

Fixpoint where_from (r : nat) (mask : grid bool) : list (nat * nat) :=
  match mask with
  | [] => []
  | row :: mask' => ((λ c, (r, c)) <$> true_columns 0 row) ++ where_from (S r) mask'
  end.

Definition tf_where (mask : grid bool) : list (nat * nat) := where_from 0 mask.

Definition at_ {A} (g : grid A) (p : nat * nat) : option A :=
  g !! p.1 ≫= λ row, row !! p.2.

(** [tf.gather_nd(params, indices)] on the CPU: an index out of range is an
    InvalidArgumentError. *)
Definition tf_gather_nd {A} (g : grid A) (idx : list (nat * nat)) : Res (list A) :=
  mapM (λ p, of_option InvalidArgumentError (at_ g p)) idx.

Definition count_true (row : list bool) : nat := length (filter (λ b, b = true) row).
Definition count_valid (mask : grid bool) : nat := sum_list (count_true <$> mask).

Definition same_shape {A B} (g : grid A) (h : grid B) : Prop :=
  Forall2 (λ r s, length r = length s) g h.

(** ** Protobuf messages of the dataset *)

Definition TOP : Z := 1%Z.   (* dataset_pb2.LaserName.TOP *)

Record MatrixFloat := {
  data : list float;
  shape_dims : list nat
}.

Record MatrixInt32 := {
  idata : list Z;
  ishape_dims : list nat
}.

Module LaserCalibration.
Record t := {
  name : Z;
  beam_inclinations : list float;
  beam_inclination_min : float;
  beam_inclination_max : float;
  extrinsic_transform : list float
}.
End LaserCalibration.

Module CameraCalibration.
Record t := {
  name : Z;
  intrinsic : list float;
  extrinsic_transform : list float;
  width : Z;
  height : Z
}.
End CameraCalibration.

Module CameraImage.
Record t := {
  name : Z;
  image : string
}.
End CameraImage.

Module Laser.
Record t := {
  name : Z;
  ri_return1 : string;
  ri_return2 : string
}.
End Laser.

Module Frame.
Record t := {
  timestamp_micros : Z;
  pose_transform : list float;
  laser_calibrations : list LaserCalibration.t;
  camera_calibrations : list CameraCalibration.t;
  images : list CameraImage.t;
  lasers : list Laser.t
}.
End Frame.

Abbreviation Matrix := (list (list float)) (only parsing).
Abbreviation Point := (float * float * float)%type (only parsing).

(** [np.reshape(np.array(l), [4, 4])] *)
Definition np_reshape_4_4 (l : list float) : Res Matrix :=
  if decide (length l = 16) then Ok (chunks 4 4 l) else Raise ValueError.

(** ** Configuration: the module-level constants *)

Record Config := {
  FILTER_NO_LABEL_ZONE_POINTS : bool;
  SELECTED_LIDAR_SENSOR : list (Z * string);
  NORMALIZE_INTENSITY : bool
}.

Definition default_config : Config := {|
  FILTER_NO_LABEL_ZONE_POINTS := false;
  SELECTED_LIDAR_SENSOR := [(TOP, "top")];
  NORMALIZE_INTENSITY := true
|}.

(** ** Messages of the output log *)

Abbreviation RosTime := (Z * Z)%type (only parsing).   (* secs, nsecs *)

Module TransformStamped.
Record t := {
  stamp : RosTime;
  frame_id : string;
  child_frame_id : string;
  translation : float * float * float;
  rotation : float * float * float * float
}.
End TransformStamped.

Abbreviation TFMessage := (list TransformStamped.t) (only parsing).

Module Odometry.
Record t := {
  frame_id : string;
  stamp : RosTime;
  child_frame_id : string;
  position : float * float * float;
  orientation : float * float * float * float
}.
End Odometry.

Module Image.
Record t := {
  frame_id : string;
  stamp : RosTime;
  height : nat;
  width : nat;
  encoding : string;
  data : string
}.
End Image.

Module CameraInfo.
Record t := {
  frame_id : string;
  stamp : RosTime;
  width : Z;
  height : Z;
  distortion_model : string;
  D : list float;
  K : list float;
  R : list float;
  P : list float
}.
End CameraInfo.

Module PointCloud2.
Record t := {
  frame_id : string;
  stamp : RosTime;
  fields : list (string * nat);     (* name, byte offset; all FLOAT32, count 1 *)
  points : list (list float)
}.
End PointCloud2.

Inductive Msg :=
  | MOdometry (m : Odometry.t)
  | MTFMessage (m : TFMessage)
  | MImage (m : Image.t)
  | MCameraInfo (m : CameraInfo.t)
  | MPointCloud2 (m : PointCloud2.t).

(** one [bag.write(topic, msg, t=t)] *)
Record Entry := {
  e_topic : string;
  e_msg : Msg;
  e_t : RosTime
}.

(** ** Functions of other packages *)

Abbreviation RangeImages := (gmap Z (list MatrixFloat)) (only parsing).
Abbreviation CameraProjections := (gmap Z (list MatrixInt32)) (only parsing).
Abbreviation Picture := (nat * nat * string)%type (only parsing).   (* shape[0], shape[1], bytes *)

Class Library := {
  (** waymo_open_dataset.utils.frame_utils *)
  parse_range_image_and_camera_projection :
    Frame.t → Res (RangeImages * CameraProjections * unit * MatrixFloat);
  (** waymo_open_dataset.utils.transform_utils, on [H, W] grids *)
  get_rotation_matrix : grid float → grid float → grid float → Res (grid Matrix);
  get_transform : grid Matrix → grid (list float) → Res (grid Matrix);
  (** waymo_open_dataset.utils.range_image_utils, with the batch axis first *)
  compute_inclination : list float → nat → Res (list float);
  extract_point_cloud_from_range_image :
    list (grid float) → list Matrix → list (list float) →
    option (list (grid Matrix)) → option (list Matrix) → Res (list (grid Point));
  (** numpy *)
  np_tanh : float → float;
  np_matmul : Matrix → Matrix → Res Matrix;
  (** tf.transformations *)
  translation_from_matrix : Matrix → Res (float * float * float);
  quaternion_from_matrix : Matrix → Res (float * float * float * float);
  (** dataset_pb2.CameraName.Name.Name *)
  CameraName_Name : Z → Res string;
  (** cv2.imdecode(np.frombuffer(bytes, np.uint8), cv2.IMREAD_COLOR), which
      gives None for bytes it cannot decode, and cv2.cvtColor(_, COLOR_BGR2RGB) *)
  cv2_imdecode : string → Res (option Picture);
  cv2_cvtColor_BGR2RGB : option Picture → Res Picture;
  (** the secs and nsecs of rospy.Time.from_sec(timestamp_micros * 1e-6), for
      a time that is not negative *)
  stamp_of_micros : Z → RosTime;
  (** list(tensorflow.data.TFRecordDataset(pathname)) and Frame.ParseFromString *)
  TFRecordDataset : string → Res (list string);
  ParseFromString : string → Res Frame.t;
  (** str(bag) *)
  Bag_str : string → list Entry → string
}.

(** ** The range-image geometry engine *)

Inductive ndarray :=
  | Points (l : list Point)       (* shape [N, 3] *)
  | Scalars (l : list float).     (* shape [N] *)

(** [ret_dict = defaultdict(list)] *)
Definition dd_get (d : gmap string (list ndarray)) (k : string) : list ndarray :=
  default [] (d !! k).
Definition dd_append (d : gmap string (list ndarray)) (k : string) (x : ndarray)
  : gmap string (list ndarray) :=
  <[k := dd_get d k ++ [x]]> d.

(** ["points_{}_{}".format(name, ri)] and ["intensity_{}_{}".format(name, ri)] *)
Definition key_suffix (name : Z) (ri : nat) : string :=
  pretty name +:+ "_" +:+ pretty ri.
Definition points_key (name : Z) (ri : nat) : string := "points_" +:+ key_suffix name ri.
Definition intensity_key (name : Z) (ri : nat) : string := "intensity_" +:+ key_suffix name ri.

Fixpoint foldM {A B} (f : B → A → Res B) (b : B) (l : list A) : Res B :=
  match l with
  | [] => Ok b
  | x :: l' => b' ← f b x; foldM f b' l'
  end.

(** [sorted(calibrations, key=lambda c: c.name)]: a stable sort. *)
Fixpoint insert_by_name (c : LaserCalibration.t) (l : list LaserCalibration.t)
  : list LaserCalibration.t :=
  match l with
  | [] => [c]
  | d :: l' =>
      if decide (LaserCalibration.name c ≤ LaserCalibration.name d)%Z
      then c :: d :: l'
      else d :: insert_by_name c l'
  end.
Definition sorted_by_name (l : list LaserCalibration.t) : list LaserCalibration.t :=
  foldr insert_by_name [] l.

Section Engine.
Context `{Library} (cfg : Config).

(** lines 325-337: the per-pixel pose grid as [H, W, 4, 4] transforms *)
Definition top_pose_tensor (range_image_top_pose : MatrixFloat) : Res (grid Matrix) :=
  t ← tf_reshape (data range_image_top_pose) (shape_dims range_image_top_pose);
  roll ← channel 0 t;
  pitch ← channel 1 t;
  yaw ← channel 2 t;
  rotation ← get_rotation_matrix roll pitch yaw;
  get_transform rotation (channels_from 3 t).

(** lines 342-350 *)
Definition resolve_beam_inclinations (c : LaserCalibration.t) (range_image : MatrixFloat)
  : Res (list float) :=
  beam_inclinations ←
    (if decide (length (LaserCalibration.beam_inclinations c) = 0)
     then h ← of_option IndexError (shape_dims range_image !! 0);
          compute_inclination
            [LaserCalibration.beam_inclination_min c;
             LaserCalibration.beam_inclination_max c] h
     else Ok (LaserCalibration.beam_inclinations c));
  Ok (reverse beam_inclinations).

(** lines 356-361 *)
Definition pose_locals (c : LaserCalibration.t)
    (range_image_top_pose_tensor : grid Matrix) (frame_pose : Matrix)
  : option (list (grid Matrix)) * option (list Matrix) :=
  if decide (LaserCalibration.name c = TOP)
  then (Some (tf_expand_dims range_image_top_pose_tensor),
        Some (tf_expand_dims frame_pose))
  else (None, None).

(** lines 362-367 *)
Definition range_image_mask (t : Tensor) : Res (grid bool) :=
  rng ← channel 0 t;
  let mask := fmap (M:=list) (fmap (M:=list) (λ x, PrimFloat.ltb 0%float x)) rng in
  if FILTER_NO_LABEL_ZONE_POINTS cfg
  then nlz ← channel 3 t;
       let nlz_mask := fmap (M:=list) (fmap (M:=list) (λ x, negb (PrimFloat.eqb x 1%float))) nlz in
       Ok (zip_with (zip_with andb) mask nlz_mask)
  else Ok mask.

(** lines 369-387, given the inclinations, the extrinsic and the poses:
    the projection, then the two gathers at the mask's coordinates *)
Definition project_and_gather (t : Tensor) (extrinsic : Matrix)
    (beam_inclinations : list float)
    (poses : option (list (grid Matrix)) * option (list Matrix))
  : Res (list Point * list float) :=
  mask ← range_image_mask t;
  rng ← channel 0 t;
  range_image_cartesian ←
    extract_point_cloud_from_range_image
      (tf_expand_dims rng) (tf_expand_dims extrinsic)
      (tf_expand_dims beam_inclinations) poses.1 poses.2;
  range_image_cartesian ← tf_squeeze range_image_cartesian;
  points_tensor ← tf_gather_nd range_image_cartesian (tf_where mask);
  intensity ← channel 1 t;
  intensity_tensor ← tf_gather_nd intensity (tf_where mask);
  Ok (points_tensor, intensity_tensor).

(** the body of the loop over calibrations and return indexes *)
Definition convert_one (range_images : RangeImages)
    (range_image_top_pose_tensor : grid Matrix) (frame_pose : Matrix)
    (c : LaserCalibration.t) (ri_index : nat)
  : Res (list Point * list float) :=
  ris ← of_option KeyError (range_images !! LaserCalibration.name c);
  range_image ← of_option IndexError (ris !! ri_index);
  beam_inclinations ← resolve_beam_inclinations c range_image;
  extrinsic ← np_reshape_4_4 (LaserCalibration.extrinsic_transform c);
  range_image_tensor ← tf_reshape (data range_image) (shape_dims range_image);
  project_and_gather range_image_tensor extrinsic beam_inclinations
    (pose_locals c range_image_top_pose_tensor frame_pose).

Definition append_return (range_images : RangeImages)
    (tp : grid Matrix) (frame_pose : Matrix) (c : LaserCalibration.t)
    (ret_dict : gmap string (list ndarray)) (ri_index : nat)
  : Res (gmap string (list ndarray)) :=
  '(points, intensity) ← convert_one range_images tp frame_pose c ri_index;
  let ret_dict := dd_append ret_dict (points_key (LaserCalibration.name c) ri_index)
                    (Points points) in
  Ok (dd_append ret_dict (intensity_key (LaserCalibration.name c) ri_index)
        (Scalars intensity)).

Definition convert_range_image_to_point_cloud (frame : Frame.t)
    (range_images : RangeImages) (camera_projections : CameraProjections)
    (range_image_top_pose : MatrixFloat) (ri_indexes : list nat)
  : Res (gmap string (list ndarray)) :=
  let calibrations := sorted_by_name (Frame.laser_calibrations frame) in
  frame_pose ← np_reshape_4_4 (Frame.pose_transform frame);
  tp ← top_pose_tensor range_image_top_pose;
  foldM (λ ret_dict c, foldM (append_return range_images tp frame_pose c) ret_dict ri_indexes)
    ∅ calibrations.

End Engine.

(** ** The per-sensor cloud assembler *)

Definition as_points (a : ndarray) : Res (list Point) :=
  match a with Points l => Ok l | Scalars _ => Raise ValueError end.
Definition as_scalars (a : ndarray) : Res (list float) :=
  match a with Scalars l => Ok l | Points _ => Raise ValueError end.

(** [np.concatenate(arrays, axis=0)]: no array, or arrays of different
    ranks, is a ValueError. *)
Definition np_concatenate (arrays : list ndarray) : Res ndarray :=
  match arrays with
  | [] => Raise ValueError
  | Points _ :: _ => l ← mapM as_points arrays; Ok (Points (concat l))
  | Scalars _ :: _ => l ← mapM as_scalars arrays; Ok (Scalars (concat l))
  end.

Definition columns (a : ndarray) : list (list float) :=
  match a with
  | Points l => (λ p : Point, [p.1.1; p.1.2; p.2]) <$> l
  | Scalars l => (λ v, [v]) <$> l
  end.

(** [np.column_stack((a, b))]: the row counts must agree. *)
Definition np_column_stack (a b : ndarray) : Res (list (list float)) :=
  if decide (length (columns a) = length (columns b))
  then Ok (zip_with app (columns a) (columns b))
  else Raise ValueError.

Definition ndarray_map (f : float → float) (a : ndarray) : ndarray :=
  match a with
  | Points l => Points ((λ p : Point, (f p.1.1, f p.1.2, f p.2)) <$> l)
  | Scalars l => Scalars (f <$> l)
  end.

Definition point_fields : list (string * nat) :=
  [("x", 0); ("y", 4); ("z", 8); ("intensity", 12)].

(** [point_cloud2.create_cloud(header, fields, points)] packs every row
    against the fields; a row of another length makes struct.pack_into raise. *)
Definition create_cloud (frame_id : string) (stamp : RosTime)
    (fields : list (string * nat)) (points : list (list float)) : Res PointCloud2.t :=
  if decide (Forall (λ row, length row = length fields) points)
  then Ok {| PointCloud2.frame_id := frame_id; PointCloud2.stamp := stamp;
             PointCloud2.fields := fields; PointCloud2.points := points |}
  else Raise LibraryError.

(** ** The converter object, the bag and the monad of its methods *)

Record State := {
  tfrecord_pathnames : list string;            (* self.tfrecord_pathnames *)
  static_tf_message : option TFMessage;        (* self.static_tf_message *)
  bag : option (string * list Entry);          (* the bag being written *)
  closed_bags : list (string * list Entry);    (* the bags closed so far *)
  stdout : list string                         (* the lines printed *)
}.

Definition M (A : Type) : Type := State → State * Res A.

Global Instance M_ret : MRet M := λ A a s, (s, Ok a).
Global Instance M_bind : MBind M := λ A B f m s,
  match m s with
  | (s', Ok a) => f a s'
  | (s', Raise e) => (s', Raise e)
  end.

Definition lift {A} (r : Res A) : M A := λ s, (s, r).
Definition raise {A} (e : exn) : M A := λ s, (s, Raise e).

Definition get_tfrecord_pathnames : M (list string) := λ s, (s, Ok (tfrecord_pathnames s)).
Definition get_static_tf_message : M (option TFMessage) := λ s, (s, Ok (static_tf_message s)).

Definition print (line : string) : M unit := λ s,
  ({| tfrecord_pathnames := tfrecord_pathnames s;
      static_tf_message := static_tf_message s;
      bag := bag s; closed_bags := closed_bags s;
      stdout := stdout s ++ [line] |}, Ok ()).

Definition set_static_tf_message (m : option TFMessage) : M unit := λ s,
  ({| tfrecord_pathnames := tfrecord_pathnames s;
      static_tf_message := m;
      bag := bag s; closed_bags := closed_bags s;
      stdout := stdout s |}, Ok ()).

Definition set_bag (b : option (string * list Entry)) (s : State) : State :=
  {| tfrecord_pathnames := tfrecord_pathnames s;
     static_tf_message := static_tf_message s;
     bag := b; closed_bags := closed_bags s;
     stdout := stdout s |}.

(** [rosbag.Bag(path, "w", ...)] *)
Definition Bag_open (path : string) : M unit := λ s, (set_bag (Some (path, [])) s, Ok ()).

(** [bag.write(topic, msg, t=t)] *)
Definition bag_write (topic : string) (msg : Msg) (t : RosTime) : M unit := λ s,
  match bag s with
  | Some (path, entries) =>
      (set_bag (Some (path, entries ++ [{| e_topic := topic; e_msg := msg; e_t := t |}])) s,
       Ok ())
  | None => (s, Raise ValueError)
  end.

(** [print(bag); bag.close()] *)
Definition print_and_close `{Library} : M unit := λ s,
  match bag s with
  | Some (path, entries) =>
      ({| tfrecord_pathnames := tfrecord_pathnames s;
          static_tf_message := static_tf_message s;
          bag := None;
          closed_bags := closed_bags s ++ [(path, entries)];
          stdout := stdout s ++ [Bag_str path entries] |}, Ok ())
  | None => (s, Raise ValueError)
  end.

(** [try: body finally: fin] *)
Definition try_finally {A} (body : M A) (fin : M unit) : M A := λ s,
  match body s with
  | (s1, r) =>
      match fin s1 with
      | (s2, Ok _) => (s2, r)
      | (s2, Raise e) => (s2, Raise e)
      end
  end.

Fixpoint for_each {A} (f : A → M unit) (l : list A) : M unit :=
  match l with
  | [] => mret ()
  | x :: l' => _ ← f x; for_each f l'
  end.

(** ** Strings *)

Definition lower_ascii (c : Ascii.ascii) : Ascii.ascii :=
  let n := Ascii.N_of_ascii c in
  if (65 <=? n)%N && (n <=? 90)%N then Ascii.ascii_of_N (n + 32) else c.

(** [s.lower()] on ASCII text *)
Fixpoint lower (s : string) : string :=
  match s with
  | EmptyString => EmptyString
  | String c s' => String (lower_ascii c) (lower s')
  end.

Fixpoint basename_from (cur s : string) : string :=
  match s with
  | EmptyString => cur
  | String c s' =>
      if Ascii.eqb c "/"%char then basename_from "" s'
      else basename_from (cur +:+ String c "") s'
  end.

(** [os.path.basename(pathname)] *)
Definition os_path_basename (pathname : string) : string := basename_from "" pathname.

(** [s.split(".")[0]] *)
Fixpoint before_first_dot (s : string) : string :=
  match s with
  | EmptyString => EmptyString
  | String c s' => if Ascii.eqb c "."%char then EmptyString else String c (before_first_dot s')
  end.

(** ** Equality of static transform messages: [==] of genpy messages
    compares the fields, floats by IEEE equality. *)

Definition RosTime_eqb (a b : RosTime) : bool :=
  bool_decide (a.1 = b.1) && bool_decide (a.2 = b.2).

Definition TransformStamped_eqb (a b : TransformStamped.t) : bool :=
  RosTime_eqb (TransformStamped.stamp a) (TransformStamped.stamp b)
  && String.eqb (TransformStamped.frame_id a) (TransformStamped.frame_id b)
  && String.eqb (TransformStamped.child_frame_id a) (TransformStamped.child_frame_id b)
  && PrimFloat.eqb (TransformStamped.translation a).1.1 (TransformStamped.translation b).1.1
  && PrimFloat.eqb (TransformStamped.translation a).1.2 (TransformStamped.translation b).1.2
  && PrimFloat.eqb (TransformStamped.translation a).2 (TransformStamped.translation b).2
  && PrimFloat.eqb (TransformStamped.rotation a).1.1.1 (TransformStamped.rotation b).1.1.1
  && PrimFloat.eqb (TransformStamped.rotation a).1.1.2 (TransformStamped.rotation b).1.1.2
  && PrimFloat.eqb (TransformStamped.rotation a).1.2 (TransformStamped.rotation b).1.2
  && PrimFloat.eqb (TransformStamped.rotation a).2 (TransformStamped.rotation b).2.

Fixpoint TFMessage_eqb (a b : TFMessage) : bool :=
  match a, b with
  | [], [] => true
  | x :: a', y :: b' => TransformStamped_eqb x y && TFMessage_eqb a' b'
  | _, _ => false
  end.

(** ** The message writers and the sequencer: class Waymo2Bag *)

Definition camera_to_image : Matrix :=
  [[0; 0; 1; 0]; [-1; 0; 0; 0]; [0; -1; 0; 0]; [0; 0; 0; 1]]%float.

Definition zero_time : RosTime := (0%Z, 0%Z).   (* rospy.Time() *)

Section Converter.
Context `{Library} (cfg : Config).

Definition to_transform (from_frame_id to_frame_id : string) (stamp : RosTime)
    (trans_mat : Matrix) : Res TransformStamped.t :=
  t ← translation_from_matrix trans_mat;
  q ← quaternion_from_matrix trans_mat;
  Ok {| TransformStamped.stamp := stamp;
        TransformStamped.frame_id := from_frame_id;
        TransformStamped.child_frame_id := to_frame_id;
        TransformStamped.translation := t;
        TransformStamped.rotation := q |}.

(** [dataset_pb2.CameraName.Name.Name(name).lower()] *)
Definition camera_frame_name (name : Z) : Res string :=
  s ← CameraName_Name name; Ok (lower s).

Definition write_odom (frame : Frame.t) (timestamp : RosTime) : M unit :=
  tf_matrix ← lift (np_reshape_4_4 (Frame.pose_transform frame));
  tf_msg ← lift (to_transform "" "" zero_time tf_matrix);
  bag_write "/odom"
    (MOdometry {| Odometry.frame_id := "map";
                  Odometry.stamp := timestamp;
                  Odometry.child_frame_id := "base_link";
                  Odometry.position := TransformStamped.translation tf_msg;
                  Odometry.orientation := TransformStamped.rotation tf_msg |})
    timestamp.

(** lines 113-133: the transforms of the cameras named 'front' *)
Definition static_transform (tf_message : TFMessage)
    (camera_calibration : CameraCalibration.t) : Res TFMessage :=
  frame_name ← camera_frame_name (CameraCalibration.name camera_calibration);
  if decide (frame_name ≠ "front") then Ok tf_message
  else
    vehicle_to_camera ←
      np_reshape_4_4 (CameraCalibration.extrinsic_transform camera_calibration);
    tf_matrix ← np_matmul vehicle_to_camera camera_to_image;
    tf_msg ← to_transform "base_link" frame_name zero_time tf_matrix;
    Ok (tf_message ++ [tf_msg]).

Definition static_transforms (frame : Frame.t) : Res TFMessage :=
  foldM static_transform [] (Frame.camera_calibrations frame).

Definition write_tf_static (frame : Frame.t) (timestamp : RosTime) : M unit :=
  tf_message ← lift (static_transforms frame);
  static ← get_static_tf_message;
  match static with
  | None =>
      _ ← bag_write "/tf_static" (MTFMessage tf_message) timestamp;
      set_static_tf_message (Some tf_message)
  | Some first =>
      if TFMessage_eqb first tf_message then mret () else raise AssertionError
  end.

Definition write_one_image (timestamp : RosTime) (image : CameraImage.t) : M unit :=
  frame_name ← lift (camera_frame_name (CameraImage.name image));
  if decide (frame_name ≠ "front") then mret ()
  else
    img_bgr ← lift (cv2_imdecode (CameraImage.image image));
    img_rgb ← lift (cv2_cvtColor_BGR2RGB img_bgr);
    bag_write ("/camera/" +:+ frame_name +:+ "/image")
      (MImage {| Image.frame_id := frame_name;
                 Image.stamp := timestamp;
                 Image.height := img_rgb.1.1;
                 Image.width := img_rgb.1.2;
                 Image.encoding := "rgb8";
                 Image.data := img_rgb.2 |})
      timestamp.

Definition write_image (frame : Frame.t) (timestamp : RosTime) : M unit :=
  for_each (write_one_image timestamp) (Frame.images frame).

Definition write_one_camera_info (timestamp : RosTime)
    (camera_calibration : CameraCalibration.t) : M unit :=
  frame_name ← lift (camera_frame_name (CameraCalibration.name camera_calibration));
  if decide (frame_name ≠ "front") then mret ()
  else
    let intrinsic := CameraCalibration.intrinsic camera_calibration in
    fx ← lift (of_option IndexError (intrinsic !! 0));
    fy ← lift (of_option IndexError (intrinsic !! 1));
    cx ← lift (of_option IndexError (intrinsic !! 2));
    cy ← lift (of_option IndexError (intrinsic !! 3));
    bag_write ("/camera/" +:+ frame_name +:+ "/camera_info")
      (MCameraInfo
         {| CameraInfo.frame_id := frame_name;
            CameraInfo.stamp := timestamp;
            CameraInfo.width := CameraCalibration.width camera_calibration;
            CameraInfo.height := CameraCalibration.height camera_calibration;
            CameraInfo.distortion_model := "plumb_bob";
            CameraInfo.D := drop 4 intrinsic;
            CameraInfo.K := [fx; 0; cx; 0; fy; cy; 0; 0; 1]%float;
            CameraInfo.R := [1; 0; 0; 0; 1; 0; 0; 0; 1]%float;
            CameraInfo.P := [fx; 0; cx; 0; 0; fy; cy; 0; 0; 0; 1; 0]%float |})
      timestamp.

Definition write_camera_info (frame : Frame.t) (timestamp : RosTime) : M unit :=
  for_each (write_one_camera_info timestamp) (Frame.camera_calibrations frame).

(** lines 259-274: one sensor's [N, 4] array *)
Definition assemble_cloud (ret_dict : gmap string (list ndarray)) (lidar_id : Z)
  : Res (list (list float)) :=
  points ← np_concatenate (dd_get ret_dict (points_key lidar_id 0)
                           ++ dd_get ret_dict (points_key lidar_id 1));
  intensity ← np_concatenate (dd_get ret_dict (intensity_key lidar_id 0)
                              ++ dd_get ret_dict (intensity_key lidar_id 1));
  let intensity :=
    if NORMALIZE_INTENSITY cfg then ndarray_map np_tanh intensity else intensity in
  np_column_stack points intensity.

Definition write_points_to_bag (timestamp : RosTime) (points : list (list float))
    (lidar_name : string) : M unit :=
  pcl_msg ← lift (create_cloud "base_link" timestamp point_fields points);
  bag_write ("/lidar/" +:+ lidar_name +:+ "/pointcloud") (MPointCloud2 pcl_msg)
    (PointCloud2.stamp pcl_msg).

(** the body of the loop over the selected sensors *)
Definition write_sensor_cloud (ret_dict : gmap string (list ndarray))
    (timestamp : RosTime) (sensor : Z * string) : M unit :=
  points ← lift (assemble_cloud ret_dict sensor.1);
  write_points_to_bag timestamp points sensor.2.

Definition write_point_cloud (frame : Frame.t) (timestamp : RosTime) : M unit :=
  parsed ← lift (parse_range_image_and_camera_projection frame);
  ret_dict ← lift (convert_range_image_to_point_cloud cfg frame
                     parsed.1.1.1 parsed.1.1.2 parsed.2 [0; 1]);
  for_each (write_sensor_cloud ret_dict timestamp) (SELECTED_LIDAR_SENSOR cfg).

(** [rospy.Time.from_sec(timestamp_micros * 1e-6)]: genpy's [Time] refuses a
    negative time with a TypeError *)
Definition Time_from_sec (timestamp_micros : Z) : Res RosTime :=
  if decide (timestamp_micros < 0)%Z then Raise TypeError
  else Ok (stamp_of_micros timestamp_micros).

(** the body of the loop over the frames of a unit *)
Definition convert_frame (data : string) : M unit :=
  frame ← lift (ParseFromString data);
  timestamp ← lift (Time_from_sec (Frame.timestamp_micros frame));
  _ ← write_odom frame timestamp;
  _ ← write_tf_static frame timestamp;
  _ ← write_point_cloud frame timestamp;
  _ ← write_image frame timestamp;
  write_camera_info frame timestamp.

Definition convert_tfrecord2bag (file_idx : nat) : M unit :=
  pathnames ← get_tfrecord_pathnames;
  pathname ← lift (of_option IndexError (pathnames !! file_idx));
  dataset ← lift (TFRecordDataset pathname);
  let filename := before_first_dot (os_path_basename pathname) in
  _ ← Bag_open ("rosbag/" +:+ filename +:+ ".bag");
  _ ← print ("filename: " +:+ filename);
  try_finally (for_each convert_frame dataset) print_and_close.

(** the body of the loop over the units *)
Definition convert_unit (i : nat) : M unit :=
  _ ← convert_tfrecord2bag i; set_static_tf_message None.

Definition convert : M unit :=
  _ ← print "start converting ...";
  pathnames ← get_tfrecord_pathnames;
  _ ← for_each convert_unit (seq 0 (length pathnames));
  print "finished ...".

End Converter.

(** [Waymo2Bag(load_dir, save_dir)], with the sorted glob of the tfrecords *)
Definition Waymo2Bag (pathnames : list string) : State :=
  {| tfrecord_pathnames := pathnames; static_tf_message := None;
     bag := None; closed_bags := []; stdout := [] |}.

(** ** Characterisations used in the statements *)

(** the mask entry of one pixel (lines 362-367) *)
Definition pixel_valid (cfg : Config) (px : list float) : bool :=
  PrimFloat.ltb 0%float (nth 0 px 0%float)
  && (if FILTER_NO_LABEL_ZONE_POINTS cfg
      then negb (PrimFloat.eqb (nth 3 px 0%float) 1%float) else true).

Definition mask_of (cfg : Config) (t : Tensor) : grid bool :=
  fmap (M:=list) (fmap (M:=list) (pixel_valid cfg)) (cells t).
Definition range_of (t : Tensor) : grid float :=
  fmap (M:=list) (fmap (M:=list) (λ px, nth 0 px 0%float)) (cells t).
Definition intensity_of (px : list float) : float := nth 1 px 0%float.

Definition entries_of (s : State) : list Entry :=
  match bag s with Some (_, entries) => entries | None => [] end.


(** the state once [new] has been written to the open bag *)
Definition add_entries (new : list Entry) (s : State) : State :=
  match bag s with
  | Some (path, entries) => set_bag (Some (path, entries ++ new)) s
  | None => s
  end.

(** a method that only writes messages satisfying [P] to the open bag *)
Definition writes {A} (P : Entry → Prop) (m : M A) : Prop :=
  ∀ s, ∃ new, (m s).1 = add_entries new s ∧ Forall P new.

Definition tf_static_entry (m : TFMessage) (timestamp : RosTime) : Entry :=
  {| e_topic := "/tf_static"; e_msg := MTFMessage m; e_t := timestamp |}.

Definition is_front `{Library} (name : Z) : bool :=
  match CameraName_Name name with
  | Ok s => bool_decide (lower s = "front")
  | Raise _ => false
  end.

Definition front_count `{Library} (names : list Z) : nat :=
  length (filter (λ n, is_front n = true) names).

Definition front_image (e : Entry) : Prop :=
  e_topic e = "/camera/front/image"
  ∧ ∃ m, e_msg e = MImage m ∧ Image.frame_id m = "front".

Definition front_camera_info (e : Entry) : Prop :=
  e_topic e = "/camera/front/camera_info"
  ∧ ∃ m, e_msg e = MCameraInfo m ∧ CameraInfo.frame_id m = "front".

Definition front_transform (m : TransformStamped.t) : Prop :=
  TransformStamped.frame_id m = "base_link" ∧ TransformStamped.child_frame_id m = "front".

(** one row of a sensor's cloud (lines 270-274) *)
Definition normalized `{Library} (cfg : Config) (x : float) : float :=
  if NORMALIZE_INTENSITY cfg then np_tanh x else x.
Definition cloud_row `{Library} (cfg : Config) (p : Point) (x : float) : list float :=
  [p.1.1; p.1.2; p.2; normalized cfg x].

Definition cloud_entry (lidar_name : string) (timestamp : RosTime)
    (cloud : list (list float)) : Entry :=
  {| e_topic := "/lidar/" +:+ lidar_name +:+ "/pointcloud";
     e_msg := MPointCloud2 {| PointCloud2.frame_id := "base_link";
                              PointCloud2.stamp := timestamp;
                              PointCloud2.fields := point_fields;
                              PointCloud2.points := cloud |};
     e_t := timestamp |}.

(** every suffix of [ret_dict] has as many point arrays as intensity arrays,
    pairwise of the same length *)
Definition paired (d : gmap string (list ndarray)) : Prop :=
  ∀ suffix, ∃ (ps : list (list Point)) (xs : list (list float)),
    dd_get d ("points_" +:+ suffix) = Points <$> ps ∧
    dd_get d ("intensity_" +:+ suffix) = Scalars <$> xs ∧
    Forall2 (λ p x, length p = length x) ps xs.

(** every entry of [ret_dict] comes from a calibration and a return index *)
Definition sourced (calibrations : list LaserCalibration.t) (ri_indexes : list nat)
    (d : gmap string (list ndarray)) : Prop :=
  ∀ k, dd_get d k ≠ [] →
    ∃ c ri, c ∈ calibrations ∧ ri ∈ ri_indexes ∧
      (k = points_key (LaserCalibration.name c) ri
       ∨ k = intensity_key (LaserCalibration.name c) ri).

(** what [convert_frame] runs once the static transform is dealt with *)
Definition rest_of_frame `{Library} (cfg : Config) (frame : Frame.t) (timestamp : RosTime)
  : M unit :=
  _ ← write_point_cloud cfg frame timestamp;
  _ ← write_image frame timestamp;
  write_camera_info frame timestamp.

Definition not_tf_static (e : Entry) : Prop := e_topic e ≠ "/tf_static".

(** what the frames of a unit leave alone: the closed bags, the pathnames,
    the lines printed and the path of the open bag *)
Definition keeps (s s' : State) : Prop :=
  closed_bags s' = closed_bags s
  ∧ tfrecord_pathnames s' = tfrecord_pathnames s
  ∧ stdout s' = stdout s
  ∧ fst <$> bag s' = fst <$> bag s.

Definition bag_path (pathname : string) : string :=
  "rosbag/" +:+ before_first_dot (os_path_basename pathname) +:+ ".bag".

(** a method that, on an open bag, appends at most [w] messages satisfying
    [P], and exactly [w] when it succeeds *)
Definition grows (P : Entry → Prop) (w : nat) (m : M unit) : Prop :=
  ∀ s path entries,
    bag s = Some (path, entries) →
    ∃ new,
      bag (m s).1 = Some (path, entries ++ new) ∧
      Forall P new ∧
      length new ≤ w ∧
      ((m s).2 = Ok () → length new = w).

Definition weight `{Library} (name : Z) : nat := if is_front name then 1 else 0.

(** the state in which the frames of a unit are converted: its bag just
    opened, its name printed *)
Definition unit_start (pathname : string) (s : State) : State :=
  {| tfrecord_pathnames := tfrecord_pathnames s;
     static_tf_message := static_tf_message s;
     bag := Some (bag_path pathname, []);
     closed_bags := closed_bags s;
     stdout := stdout s ++ ["filename: " +:+ before_first_dot (os_path_basename pathname)] |}.

(** best-effort continuation across units, as a property of a run: the bag
    of every readable unit gets written, whatever happens to the others *)
Definition best_effort_continue `{Library} (cfg : Config) : Prop :=
  ∀ pathnames i pathname dataset,
    pathnames !! i = Some pathname →
    TFRecordDataset pathname = Ok dataset →
    ∃ entries,
      (bag_path pathname, entries) ∈ closed_bags (convert cfg (Waymo2Bag pathnames)).1.

(** the per-pixel pose correction of a sensor that is not the top one would
    use the frame pose alone *)
Definition frame_pose_alone (c : LaserCalibration.t) (tp : grid Matrix)
    (frame_pose : Matrix) : Prop :=
  pose_locals c tp frame_pose = (None, Some [frame_pose]).

(** ** The writer of the vehicle transform: [write_tf], which the sequencer
    leaves out (its call in [convert_tfrecord2bag] is commented out) *)

Section Converter.
Context `{Library}.

Definition write_tf (frame : Frame.t) (timestamp : RosTime) : M unit :=
  Tr_vehicle2world ← lift (np_reshape_4_4 (Frame.pose_transform frame));
  let transforms := [("map", "base_link", Tr_vehicle2world)] in
  tf_message ←
    lift (foldM (λ (tf_message : TFMessage) (transform : string * string * Matrix),
                   tf_msg ← to_transform transform.1.1 transform.1.2 timestamp transform.2;
                   Ok (tf_message ++ [tf_msg]))
                [] transforms);
  bag_write "/tf" (MTFMessage tf_message) timestamp.

End Converter.

(** ** Further characterisations used in the statements *)

(** the character [c] occurs in [s] *)
Fixpoint occurs (c : Ascii.ascii) (s : string) : bool :=
  match s with
  | EmptyString => false
  | String d s' => Ascii.eqb d c || occurs c s'
  end.

(** a method that, whatever it returns, only appends messages satisfying [P]
    to the bag that is open *)
Definition appends {A} (P : Entry → Prop) (m : M A) : Prop :=
  ∀ s, ∃ new,
    bag (m s).1 = (λ b : string * list Entry, (b.1, b.2 ++ new)) <$> bag s
    ∧ Forall P new.

(** the topics of a frame's messages *)
Definition cloud_topic (lidar_name : string) : string :=
  "/lidar/" +:+ lidar_name +:+ "/pointcloud".

Definition frame_topic (cfg : Config) (topic : string) : Prop :=
  topic = "/odom"
  ∨ topic = "/tf_static"
  ∨ (∃ sensor, sensor ∈ SELECTED_LIDAR_SENSOR cfg ∧ topic = cloud_topic sensor.2)
  ∨ topic = "/camera/front/image"
  ∨ topic = "/camera/front/camera_info".

(** the stamps in the header(s) of a message *)
Definition header_stamps (m : Msg) : list RosTime :=
  match m with
  | MOdometry o => [Odometry.stamp o]
  | MTFMessage l => TransformStamped.stamp <$> l
  | MImage i => [Image.stamp i]
  | MCameraInfo c => [CameraInfo.stamp c]
  | MPointCloud2 p => [PointCloud2.stamp p]
  end.

Definition is_transforms (m : Msg) : bool :=
  match m with MTFMessage _ => true | _ => false end.

(** a message recorded at [timestamp], whose header carries [timestamp] too,
    except for the transforms of a TFMessage, stamped [rospy.Time()] *)
Definition stamped (timestamp : RosTime) (e : Entry) : Prop :=
  e_t e = timestamp
  ∧ Forall (λ t, t = if is_transforms (e_msg e) then zero_time else timestamp)
      (header_stamps (e_msg e)).

(** the messages one frame can write *)
Definition frame_entry (cfg : Config) (timestamp : RosTime) (e : Entry) : Prop :=
  (∃ o, e = {| e_topic := "/odom"; e_msg := MOdometry o; e_t := timestamp |}
        ∧ Odometry.stamp o = timestamp)
  ∨ (∃ m, e = tf_static_entry m timestamp
          ∧ Forall (λ x, TransformStamped.stamp x = zero_time) m)
  ∨ (∃ sensor cloud, sensor ∈ SELECTED_LIDAR_SENSOR cfg
                     ∧ e = cloud_entry sensor.2 timestamp cloud)
  ∨ (e_topic e = "/camera/front/image" ∧ e_t e = timestamp
     ∧ ∃ m, e_msg e = MImage m ∧ Image.stamp m = timestamp)
  ∨ (e_topic e = "/camera/front/camera_info" ∧ e_t e = timestamp
     ∧ ∃ m, e_msg e = MCameraInfo m ∧ CameraInfo.stamp m = timestamp).

(** the seven numbers of a transform, and whether one of them is a NaN *)
Definition floats_of (x : TransformStamped.t) : list float :=
  [(TransformStamped.translation x).1.1; (TransformStamped.translation x).1.2;
   (TransformStamped.translation x).2;
   (TransformStamped.rotation x).1.1.1; (TransformStamped.rotation x).1.1.2;
   (TransformStamped.rotation x).1.2; (TransformStamped.rotation x).2].

Definition has_nan (m : TFMessage) : bool :=
  existsb (λ x, existsb PrimFloat.is_nan (floats_of x)) m.

(** the messages [write_odom] and [write_tf] write *)
Definition odom_entry (timestamp : RosTime) (t : float * float * float)
    (q : float * float * float * float) : Entry :=
  {| e_topic := "/odom";
     e_msg := MOdometry {| Odometry.frame_id := "map";
                           Odometry.stamp := timestamp;
                           Odometry.child_frame_id := "base_link";
                           Odometry.position := t;
                           Odometry.orientation := q |};
     e_t := timestamp |}.

Definition tf_entry (timestamp : RosTime) (t : float * float * float)
    (q : float * float * float * float) : Entry :=
  {| e_topic := "/tf";
     e_msg := MTFMessage [{| TransformStamped.stamp := timestamp;
                             TransformStamped.frame_id := "map";
                             TransformStamped.child_frame_id := "base_link";
                             TransformStamped.translation := t;
                             TransformStamped.rotation := q |}];
     e_t := timestamp |}.

Definition by_name (c d : LaserCalibration.t) : Prop :=
  (LaserCalibration.name c ≤ LaserCalibration.name d)%Z.

Global Instance by_name_trans : Transitive by_name.
Proof. unfold by_name. intros c d e. lia. Qed.

(** the intensity column of a cloud *)
Definition intensities (cloud : list (list float)) : list float :=
  (λ row, nth 3 row 0%float) <$> cloud.

(** strictly between -1 and 1, and between -1 and 1 with the bounds *)
Definition within_open (y : float) : Prop :=
  PrimFloat.ltb (-1)%float y = true ∧ PrimFloat.ltb y 1%float = true.
Definition within_closed (y : float) : Prop :=
  PrimFloat.leb (-1)%float y = true ∧ PrimFloat.leb y 1%float = true.

(** the intensities gathered at the valid pixels of channel 1 of one of the
    two range images of a calibration of the sensor [lidar_id] *)
Definition from_channel_1 (cfg : Config) (frame : Frame.t) (range_images : RangeImages)
    (lidar_id : Z) (xs : list float) : Prop :=
  ∃ c ri images range_image t,
    c ∈ Frame.laser_calibrations frame
    ∧ LaserCalibration.name c = lidar_id
    ∧ ri ∈ [0; 1]
    ∧ range_images !! lidar_id = Some images
    ∧ images !! ri = Some range_image
    ∧ tf_reshape (data range_image) (shape_dims range_image) = Ok t
    ∧ Forall2 (λ p x, intensity_of <$> at_ (cells t) p = Some x)
        (tf_where (mask_of cfg t)) xs.

(** the intensity arrays of [ret_dict] all come from channel 1 *)
Definition intensity_sourced (cfg : Config) (frame : Frame.t) (range_images : RangeImages)
    (d : gmap string (list ndarray)) : Prop :=
  ∀ n ri, ri ∈ [0; 1] →
    Forall (λ a, ∃ xs, a = Scalars xs ∧ from_channel_1 cfg frame range_images n xs)
      (dd_get d (intensity_key n ri)).

(** with normalization, every intensity of every cloud strictly between -1
    and 1: the bound as a property of the converter *)
Definition normalized_within_open `{Library} (cfg : Config) : Prop :=
  NORMALIZE_INTENSITY cfg = true →
  ∀ frame ris cps top ret_dict lidar_id cloud,
    convert_range_image_to_point_cloud cfg frame ris cps top [0; 1] = Ok ret_dict →
    assemble_cloud cfg ret_dict lidar_id = Ok cloud →
    Forall within_open (intensities cloud).

(** only one camera name reads 'front' *)
Definition unique_front `{Library} : Prop :=
  ∀ a b, is_front a = true → is_front b = true → a = b.

(** at most one image, one camera info and one camera transform per frame,
    whatever the frame holds *)
Definition one_message_per_frame `{Library} : Prop :=
  ∀ frame timestamp s path entries,
    bag s = Some (path, entries) →
    (∃ new, bag (write_image frame timestamp s).1 = Some (path, entries ++ new)
            ∧ length new ≤ 1)
    ∧ (∃ new, bag (write_camera_info frame timestamp s).1 = Some (path, entries ++ new)
              ∧ length new ≤ 1)
    ∧ (∀ m, static_transforms frame = Ok m → length m ≤ 1).

(** ** A small instance: one implementation of the library and a few frames *)

Module Sample.

Definition dot (u v : list float) : float :=
  foldr (λ p acc, PrimFloat.add (PrimFloat.mul p.1 p.2) acc) 0%float (zip u v).

Definition transpose4 (m : Matrix) : Matrix :=
  (λ j, (λ row, nth j row 0%float) <$> m) <$> [0; 1; 2; 3].

Definition matmul (a b : Matrix) : Res Matrix :=
  Ok ((λ row, dot row <$> transpose4 b) <$> a).

Definition entry (m : Matrix) (i j : nat) : float := nth j (nth i m []) 0%float.

(** a projection that keeps the range, the row's inclination and, when a
    frame pose is given, its x translation *)
Definition project (ranges : list (grid float)) (extrinsics : list Matrix)
    (inclinations : list (list float))
    (pixel_pose : option (list (grid Matrix))) (frame_pose : option (list Matrix))
  : Res (list (grid Point)) :=
  match ranges, inclinations with
  | [rng], [incl] =>
      if decide (length rng = length incl)
      then
        let shift := match frame_pose with
                     | Some [m] => entry m 0 3
                     | _ => 0%float
                     end in
        Ok [zip_with (λ row a, (λ r, (r, a, shift)) <$> row) rng incl]
      else Raise InvalidArgumentError
  | _, _ => Raise InvalidArgumentError
  end.

Definition camera_name (n : Z) : Res string :=
  match n with
  | 0%Z => Ok "UNKNOWN"
  | 1%Z => Ok "FRONT"
  | 2%Z => Ok "FRONT_LEFT"
  | 3%Z => Ok "FRONT_RIGHT"
  | 4%Z => Ok "SIDE_LEFT"
  | 5%Z => Ok "SIDE_RIGHT"
  | _ => Raise ValueError
  end.

Definition identity16 : list float :=
  [1; 0; 0; 0;  0; 1; 0; 0;  0; 0; 1; 0;  0; 0; 0; 1]%float.
Definition shifted16 : list float :=
  [1; 0; 0; 7;  0; 1; 0; 0;  0; 0; 1; 0;  0; 0; 0; 1]%float.

(** a 2 x 2 range image: (range, intensity, elongation, nlz) per pixel *)
Definition image_first : MatrixFloat :=
  {| data := [5; 10; 0; 0;   0; 11; 0; 0;
              3; 12; 0; 1;  -1; 13; 0; 0]%float;
     shape_dims := [2; 2; 4] |}.
Definition image_second : MatrixFloat :=
  {| data := [0; 20; 0; 0;   4; 21; 0; 0;
              0; 22; 0; 0;   0; 23; 0; 0]%float;
     shape_dims := [2; 2; 4] |}.
Definition top_pose : MatrixFloat :=
  {| data := replicate 24 0%float; shape_dims := [2; 2; 6] |}.

Definition top_calibration : LaserCalibration.t :=
  {| LaserCalibration.name := TOP;
     LaserCalibration.beam_inclinations := [-0.5; 0.25]%float;
     LaserCalibration.beam_inclination_min := 0%float;
     LaserCalibration.beam_inclination_max := 0%float;
     LaserCalibration.extrinsic_transform := identity16 |}.
Definition front_calibration : LaserCalibration.t :=
  {| LaserCalibration.name := 2%Z;
     LaserCalibration.beam_inclinations := [];
     LaserCalibration.beam_inclination_min := (-1)%float;
     LaserCalibration.beam_inclination_max := 1%float;
     LaserCalibration.extrinsic_transform := identity16 |}.

Definition front_camera (extrinsic : list float) : CameraCalibration.t :=
  {| CameraCalibration.name := 1%Z;
     CameraCalibration.intrinsic := [2000; 2000; 960; 640; 0; 0; 0; 0; 0]%float;
     CameraCalibration.extrinsic_transform := extrinsic;
     CameraCalibration.width := 1920%Z;
     CameraCalibration.height := 1280%Z |}.
Definition side_camera : CameraCalibration.t :=
  {| CameraCalibration.name := 4%Z;
     CameraCalibration.intrinsic := [2000; 2000; 960; 440; 0; 0; 0; 0; 0]%float;
     CameraCalibration.extrinsic_transform := identity16;
     CameraCalibration.width := 1920%Z;
     CameraCalibration.height := 886%Z |}.

Definition frame_with (micros : Z) (pose camera_extrinsic : list float)
    (calibrations : list LaserCalibration.t) : Frame.t :=
  {| Frame.timestamp_micros := micros;
     Frame.pose_transform := pose;
     Frame.laser_calibrations := calibrations;
     Frame.camera_calibrations := [side_camera; front_camera camera_extrinsic];
     Frame.images := [{| CameraImage.name := 1%Z; CameraImage.image := "jpeg-front" |};
                      {| CameraImage.name := 2%Z; CameraImage.image := "jpeg-left" |}];
     Frame.lasers := [{| Laser.name := 2%Z; Laser.ri_return1 := "a"; Laser.ri_return2 := "b" |};
                      {| Laser.name := TOP; Laser.ri_return1 := "c"; Laser.ri_return2 := "d" |}] |}.

Definition frame1 : Frame.t :=
  frame_with 1000000 identity16 identity16 [front_calibration; top_calibration].
Definition frame2 : Frame.t :=
  frame_with 1100000 shifted16 identity16 [front_calibration; top_calibration].
(** the extrinsic of the front camera differs from the one of [frame1] *)
Definition frame3 : Frame.t :=
  frame_with 1200000 identity16 shifted16 [front_calibration; top_calibration].
(** no calibration of the top sensor *)
Definition frame4 : Frame.t :=
  frame_with 1300000 identity16 identity16 [front_calibration].

Definition range_images : RangeImages :=
  {[ TOP := [image_first; image_second]; 2%Z := [image_first; image_second] ]}.

Definition parse_frame (data : string) : Res Frame.t :=
  if String.eqb data "frame1" then Ok frame1
  else if String.eqb data "frame2" then Ok frame2
  else if String.eqb data "frame3" then Ok frame3
  else if String.eqb data "frame4" then Ok frame4
  else Raise DecodeError.

Definition read_unit (pathname : string) : Res (list string) :=
  if String.eqb pathname "tfrecord/a.tfrecord" then Ok ["frame1"; "frame2"]
  else if String.eqb pathname "tfrecord/b.tfrecord" then Ok ["frame1"; "frame3"; "frame2"]
  else if String.eqb pathname "tfrecord/c.tfrecord" then Ok ["frame2"]
  else Raise LibraryError.

#[export] Instance library : Library := {|
  parse_range_image_and_camera_projection := λ frame,
    Ok (range_images, ∅, (), top_pose);
  get_rotation_matrix := λ roll pitch yaw,
    Ok (fmap (M:=list) (fmap (M:=list) (λ x, [[x]])) roll);
  get_transform := λ rotation translation, Ok rotation;
  compute_inclination := λ bounds h,
    Ok (take h (nth 0 bounds 0%float :: replicate (h - 1) (nth 1 bounds 0%float)));
  extract_point_cloud_from_range_image := project;
  np_tanh := λ x, PrimFloat.div x (PrimFloat.add 1%float (PrimFloat.abs x));
  np_matmul := matmul;
  translation_from_matrix := λ m, Ok (entry m 0 3, entry m 1 3, entry m 2 3);
  quaternion_from_matrix := λ m, Ok (0, 0, 0, 1)%float;
  CameraName_Name := camera_name;
  cv2_imdecode := λ buf,
    if String.eqb buf "" then Raise cv2_error else Ok (Some (1, 1, buf));
  cv2_cvtColor_BGR2RGB := λ img, of_option cv2_error img;
  stamp_of_micros := λ micros, ((micros / 1000000)%Z, ((micros mod 1000000) * 1000)%Z);
  TFRecordDataset := read_unit;
  ParseFromString := parse_frame;
  Bag_str := λ path entries, path
|}.

Definition pose : Matrix := chunks 4 4 shifted16.

Definition ret_dict : gmap string (list ndarray) :=
  match convert_range_image_to_point_cloud default_config frame1 range_images ∅
          top_pose [0; 1] with
  | Ok d => d
  | Raise _ => ∅
  end.

Definition pathnames : list string := ["tfrecord/b.tfrecord"; "tfrecord/c.tfrecord"].


(** the state in which the frames of the first unit are converted *)
Definition open_unit : State := unit_start "tfrecord/b.tfrecord" (Waymo2Bag pathnames).

(** [frame1] with its laser calibrations in the other order *)
Definition frame_swapped : Frame.t :=
  frame_with 1000000 identity16 identity16 [top_calibration; front_calibration].

(** no laser calibration at all *)
Definition frame_bare : Frame.t := frame_with 1000000 identity16 identity16 [].

(** a pose of 15 numbers *)
Definition frame_short_pose : Frame.t :=
  frame_with 1000000 (take 15 identity16) identity16 [front_calibration; top_calibration].

(** the extrinsic of the front camera holds a NaN *)
Definition nan16 : list float :=
  [1; 0; 0; nan;  0; 1; 0; 0;  0; 0; 1; 0;  0; 0; 0; 1]%float.
Definition frame_nan : Frame.t :=
  frame_with 1000000 identity16 nan16 [front_calibration; top_calibration].
Definition transforms_nan : TFMessage :=
  match static_transforms frame_nan with Ok m => m | Raise _ => [] end.

(** the first bag of the run over [pathnames], and its first message *)
Definition first_bag : string * list Entry :=
  default ("", []) (head (closed_bags (convert default_config (Waymo2Bag pathnames)).1)).
Definition first_entry : Entry :=
  default (tf_static_entry [] zero_time) (head first_bag.2).

(** a front camera with three intrinsic values *)
Definition short_camera : CameraCalibration.t :=
  {| CameraCalibration.name := 1%Z;
     CameraCalibration.intrinsic := [2000; 2000; 960]%float;
     CameraCalibration.extrinsic_transform := identity16;
     CameraCalibration.width := 1920%Z;
     CameraCalibration.height := 1280%Z |}.

(** [np.tanh] where rounding alone decides it: from 20 on the double nearest
    to tanh x is 1, up to -20 it is -1, and a NaN stays a NaN; in between a
    step stands in for it *)
Definition tanh_rounded (x : float) : float :=
  if PrimFloat.leb 20%float x then 1%float
  else if PrimFloat.leb x (-20)%float then (-1)%float
  else if PrimFloat.eqb x x then 0%float
  else x.

(** the library of the sample, with [tanh_rounded] for [np.tanh] *)
Definition rounding : Library := {|
  parse_range_image_and_camera_projection :=
    @parse_range_image_and_camera_projection library;
  get_rotation_matrix := @get_rotation_matrix library;
  get_transform := @get_transform library;
  compute_inclination := @compute_inclination library;
  extract_point_cloud_from_range_image := @extract_point_cloud_from_range_image library;
  np_tanh := tanh_rounded;
  np_matmul := @np_matmul library;
  translation_from_matrix := @translation_from_matrix library;
  quaternion_from_matrix := @quaternion_from_matrix library;
  CameraName_Name := @CameraName_Name library;
  cv2_imdecode := @cv2_imdecode library;
  cv2_cvtColor_BGR2RGB := @cv2_cvtColor_BGR2RGB library;
  stamp_of_micros := @stamp_of_micros library;
  TFRecordDataset := @TFRecordDataset library;
  ParseFromString := @ParseFromString library;
  Bag_str := @Bag_str library
|}.

Definition ret_dict_rounding : gmap string (list ndarray) :=
  match @convert_range_image_to_point_cloud rounding default_config frame1 range_images ∅
          top_pose [0; 1] with
  | Ok d => d
  | Raise _ => ∅
  end.

Definition cloud_rounding : list (list float) :=
  match @assemble_cloud rounding default_config ret_dict_rounding TOP with
  | Ok cloud => cloud
  | Raise _ => []
  end.

(** the front camera listed twice, images and calibrations *)
Definition frame_two_fronts : Frame.t :=
  {| Frame.timestamp_micros := 1000000;
     Frame.pose_transform := identity16;
     Frame.laser_calibrations := [front_calibration; top_calibration];
     Frame.camera_calibrations := [front_camera identity16; front_camera identity16];
     Frame.images := [{| CameraImage.name := 1%Z; CameraImage.image := "jpeg-front" |};
                      {| CameraImage.name := 1%Z; CameraImage.image := "jpeg-front-too" |}];
     Frame.lasers := [] |}.

End Sample.

(** * Proofs *)

(** ** Outcomes *)

Lemma bind_Ok {A B} (f : A → Res B) (m : Res A) (b : B) :
  m ≫= f = Ok b ↔ ∃ a, m = Ok a ∧ f a = Ok b.
Proof.
  destruct m as [a|e]; simpl; split.
  - intros Hf. by exists a.
  - by intros (a' & [= ->] & Hf).
  - discriminate.
  - by intros (a' & ? & _).
Qed.

Lemma of_option_Ok {A} (e : exn) (o : option A) (a : A) :
  of_option e o = Ok a ↔ o = Some a.
Proof. destruct o; simpl; split; congruence. Qed.

Ltac res_inv :=
  repeat match goal with
  | H : _ ≫= _ = Ok _ |- _ => apply bind_Ok in H as (? & ? & H)
  | H : of_option _ _ = Ok _ |- _ => apply of_option_Ok in H
  | H : Ok _ = Ok _ |- _ => injection H as H
  | H : mret _ = Ok _ |- _ => injection H as H
  | H : Raise _ = Ok _ |- _ => discriminate H
  end.

Lemma mapM_Ok {A B} (f : A → Res B) (l : list A) (k : list B) :
  mapM f l = Ok k ↔ Forall2 (λ x y, f x = Ok y) l k.
Proof.
  revert k. induction l as [|x l IH]; intros k; simpl.
  - split.
    + intros [= <-]. constructor.
    + intros Hk. by inversion Hk.
  - split.
    + intros Hm. res_inv. subst k. constructor; [done|]. by apply IH.
    + intros Hk. inversion Hk as [|? y ? k' Hy Hk']; subst.
      rewrite Hy. simpl. apply IH in Hk'. by rewrite Hk'.
Qed.

Lemma foldM_app {A B} (f : B → A → Res B) (b : B) (l1 l2 : list A) :
  foldM f b (l1 ++ l2) = foldM f b l1 ≫= λ b', foldM f b' l2.
Proof.
  revert b. induction l1 as [|x l1 IH]; intros b; simpl; [done|].
  destruct (f b x); simpl; [apply IH|done].
Qed.

(** ** Coordinates of the mask *)

Lemma elem_of_true_columns (c : nat) (row : list bool) (j : nat) :
  j ∈ true_columns c row ↔ ∃ k, j = c + k ∧ row !! k = Some true.
Proof.
  revert c. induction row as [|b row IH]; intros c; simpl.
  - split; [by intros ?%elem_of_nil|by intros (k & _ & ?)].
  - rewrite elem_of_app, IH. split.
    + intros [Hb|(k & -> & Hk)].
      * destruct b; [|by apply elem_of_nil in Hb].
        apply list_elem_of_singleton in Hb as ->. exists 0. split; [lia|done].
      * exists (S k). split; [lia|done].
    + intros ([|k] & -> & Hk); simpl in Hk.
      * injection Hk as ->. left. rewrite Nat.add_0_r. apply list_elem_of_singleton. done.
      * right. exists k. split; [lia|done].
Qed.

Lemma length_true_columns (c : nat) (row : list bool) :
  length (true_columns c row) = count_true row.
Proof.
  unfold count_true. revert c. induction row as [|b row IH]; intros c; simpl; [done|].
  rewrite length_app, IH. by destruct b.
Qed.


Lemma elem_of_where_from (r : nat) (mask : grid bool) (p : nat * nat) :
  p ∈ where_from r mask ↔ ∃ k, p.1 = r + k ∧ at_ mask (k, p.2) = Some true.
Proof.
  revert r. induction mask as [|row mask IH]; intros r; simpl.
  - split; [by intros ?%elem_of_nil|by intros (k & _ & ?)].
  - rewrite elem_of_app, IH, list_elem_of_fmap. split.
    + intros [(c & -> & Hc)|(k & Hp & Hk)].
      * apply elem_of_true_columns in Hc as (j & -> & Hj).
        exists 0. split; [simpl; lia|]. unfold at_. simpl. done.
      * exists (S k). split; [lia|done].
    + intros ([|k] & Hp & Hk).
      * left. exists p.2. split.
        -- destruct p as [a b]; simpl in *. f_equal. lia.
        -- apply elem_of_true_columns. exists p.2. split; [done|]. by unfold at_ in Hk.
      * right. exists k. split; [lia|done].
Qed.

Lemma elem_of_tf_where (mask : grid bool) (p : nat * nat) :
  p ∈ tf_where mask ↔ at_ mask p = Some true.
Proof.
  unfold tf_where. rewrite elem_of_where_from. destruct p as [a b]; simpl. split.
  - by intros (k & -> & Hk).
  - intros Hk. by exists a.
Qed.

Lemma length_where_from (r : nat) (mask : grid bool) :
  length (where_from r mask) = count_valid mask.
Proof.
  unfold count_valid. revert r. induction mask as [|row mask IH]; intros r; simpl; [done|].
  by rewrite length_app, length_fmap, length_true_columns, IH.
Qed.


Lemma at_map {A B} (f : A → B) (g : grid A) (p : nat * nat) :
  at_ (fmap (M:=list) (fmap (M:=list) f) g) p = f <$> at_ g p.
Proof.
  unfold at_. rewrite list_lookup_fmap.
  destruct (g !! p.1) as [row|]; simpl; [|done]. by rewrite list_lookup_fmap.
Qed.

Lemma zip_with_map_map {A B C D} (f : B → C → D) (g : A → B) (h : A → C) (l : list A) :
  zip_with f (g <$> l) (h <$> l) = (λ x, f (g x) (h x)) <$> l.
Proof. induction l as [|x l IH]; simpl; [done|]. by f_equal. Qed.

Lemma channel_Ok (k : nat) (t : Tensor) (g : grid float) :
  channel k t = Ok g ↔ k < depth t ∧ g = fmap (M:=list) (fmap (M:=list) (λ px, nth k px 0%float)) (cells t).
Proof.
  unfold channel. case_decide; split.
  - intros [= <-]. done.
  - intros [_ ->]. done.
  - discriminate.
  - intros [? _]. lia.
Qed.

Lemma range_image_mask_Ok (cfg : Config) (t : Tensor) (mask : grid bool) :
  range_image_mask cfg t = Ok mask →
  mask = fmap (M:=list) (fmap (M:=list) (pixel_valid cfg)) (cells t).
Proof.
  unfold range_image_mask, pixel_valid. intros Hm.
  apply bind_Ok in Hm as (rng & Hrng & Hm). apply channel_Ok in Hrng as [_ ->].
  destruct (FILTER_NO_LABEL_ZONE_POINTS cfg).
  - apply bind_Ok in Hm as (nlz & Hnlz & Hm). apply channel_Ok in Hnlz as [_ ->].
    injection Hm as <-. rewrite <-!list_fmap_compose, zip_with_map_map.
    apply list_fmap_ext. intros _ row _. simpl.
    rewrite <-!list_fmap_compose, zip_with_map_map. done.
  - injection Hm as <-. rewrite <-list_fmap_compose. apply list_fmap_ext.
    intros _ row _. simpl. rewrite <-list_fmap_compose. apply list_fmap_ext.
    intros _ px _. simpl. by rewrite andb_true_r.
Qed.

Lemma range_image_mask_is_Ok (cfg : Config) (t : Tensor) :
  (if FILTER_NO_LABEL_ZONE_POINTS cfg then 3 < depth t else 0 < depth t) →
  range_image_mask cfg t = Ok (fmap (M:=list) (fmap (M:=list) (pixel_valid cfg)) (cells t)).
Proof.
  intros Hd. unfold range_image_mask.
  assert (0 < depth t) as H0 by (destruct (FILTER_NO_LABEL_ZONE_POINTS cfg); lia).
  destruct (channel 0 t) as [rng|e] eqn:Hrng.
  2:{ unfold channel in Hrng. by case_decide. }
  simpl. pose proof (range_image_mask_Ok cfg t) as Hspec.
  unfold range_image_mask in Hspec. rewrite Hrng in Hspec. simpl in Hspec.
  destruct (FILTER_NO_LABEL_ZONE_POINTS cfg).
  - destruct (channel 3 t) as [nlz|e] eqn:Hnlz.
    2:{ unfold channel in Hnlz. by case_decide. }
    simpl in *. f_equal. by apply Hspec.
  - f_equal. by apply Hspec.
Qed.

Lemma tf_gather_nd_Ok {A} (g : grid A) (idx : list (nat * nat)) (l : list A) :
  tf_gather_nd g idx = Ok l ↔ Forall2 (λ p x, at_ g p = Some x) idx l.
Proof.
  unfold tf_gather_nd. rewrite mapM_Ok.
  split; intros Hf; eapply Forall2_impl; try exact Hf; intros p x; apply of_option_Ok.
Qed.

Lemma tf_gather_nd_is_Ok {A} (g : grid A) (idx : list (nat * nat)) :
  Forall (λ p, is_Some (at_ g p)) idx → is_Ok (tf_gather_nd g idx).
Proof.
  induction 1 as [|p idx [x Hx] _ [l Hl]].
  - by exists [].
  - exists (x :: l). apply tf_gather_nd_Ok. constructor; [done|].
    by apply tf_gather_nd_Ok.
Qed.

Lemma same_shape_at {A B} (g : grid A) (h : grid B) (p : nat * nat) :
  same_shape g h → is_Some (at_ g p) → is_Some (at_ h p).
Proof.
  unfold same_shape, at_. intros Hs [x Hx].
  destruct (g !! p.1) as [row|] eqn:Hrow; simpl in Hx; [|done].
  destruct (Forall2_lookup_l _ _ _ _ _ Hs Hrow) as (row' & Hrow' & Hlen).
  rewrite Hrow'. simpl. apply lookup_lt_is_Some. rewrite <-Hlen.
  by apply lookup_lt_Some in Hx.
Qed.

Lemma same_shape_map {A B} (f : A → B) (g : grid A) : same_shape g (fmap (M:=list) (fmap (M:=list) f) g).
Proof.
  unfold same_shape. induction g as [|row g IH]; simpl; constructor; [|done].
  by rewrite length_fmap.
Qed.

Lemma tf_squeeze_Ok {A} (l : list A) (x : A) : tf_squeeze l = Ok x ↔ l = [x].
Proof.
  destruct l as [|y [|z l]]; simpl; split; try discriminate; congruence.
Qed.


Section EngineFacts.
Context `{Library} (cfg : Config).

Lemma project_and_gather_Ok t extrinsic beam poses points intensity :
  project_and_gather cfg t extrinsic beam poses = Ok (points, intensity) →
  ∃ cart,
    range_image_mask cfg t = Ok (mask_of cfg t) ∧
    extract_point_cloud_from_range_image [range_of t] [extrinsic] [beam]
      poses.1 poses.2 = Ok [cart] ∧
    Forall2 (λ p pt, at_ cart p = Some pt) (tf_where (mask_of cfg t)) points ∧
    Forall2 (λ p x, intensity_of <$> at_ (cells t) p = Some x)
      (tf_where (mask_of cfg t)) intensity.
Proof.
  unfold project_and_gather. intros Hp.
  apply bind_Ok in Hp as (mask & Hmask & Hp).
  apply bind_Ok in Hp as (rng & Hrng & Hp).
  apply bind_Ok in Hp as (batch & Hbatch & Hp).
  apply bind_Ok in Hp as (cart & Hcart & Hp).
  apply bind_Ok in Hp as (pts & Hpts & Hp).
  apply bind_Ok in Hp as (ch1 & Hch1 & Hp).
  apply bind_Ok in Hp as (ints & Hints & Hp).
  injection Hp as <- <-.
  pose proof (range_image_mask_Ok _ _ _ Hmask) as ->. fold (mask_of cfg t) in *.
  apply channel_Ok in Hrng as [_ ->]. apply channel_Ok in Hch1 as [_ ->].
  apply tf_squeeze_Ok in Hcart as ->.
  apply tf_gather_nd_Ok in Hpts. apply tf_gather_nd_Ok in Hints.
  exists cart. repeat split; try done.
  eapply Forall2_impl; [exact Hints|]. intros p x Hx. cbv beta in Hx. by rewrite at_map in Hx.
Qed.

Lemma convert_one_Ok range_images tp frame_pose c ri out :
  convert_one cfg range_images tp frame_pose c ri = Ok out →
  ∃ ris range_image beam extrinsic t,
    range_images !! LaserCalibration.name c = Some ris ∧
    ris !! ri = Some range_image ∧
    resolve_beam_inclinations c range_image = Ok beam ∧
    np_reshape_4_4 (LaserCalibration.extrinsic_transform c) = Ok extrinsic ∧
    tf_reshape (data range_image) (shape_dims range_image) = Ok t ∧
    project_and_gather cfg t extrinsic beam (pose_locals c tp frame_pose) = Ok out.
Proof.
  unfold convert_one. intros Hc.
  apply bind_Ok in Hc as (ris & Hris%of_option_Ok & Hc).
  apply bind_Ok in Hc as (range_image & Hri%of_option_Ok & Hc).
  apply bind_Ok in Hc as (beam & Hbeam & Hc).
  apply bind_Ok in Hc as (ex & Hex & Hc).
  apply bind_Ok in Hc as (t & Ht & Hc).
  by exists ris, range_image, beam, ex, t.
Qed.

End EngineFacts.

Lemma at_mask_of (cfg : Config) (t : Tensor) (p : nat * nat) :
  at_ (mask_of cfg t) p = pixel_valid cfg <$> at_ (cells t) p.
Proof. apply at_map. Qed.


Section EngineFacts.
Context `{Library} (cfg : Config).

Lemma resolve_beam_inclinations_explicit c range_image :
  LaserCalibration.beam_inclinations c ≠ [] →
  resolve_beam_inclinations c range_image
  = Ok (reverse (LaserCalibration.beam_inclinations c)).
Proof.
  intros Hne. unfold resolve_beam_inclinations.
  case_decide as Hlen; [|done].
  by destruct (LaserCalibration.beam_inclinations c).
Qed.

Lemma resolve_beam_inclinations_bounds c range_image :
  LaserCalibration.beam_inclinations c = [] →
  resolve_beam_inclinations c range_image
  = (h ← of_option IndexError (shape_dims range_image !! 0);
     inclinations ← compute_inclination
       [LaserCalibration.beam_inclination_min c;
        LaserCalibration.beam_inclination_max c] h;
     Ok (reverse inclinations)).
Proof.
  intros He. unfold resolve_beam_inclinations. rewrite He. simpl.
  destruct (of_option IndexError (shape_dims range_image !! 0)); simpl; [|done].
  done.
Qed.

Lemma reverse_row {A} (l : list A) (i : nat) :
  i < length l → reverse l !! i = l !! (length l - 1 - i).
Proof.
  intros Hi. rewrite reverse_lookup by done. f_equal. lia.
Qed.

(** C2: the inclinations handed to the projection are the resolved list
    reversed: an explicit list [a0 :: an] of the calibration is used as
    [reverse (a0 :: an)], and with no explicit list the inclinations
    interpolated between the two bounds over the image height are reversed as
    well; row [i] of the image thus meets entry [length - 1 - i] of the
    resolved list. *)
Theorem inclinations_reversed_before_use range_images tp frame_pose c ri out :
  convert_one cfg range_images tp frame_pose c ri = Ok out →
  ∃ ris range_image t extrinsic cart resolved,
    range_images !! LaserCalibration.name c = Some ris ∧
    ris !! ri = Some range_image ∧
    tf_reshape (data range_image) (shape_dims range_image) = Ok t ∧
    (match LaserCalibration.beam_inclinations c with
     | [] => ∃ h, shape_dims range_image !! 0 = Some h ∧
               compute_inclination
                 [LaserCalibration.beam_inclination_min c;
                  LaserCalibration.beam_inclination_max c] h = Ok resolved
     | a0 :: an => resolved = a0 :: an
     end) ∧
    resolve_beam_inclinations c range_image = Ok (reverse resolved) ∧
    extract_point_cloud_from_range_image [range_of t] [extrinsic] [reverse resolved]
      (pose_locals c tp frame_pose).1 (pose_locals c tp frame_pose).2 = Ok [cart] ∧
    ∀ i, i < length resolved →
      reverse resolved !! i = resolved !! (length resolved - 1 - i).
Proof.
  intros Hc. apply convert_one_Ok in Hc
    as (ris & range_image & beam & ex & t & Hris & Hri & Hbeam & Hex & Ht & Hp).
  destruct out as [points intensity].
  apply project_and_gather_Ok in Hp as (cart & _ & Hcart & _).
  destruct (LaserCalibration.beam_inclinations c) as [|a0 an] eqn:Hincl.
  - rewrite resolve_beam_inclinations_bounds in Hbeam by done.
    apply bind_Ok in Hbeam as (h & Hh%of_option_Ok & Hbeam).
    apply bind_Ok in Hbeam as (resolved & Hres & [= <-]).
    exists ris, range_image, t, ex, cart, resolved. repeat split; try done.
    + by exists h.
    + rewrite resolve_beam_inclinations_bounds by done.
      rewrite Hh. simpl. by rewrite Hres.
    + intros i. apply reverse_row.
  - rewrite resolve_beam_inclinations_explicit in Hbeam by (by rewrite Hincl).
    injection Hbeam as <-. rewrite Hincl in Hcart.
    exists ris, range_image, t, ex, cart, (a0 :: an). repeat split; try done.
    + rewrite resolve_beam_inclinations_explicit by (by rewrite Hincl).
      by rewrite Hincl.
    + intros i. apply reverse_row.
Qed.


Lemma pose_locals_top c tp frame_pose :
  LaserCalibration.name c = TOP →
  pose_locals c tp frame_pose = (Some [tp], Some [frame_pose]).
Proof. intros Hn. unfold pose_locals. by case_decide. Qed.

Lemma pose_locals_other c tp frame_pose :
  LaserCalibration.name c ≠ TOP → pose_locals c tp frame_pose = (None, None).
Proof. intros Hn. unfold pose_locals. by case_decide. Qed.

(** C4, as the code has it: for the top sensor the projection receives the
    range channel of the sensor's image, the sensor's extrinsic and
    inclinations, and the per-pixel pose grid together with the frame pose;
    for every other sensor it receives the same three of that sensor and
    neither of the two poses, so that the result of the conversion does not
    depend on the pose grid or on the frame pose at all. *)
Theorem pixel_pose_only_for_top range_images tp frame_pose c ri :
  (LaserCalibration.name c = TOP →
   ∀ out, convert_one cfg range_images tp frame_pose c ri = Ok out →
     ∃ ris range_image t extrinsic beam cart,
       range_images !! LaserCalibration.name c = Some ris ∧
       ris !! ri = Some range_image ∧
       tf_reshape (data range_image) (shape_dims range_image) = Ok t ∧
       np_reshape_4_4 (LaserCalibration.extrinsic_transform c) = Ok extrinsic ∧
       resolve_beam_inclinations c range_image = Ok beam ∧
       extract_point_cloud_from_range_image [range_of t] [extrinsic] [beam]
         (Some [tp]) (Some [frame_pose]) = Ok [cart] ∧
       Forall2 (λ p pt, at_ cart p = Some pt) (tf_where (mask_of cfg t)) out.1) ∧
  (LaserCalibration.name c ≠ TOP →
   (∀ out, convert_one cfg range_images tp frame_pose c ri = Ok out →
     ∃ ris range_image t extrinsic beam cart,
       range_images !! LaserCalibration.name c = Some ris ∧
       ris !! ri = Some range_image ∧
       tf_reshape (data range_image) (shape_dims range_image) = Ok t ∧
       np_reshape_4_4 (LaserCalibration.extrinsic_transform c) = Ok extrinsic ∧
       resolve_beam_inclinations c range_image = Ok beam ∧
       extract_point_cloud_from_range_image [range_of t] [extrinsic] [beam]
         None None = Ok [cart] ∧
       Forall2 (λ p pt, at_ cart p = Some pt) (tf_where (mask_of cfg t)) out.1) ∧
   ∀ tp' frame_pose',
     convert_one cfg range_images tp' frame_pose' c ri
     = convert_one cfg range_images tp frame_pose c ri).
Proof.
  split.
  - intros Hn [points intensity] Hc. apply convert_one_Ok in Hc
      as (ris & range_image & beam & ex & t & Hris & Hri & Hbeam & Hex & Ht & Hp).
    apply project_and_gather_Ok in Hp as (cart & _ & Hcart & Hpts & _).
    rewrite pose_locals_top in Hcart by done.
    by exists ris, range_image, t, ex, beam, cart.
  - intros Hn. split.
    + intros [points intensity] Hc. apply convert_one_Ok in Hc
        as (ris & range_image & beam & ex & t & Hris & Hri & Hbeam & Hex & Ht & Hp).
      apply project_and_gather_Ok in Hp as (cart & _ & Hcart & Hpts & _).
      rewrite pose_locals_other in Hcart by done.
      by exists ris, range_image, t, ex, beam, cart.
    + intros tp' fp'. unfold convert_one. by rewrite !pose_locals_other.
Qed.
End EngineFacts.

(** ** The dictionary of results *)

Lemma dd_get_append (d : gmap string (list ndarray)) (k k' : string) (x : ndarray) :
  dd_get (dd_append d k x) k' = if decide (k = k') then dd_get d k ++ [x] else dd_get d k'.
Proof.
  unfold dd_append, dd_get at 1. rewrite lookup_insert. by case_decide.
Qed.

Lemma dd_get_empty (k : string) : dd_get ∅ k = [].
Proof. unfold dd_get. by rewrite lookup_empty. Qed.

Lemma points_key_ne_intensity_key (a b : string) : "points_" +:+ a ≠ "intensity_" +:+ b.
Proof. discriminate. Qed.


Lemma paired_empty : paired ∅.
Proof. intros suffix. exists [], []. by rewrite !dd_get_empty. Qed.

Section AssemblerFacts.
Context `{Library} (cfg : Config).

Lemma convert_one_lengths range_images tp frame_pose c ri points intensity :
  convert_one cfg range_images tp frame_pose c ri = Ok (points, intensity) →
  length points = length intensity.
Proof.
  intros Hc. apply convert_one_Ok in Hc
    as (ris & range_image & beam & ex & t & _ & _ & _ & _ & _ & Hp).
  apply project_and_gather_Ok in Hp as (cart & _ & _ & Hpts & Hints).
  by rewrite <-(Forall2_length _ _ _ Hpts), <-(Forall2_length _ _ _ Hints).
Qed.

Lemma append_return_paired range_images tp frame_pose c d ri d' :
  paired d →
  append_return cfg range_images tp frame_pose c d ri = Ok d' →
  paired d'.
Proof.
  intros Hd Ha. unfold append_return in Ha.
  apply bind_Ok in Ha as ([points intensity] & Hc & [= <-]).
  apply convert_one_lengths in Hc. intros suffix.
  destruct (Hd suffix) as (ps & xs & Hps & Hxs & Hlen).
  unfold points_key, intensity_key. rewrite !dd_get_append.
  destruct (decide (key_suffix (LaserCalibration.name c) ri = suffix)) as [->|Hne].
  - exists (ps ++ [points]), (xs ++ [intensity]).
    rewrite decide_False by apply not_eq_sym, points_key_ne_intensity_key.
    rewrite !decide_True by done.
    rewrite decide_False by apply points_key_ne_intensity_key.
    rewrite Hps, Hxs, !fmap_app. split_and!; try done.
    apply Forall2_app; [done|]. by constructor.
  - exists ps, xs.
    rewrite decide_False by apply not_eq_sym, points_key_ne_intensity_key.
    rewrite decide_False by (intros [= ?]; done).
    rewrite decide_False by (intros [= ?]; done).
    done.
Qed.

Lemma foldM_invariant {A B} (P : B → Prop) (f : B → A → Res B) (l : list A) (b b' : B) :
  (∀ b x b', P b → f b x = Ok b' → P b') →
  P b → foldM f b l = Ok b' → P b'.
Proof.
  intros Hf. revert b. induction l as [|x l IH]; intros b Hb Hfold; simpl in Hfold.
  - by injection Hfold as <-.
  - apply bind_Ok in Hfold as (b1 & Hb1 & Hfold). eauto.
Qed.

Lemma convert_range_image_to_point_cloud_paired frame ris cps top ri_indexes d :
  convert_range_image_to_point_cloud cfg frame ris cps top ri_indexes = Ok d →
  paired d.
Proof.
  unfold convert_range_image_to_point_cloud. intros Hc.
  apply bind_Ok in Hc as (frame_pose & _ & Hc).
  apply bind_Ok in Hc as (tp & _ & Hc).
  eapply (foldM_invariant paired); [|apply paired_empty|exact Hc].
  intros d1 c d2 Hd1 Hin. eapply (foldM_invariant paired); [|exact Hd1|exact Hin].
  intros d3 ri d4 Hd3 Ha. by eapply append_return_paired.
Qed.

(** ** Concatenation and stacking *)

Lemma mapM_as_points (ps : list (list Point)) : mapM as_points (Points <$> ps) = Ok ps.
Proof. apply mapM_Ok. induction ps; constructor; done. Qed.
Lemma mapM_as_scalars (xs : list (list float)) : mapM as_scalars (Scalars <$> xs) = Ok xs.
Proof. apply mapM_Ok. induction xs; constructor; done. Qed.

Lemma np_concatenate_points (ps : list (list Point)) :
  ps ≠ [] → np_concatenate (Points <$> ps) = Ok (Points (concat ps)).
Proof.
  intros Hne. destruct ps as [|p ps]; [done|].
  unfold np_concatenate. rewrite fmap_cons. rewrite <-fmap_cons.
  by rewrite mapM_as_points.
Qed.
Lemma np_concatenate_scalars (xs : list (list float)) :
  xs ≠ [] → np_concatenate (Scalars <$> xs) = Ok (Scalars (concat xs)).
Proof.
  intros Hne. destruct xs as [|x xs]; [done|].
  unfold np_concatenate. rewrite fmap_cons. rewrite <-fmap_cons.
  by rewrite mapM_as_scalars.
Qed.

Lemma length_concat_Forall2 {A B} (ps : list (list A)) (xs : list (list B)) :
  Forall2 (λ p x, length p = length x) ps xs → length (concat ps) = length (concat xs).
Proof. induction 1; simpl; [done|]. rewrite !length_app. congruence. Qed.


Lemma np_column_stack_points (points : list Point) (intensity : list float) :
  length points = length intensity →
  np_column_stack (Points points)
    (if NORMALIZE_INTENSITY cfg then ndarray_map np_tanh (Scalars intensity)
     else Scalars intensity)
  = Ok (zip_with (cloud_row cfg) points intensity).
Proof.
  intros Hlen. unfold np_column_stack, cloud_row, normalized.
  destruct (NORMALIZE_INTENSITY cfg); simpl; rewrite !length_fmap;
    (rewrite decide_True by done); f_equal.
  - rewrite zip_with_fmap_l, zip_with_fmap_r, zip_with_fmap_r. done.
  - rewrite zip_with_fmap_l, zip_with_fmap_r. done.
Qed.
End AssemblerFacts.

(** ** The monad of the methods *)

Lemma M_bind_unfold {A B} (f : A → M B) (m : M A) (s : State) :
  (m ≫= f) s = match m s with
               | (s', Ok a) => f a s'
               | (s', Raise e) => (s', Raise e)
               end.
Proof. done. Qed.

Lemma lift_bind {A B} (r : Res A) (f : A → M B) (s : State) :
  (lift r ≫= f) s = match r with Ok a => f a s | Raise e => (s, Raise e) end.
Proof. rewrite M_bind_unfold. unfold lift. by destruct r. Qed.

Lemma for_each_app {A} (f : A → M unit) (l1 l2 : list A) (s : State) :
  for_each f (l1 ++ l2) s
  = match for_each f l1 s with
    | (s', Ok _) => for_each f l2 s'
    | (s', Raise e) => (s', Raise e)
    end.
Proof.
  revert s. induction l1 as [|x l1 IH]; intros s; simpl; [done|].
  rewrite !M_bind_unfold. destruct (f x s) as [s1 [[]|e]]; [apply IH|done].
Qed.

(** a failing element ends the loop: what follows it is not run *)
Lemma for_each_stops {A} (f : A → M unit) (l1 l2 : list A) (x : A) (s s1 s2 : State) (e : exn) :
  for_each f l1 s = (s1, Ok ()) →
  f x s1 = (s2, Raise e) →
  for_each f (l1 ++ x :: l2) s = (s2, Raise e).
Proof.
  intros H1 Hx. rewrite for_each_app, H1. simpl.
  by rewrite M_bind_unfold, Hx.
Qed.

Lemma for_each_raises {A} (f : A → M unit) (l : list A) (x : A) (e : exn) :
  x ∈ l →
  (∀ s, (f x s).2 = Raise e) →
  (∀ y s, (f y s).2 = Ok () ∨ (f y s).2 = Raise e) →
  ∀ s, (for_each f l s).2 = Raise e.
Proof.
  intros Hx Hfx Hf. induction l as [|y l IH]; intros s; [by apply elem_of_nil in Hx|].
  simpl. rewrite M_bind_unfold.
  destruct (f y s) as [s1 [[]|e']] eqn:Hy.
  - apply elem_of_cons in Hx as [->|Hx]; [|by apply IH].
    specialize (Hfx s). by rewrite Hy in Hfx.
  - destruct (Hf y s) as [Hr|Hr]; rewrite Hy in Hr; simpl in *; congruence.
Qed.

(** ** Keys *)

Lemma append_two_inj (s1 s2 : string) (a1 b1 a2 b2 : ascii) :
  s1 +:+ String a1 (String b1 "") = s2 +:+ String a2 (String b2 "") → s1 = s2.
Proof.
  revert s2. induction s1 as [|c s1 IH]; intros [|d s2]; simpl; intros Heq.
  - done.
  - injection Heq as _ Heq. destruct s2 as [|? [|? ?]]; discriminate.
  - injection Heq as _ Heq. destruct s1 as [|? [|? ?]]; discriminate.
  - injection Heq as -> Heq. f_equal. by apply IH.
Qed.

Lemma key_suffix_inj (a b : Z) (r ri : nat) :
  r ∈ [0; 1] → ri ∈ [0; 1] → key_suffix a r = key_suffix b ri → a = b.
Proof.
  unfold key_suffix. intros Hr Hri Heq.
  apply (inj pretty).
  assert (∀ n, n ∈ [0; 1] → ∃ ch, "_" +:+ pretty n = String "_" (String ch ""))
    as Hdigit.
  { intros n Hn. apply elem_of_cons in Hn as [->|Hn]; [by eexists|].
    apply list_elem_of_singleton in Hn as ->. by eexists. }
  destruct (Hdigit r Hr) as (c1 & Hc1), (Hdigit ri Hri) as (c2 & Hc2).
  rewrite Hc1, Hc2 in Heq. by apply append_two_inj in Heq.
Qed.

Lemma insert_by_name_perm c l : insert_by_name c l ≡ₚ c :: l.
Proof.
  induction l as [|d l IH]; simpl; [done|].
  case_decide; [done|]. rewrite IH. apply Permutation_swap.
Qed.

Lemma sorted_by_name_perm l : sorted_by_name l ≡ₚ l.
Proof.
  unfold sorted_by_name. induction l as [|c l IH]; simpl; [done|].
  by rewrite insert_by_name_perm, IH.
Qed.

Lemma foldM_invariant_in {A B} (P : B → Prop) (f : B → A → Res B) (l : list A) (b b' : B) :
  (∀ b x b', x ∈ l → P b → f b x = Ok b' → P b') →
  P b → foldM f b l = Ok b' → P b'.
Proof.
  revert b. induction l as [|x l IH]; intros b Hf Hb Hfold; simpl in Hfold.
  - by injection Hfold as <-.
  - apply bind_Ok in Hfold as (b1 & Hb1 & Hfold).
    apply (IH b1); [|by eapply Hf; [left|..]|done].
    intros ??? Hin. apply Hf. by right.
Qed.

Section AssemblerFacts.
Context `{Library} (cfg : Config).

Lemma append_return_sourced calibrations ri_indexes range_images tp frame_pose c d ri d' :
  c ∈ calibrations → ri ∈ ri_indexes →
  sourced calibrations ri_indexes d →
  append_return cfg range_images tp frame_pose c d ri = Ok d' →
  sourced calibrations ri_indexes d'.
Proof.
  intros Hc Hri Hd Ha. unfold append_return in Ha.
  apply bind_Ok in Ha as ([points intensity] & _ & [= <-]).
  intros k. rewrite !dd_get_append.
  case_decide as Hk1; [intros _; exists c, ri; auto|].
  case_decide as Hk2; [intros _; exists c, ri; auto|].
  apply Hd.
Qed.

Lemma convert_range_image_to_point_cloud_sourced frame ris cps top ri_indexes d :
  convert_range_image_to_point_cloud cfg frame ris cps top ri_indexes = Ok d →
  sourced (Frame.laser_calibrations frame) ri_indexes d.
Proof.
  unfold convert_range_image_to_point_cloud. intros Hc.
  apply bind_Ok in Hc as (frame_pose & _ & Hc).
  apply bind_Ok in Hc as (tp & _ & Hc).
  eapply (foldM_invariant_in (sourced _ _)); [| |exact Hc].
  - intros d1 c d2 Hin Hd1 Hfold.
    rewrite sorted_by_name_perm in Hin.
    eapply (foldM_invariant_in (sourced _ _)); [|exact Hd1|exact Hfold].
    intros d3 ri d4 Hri Hd3 Ha. by eapply append_return_sourced.
  - intros k. by rewrite dd_get_empty.
Qed.

(** a sensor without calibration in the frame has no entry *)
Lemma no_calibration_no_entries frame ris cps top d lidar_id ri :
  convert_range_image_to_point_cloud cfg frame ris cps top [0; 1] = Ok d →
  (∀ c, c ∈ Frame.laser_calibrations frame → LaserCalibration.name c ≠ lidar_id) →
  ri ∈ [0; 1] →
  dd_get d (points_key lidar_id ri) = [] ∧ dd_get d (intensity_key lidar_id ri) = [].
Proof.
  intros Hc Hno Hri. apply convert_range_image_to_point_cloud_sourced in Hc.
  split.
  - destruct (dd_get d (points_key lidar_id ri)) eqn:Hg; [done|].
    destruct (Hc (points_key lidar_id ri)) as (c & r & Hin & Hr & [Hk|Hk]);
      [by rewrite Hg| |by apply points_key_ne_intensity_key in Hk].
    injection Hk as Hk. apply key_suffix_inj in Hk; [|done..].
    by destruct (Hno c Hin).
  - destruct (dd_get d (intensity_key lidar_id ri)) eqn:Hg; [done|].
    destruct (Hc (intensity_key lidar_id ri)) as (c & r & Hin & Hr & [Hk|Hk]);
      [by rewrite Hg|by symmetry in Hk; apply points_key_ne_intensity_key in Hk|].
    injection Hk as Hk. apply key_suffix_inj in Hk; [|done..].
    by destruct (Hno c Hin).
Qed.
End AssemblerFacts.

Section AssemblerFacts.
Context `{Library} (cfg : Config).

Lemma cloud_row_length (points : list Point) (intensity : list float) :
  Forall (λ row, length row = 4) (zip_with (cloud_row cfg) points intensity).
Proof.
  revert intensity. induction points as [|p points IH]; intros [|x intensity]; simpl;
    constructor; auto.
Qed.

Lemma create_cloud_rows timestamp (points : list Point) (intensity : list float) :
  create_cloud "base_link" timestamp point_fields (zip_with (cloud_row cfg) points intensity)
  = Ok {| PointCloud2.frame_id := "base_link"; PointCloud2.stamp := timestamp;
          PointCloud2.fields := point_fields;
          PointCloud2.points := zip_with (cloud_row cfg) points intensity |}.
Proof.
  unfold create_cloud. rewrite decide_True; [done|]. apply cloud_row_length.
Qed.

Lemma assemble_cloud_paired (d : gmap string (list ndarray)) (lidar_id : Z) :
  paired d →
  ∃ (p0 p1 : list (list Point)) (x0 x1 : list (list float)),
    dd_get d (points_key lidar_id 0) = Points <$> p0 ∧
    dd_get d (points_key lidar_id 1) = Points <$> p1 ∧
    dd_get d (intensity_key lidar_id 0) = Scalars <$> x0 ∧
    dd_get d (intensity_key lidar_id 1) = Scalars <$> x1 ∧
    Forall2 (λ p x, length p = length x) (p0 ++ p1) (x0 ++ x1) ∧
    assemble_cloud cfg d lidar_id
    = if decide (p0 ++ p1 = []) then Raise ValueError
      else Ok (zip_with (cloud_row cfg) (concat p0 ++ concat p1) (concat x0 ++ concat x1)).
Proof.
  intros Hd.
  destruct (Hd (key_suffix lidar_id 0)) as (p0 & x0 & Hp0 & Hx0 & Hl0).
  destruct (Hd (key_suffix lidar_id 1)) as (p1 & x1 & Hp1 & Hx1 & Hl1).
  exists p0, p1, x0, x1. split_and!; try done.
  { by apply Forall2_app. }
  unfold assemble_cloud, points_key, intensity_key.
  rewrite Hp0, Hp1, Hx0, Hx1, <-!fmap_app.
  assert (Forall2 (λ p x, length p = length x) (p0 ++ p1) (x0 ++ x1)) as Hl
    by (by apply Forall2_app).
  case_decide as Hnil.
  - rewrite Hnil. done.
  - rewrite np_concatenate_points by done. simpl.
    rewrite np_concatenate_scalars.
    2:{ intros Hx. rewrite Hx in Hl. apply Forall2_nil_inv_r in Hl. done. }
    simpl. rewrite <-!concat_app. apply np_column_stack_points.
    by apply length_concat_Forall2.
Qed.

Lemma write_sensor_cloud_Ok d timestamp sensor cloud s path entries :
  assemble_cloud cfg d sensor.1 = Ok cloud →
  Forall (λ row, length row = 4) cloud →
  bag s = Some (path, entries) →
  write_sensor_cloud cfg d timestamp sensor s
  = (set_bag (Some (path, entries ++ [cloud_entry sensor.2 timestamp cloud])) s, Ok ()).
Proof.
  intros Ha Hrows Hbag. unfold write_sensor_cloud. rewrite lift_bind, Ha.
  unfold write_points_to_bag. rewrite lift_bind. unfold create_cloud.
  rewrite decide_True by done. unfold bag_write. simpl. by rewrite Hbag.
Qed.

(** C6: for a selected sensor the assembler takes the first-return points
    followed by the second-return points, the intensities in the same order,
    and puts the intensity in a fourth column: the cloud written on the
    sensor's topic has one row [x; y; z; intensity] per point, and the
    points and the intensities are equally many. *)
Theorem returns_concatenated_into_cloud frame ris cps top ret_dict sensor :
  convert_range_image_to_point_cloud cfg frame ris cps top [0; 1] = Ok ret_dict →
  ∃ (p0 p1 : list (list Point)) (x0 x1 : list (list float)),
    dd_get ret_dict (points_key sensor.1 0) = Points <$> p0 ∧
    dd_get ret_dict (points_key sensor.1 1) = Points <$> p1 ∧
    dd_get ret_dict (intensity_key sensor.1 0) = Scalars <$> x0 ∧
    dd_get ret_dict (intensity_key sensor.1 1) = Scalars <$> x1 ∧
    let points := concat p0 ++ concat p1 in
    let intensity := concat x0 ++ concat x1 in
    let cloud := zip_with (cloud_row cfg) points intensity in
    length points = length intensity ∧
    (p0 ++ p1 ≠ [] →
     assemble_cloud cfg ret_dict sensor.1 = Ok cloud ∧
     length cloud = length points ∧
     Forall (λ row, length row = 4) cloud ∧
     (∀ i p x, points !! i = Some p → intensity !! i = Some x →
        cloud !! i = Some [p.1.1; p.1.2; p.2; normalized cfg x]) ∧
     ∀ timestamp s path entries,
       bag s = Some (path, entries) →
       write_sensor_cloud cfg ret_dict timestamp sensor s
       = (set_bag (Some (path, entries ++ [cloud_entry sensor.2 timestamp cloud])) s,
          Ok ())).
Proof.
  intros Hc. apply convert_range_image_to_point_cloud_paired in Hc.
  destruct (assemble_cloud_paired ret_dict sensor.1 Hc)
    as (p0 & p1 & x0 & x1 & Hp0 & Hp1 & Hx0 & Hx1 & Hl & Ha).
  exists p0, p1, x0, x1. split_and!; try done.
  cbv zeta.
  assert (length (concat p0 ++ concat p1) = length (concat x0 ++ concat x1)) as Hlen.
  { rewrite <-!concat_app. by apply length_concat_Forall2. }
  split; [done|]. intros Hne. rewrite decide_False in Ha by done.
  split_and!; try done.
  - rewrite length_zip_with. lia.
  - apply cloud_row_length.
  - intros i p x Hp Hx. rewrite lookup_zip_with, Hp. simpl. by rewrite Hx.
  - intros timestamp s path entries Hbag.
    apply write_sensor_cloud_Ok; [done|apply cloud_row_length|done].
Qed.

Lemma write_sensor_cloud_outcome d timestamp sensor s :
  paired d →
  (write_sensor_cloud cfg d timestamp sensor s).2 = Ok ()
  ∨ (write_sensor_cloud cfg d timestamp sensor s).2 = Raise ValueError.
Proof.
  intros Hd. destruct (assemble_cloud_paired d sensor.1 Hd)
    as (p0 & p1 & x0 & x1 & _ & _ & _ & _ & _ & Ha).
  case_decide.
  - right. unfold write_sensor_cloud. by rewrite lift_bind, Ha.
  - destruct (bag s) as [[path entries]|] eqn:Hbag.
    + left. erewrite write_sensor_cloud_Ok; [done|exact Ha|apply cloud_row_length|done].
    + right. unfold write_sensor_cloud. rewrite lift_bind, Ha.
      unfold write_points_to_bag. rewrite lift_bind, create_cloud_rows.
      unfold bag_write. by rewrite Hbag.
Qed.

(** C8: when a selected sensor has no calibration in the frame, so that the
    dictionary of results holds no entry for it under either return index,
    the concatenation raises [ValueError]; the writer of point clouds, the
    conversion of the frame and the loop over the frames of the unit all end
    with that exception, and no cloud is written for the sensor. *)
Theorem missing_sensor_aborts_frame frame timestamp sensor :
  sensor ∈ SELECTED_LIDAR_SENSOR cfg →
  (∀ c, c ∈ Frame.laser_calibrations frame → LaserCalibration.name c ≠ sensor.1) →
  (∀ parsed ret_dict,
     parse_range_image_and_camera_projection frame = Ok parsed →
     convert_range_image_to_point_cloud cfg frame parsed.1.1.1 parsed.1.1.2 parsed.2 [0; 1]
     = Ok ret_dict →
     dd_get ret_dict (points_key sensor.1 0) ++ dd_get ret_dict (points_key sensor.1 1) = [] ∧
     assemble_cloud cfg ret_dict sensor.1 = Raise ValueError ∧
     (∀ s, write_sensor_cloud cfg ret_dict timestamp sensor s = (s, Raise ValueError)) ∧
     ∀ s, (write_point_cloud cfg frame timestamp s).2 = Raise ValueError) ∧
  (∀ s, ∃ e, (write_point_cloud cfg frame timestamp s).2 = Raise e) ∧
  (∀ data rest s,
     ParseFromString data = Ok frame →
     stamp_of_micros (Frame.timestamp_micros frame) = timestamp →
     (∃ e, (convert_frame cfg data s).2 = Raise e) ∧
     for_each (convert_frame cfg) (data :: rest) s = convert_frame cfg data s).
Proof.
  intros Hsel Hno.
  assert (∀ parsed ret_dict,
     parse_range_image_and_camera_projection frame = Ok parsed →
     convert_range_image_to_point_cloud cfg frame parsed.1.1.1 parsed.1.1.2 parsed.2 [0; 1]
     = Ok ret_dict →
     dd_get ret_dict (points_key sensor.1 0) ++ dd_get ret_dict (points_key sensor.1 1) = [] ∧
     assemble_cloud cfg ret_dict sensor.1 = Raise ValueError ∧
     (∀ s, write_sensor_cloud cfg ret_dict timestamp sensor s = (s, Raise ValueError)) ∧
     ∀ s, (write_point_cloud cfg frame timestamp s).2 = Raise ValueError) as Hmain.
  { intros parsed ret_dict Hparse Hconv.
    destruct (no_calibration_no_entries cfg _ _ _ _ _ _ 0 Hconv Hno) as [Hp0 _];
      [set_solver|].
    destruct (no_calibration_no_entries cfg _ _ _ _ _ _ 1 Hconv Hno) as [Hp1 _];
      [set_solver|].
    assert (assemble_cloud cfg ret_dict sensor.1 = Raise ValueError) as Ha.
    { unfold assemble_cloud. by rewrite Hp0, Hp1. }
    assert (∀ s, write_sensor_cloud cfg ret_dict timestamp sensor s = (s, Raise ValueError))
      as Hw.
    { intros s. unfold write_sensor_cloud. by rewrite lift_bind, Ha. }
    split_and!; try done.
    - by rewrite Hp0, Hp1.
    - intros s. unfold write_point_cloud. rewrite lift_bind, Hparse, lift_bind, Hconv.
      apply (for_each_raises _ _ sensor); [done| |].
      + intros s'. by rewrite Hw.
      + intros y s'. apply write_sensor_cloud_outcome.
        by eapply convert_range_image_to_point_cloud_paired. }
  assert (∀ s, ∃ e, (write_point_cloud cfg frame timestamp s).2 = Raise e) as Hany.
  { intros s.
    destruct (parse_range_image_and_camera_projection frame) as [parsed|e] eqn:Hparse.
    2:{ exists e. unfold write_point_cloud. by rewrite lift_bind, Hparse. }
    destruct (convert_range_image_to_point_cloud cfg frame parsed.1.1.1 parsed.1.1.2
                parsed.2 [0; 1]) as [ret_dict|e] eqn:Hconv.
    2:{ exists e. unfold write_point_cloud. by rewrite lift_bind, Hparse, lift_bind, Hconv. }
    exists ValueError. by eapply Hmain. }
  split_and!; try done.
  intros data rest s Hdata Hts.
  assert (∃ e, (convert_frame cfg data s).2 = Raise e) as [e He].
  { unfold convert_frame. rewrite lift_bind, Hdata, lift_bind. unfold Time_from_sec.
    case_decide; [by eexists|]. rewrite Hts.
    rewrite M_bind_unfold. destruct (write_odom frame timestamp s) as [s1 [[]|e1]]; [|by eexists].
    rewrite M_bind_unfold. destruct (write_tf_static frame timestamp s1) as [s2 [[]|e2]];
      [|by eexists].
    rewrite M_bind_unfold. destruct (Hany s2) as [e3 He3].
    destruct (write_point_cloud cfg frame timestamp s2) as [s3 [[]|e3']]; [done|by eexists]. }
  split; [by exists e|].
  simpl. rewrite M_bind_unfold.
  destruct (convert_frame cfg data s) as [s' [[]|e']]; [done|done].
Qed.
End AssemblerFacts.

(** ** Methods that only write to the bag *)

Lemma add_entries_nil (s : State) : add_entries [] s = s.
Proof.
  unfold add_entries, set_bag. destruct s as [? ? [[path entries]|] ? ?]; simpl; [|done].
  by rewrite app_nil_r.
Qed.

Lemma add_entries_app (n1 n2 : list Entry) (s : State) :
  add_entries n2 (add_entries n1 s) = add_entries (n1 ++ n2) s.
Proof.
  unfold add_entries, set_bag. destruct s as [? ? [[path entries]|] ? ?]; simpl; [|done].
  by rewrite app_assoc.
Qed.





Lemma writes_lift {A} (P : Entry → Prop) (r : Res A) : writes P (lift r).
Proof. intros s. exists []. by rewrite add_entries_nil. Qed.

Lemma writes_ret {A} (P : Entry → Prop) (a : A) : writes P (mret a).
Proof. intros s. exists []. by rewrite add_entries_nil. Qed.

Lemma writes_bind {A B} (P : Entry → Prop) (m : M A) (f : A → M B) :
  writes P m → (∀ a, writes P (f a)) → writes P (m ≫= f).
Proof.
  intros Hm Hf s. rewrite M_bind_unfold.
  destruct (Hm s) as (n1 & Hs1 & Hn1). destruct (m s) as [s1 [a|e]]; simpl in *.
  - destruct (Hf a s1) as (n2 & Hs2 & Hn2). exists (n1 ++ n2).
    rewrite Hs2, Hs1, add_entries_app. split; [done|]. by apply Forall_app.
  - by exists n1.
Qed.

Lemma writes_bag_write (P : Entry → Prop) topic msg t :
  P {| e_topic := topic; e_msg := msg; e_t := t |} → writes P (bag_write topic msg t).
Proof.
  intros HP s. unfold bag_write, add_entries.
  destruct (bag s) as [[path entries]|] eqn:Hb; simpl.
  - eexists [_]. split; [done|]. by constructor.
  - by exists [].
Qed.

Lemma writes_for_each {A} (P : Entry → Prop) (f : A → M unit) (l : list A) :
  (∀ x, writes P (f x)) → writes P (for_each f l).
Proof.
  intros Hf. induction l as [|x l IH]; simpl.
  - apply writes_ret.
  - apply writes_bind; [apply Hf|]. intros _. apply IH.
Qed.

Lemma writes_impl {A} (P Q : Entry → Prop) (m : M A) :
  (∀ e, P e → Q e) → writes P m → writes Q m.
Proof.
  intros HPQ Hm s. destruct (Hm s) as (new & Hs & Hnew). exists new.
  split; [done|]. by eapply Forall_impl.
Qed.





Section SequencerFacts.
Context `{Library} (cfg : Config).

Lemma writes_write_odom frame timestamp :
  writes not_tf_static (write_odom frame timestamp).
Proof.
  unfold write_odom. apply writes_bind; [apply writes_lift|]. intros m.
  apply writes_bind; [apply writes_lift|]. intros tf_msg.
  by apply writes_bag_write.
Qed.

Lemma writes_write_sensor_cloud d timestamp sensor :
  writes not_tf_static (write_sensor_cloud cfg d timestamp sensor).
Proof.
  unfold write_sensor_cloud, write_points_to_bag.
  apply writes_bind; [apply writes_lift|]. intros points.
  apply writes_bind; [apply writes_lift|]. intros pcl_msg.
  by apply writes_bag_write.
Qed.

Lemma writes_write_point_cloud frame timestamp :
  writes not_tf_static (write_point_cloud cfg frame timestamp).
Proof.
  unfold write_point_cloud. apply writes_bind; [apply writes_lift|]. intros parsed.
  apply writes_bind; [apply writes_lift|]. intros d.
  apply writes_for_each. intros sensor. apply writes_write_sensor_cloud.
Qed.

Lemma writes_write_one_image timestamp image :
  writes front_image (write_one_image timestamp image).
Proof.
  unfold write_one_image. apply writes_bind; [apply writes_lift|]. intros frame_name.
  case_decide as Hname; [apply writes_ret|]. subst frame_name.
  apply writes_bind; [apply writes_lift|]. intros bgr.
  apply writes_bind; [apply writes_lift|]. intros rgb.
  apply writes_bag_write. split; [done|]. by eexists.
Qed.

Lemma writes_write_one_camera_info timestamp cc :
  writes front_camera_info (write_one_camera_info timestamp cc).
Proof.
  unfold write_one_camera_info. apply writes_bind; [apply writes_lift|]. intros frame_name.
  case_decide as Hname; [apply writes_ret|]. subst frame_name.
  do 4 (apply writes_bind; [apply writes_lift|]; intros ?).
  apply writes_bag_write. split; [done|]. by eexists.
Qed.

Lemma writes_write_image frame timestamp :
  writes not_tf_static (write_image frame timestamp).
Proof.
  apply writes_for_each. intros image.
  eapply writes_impl; [|apply writes_write_one_image].
  intros e [He _]. unfold not_tf_static. by rewrite He.
Qed.

Lemma writes_write_camera_info frame timestamp :
  writes not_tf_static (write_camera_info frame timestamp).
Proof.
  apply writes_for_each. intros cc.
  eapply writes_impl; [|apply writes_write_one_camera_info].
  intros e [He _]. unfold not_tf_static. by rewrite He.
Qed.

(** ** The static transform *)

Lemma write_tf_static_first frame timestamp m s path entries :
  static_transforms frame = Ok m →
  static_tf_message s = None →
  bag s = Some (path, entries) →
  write_tf_static frame timestamp s
  = ({| tfrecord_pathnames := tfrecord_pathnames s;
        static_tf_message := Some m;
        bag := Some (path, entries ++ [tf_static_entry m timestamp]);
        closed_bags := closed_bags s; stdout := stdout s |}, Ok ()).
Proof.
  intros Hm Hs Hb. unfold write_tf_static. rewrite lift_bind, Hm.
  rewrite M_bind_unfold. unfold get_static_tf_message. rewrite Hs.
  rewrite M_bind_unfold. unfold bag_write. rewrite Hb. done.
Qed.



Lemma write_tf_static_later frame timestamp first s :
  static_tf_message s = Some first →
  (write_tf_static frame timestamp s).1 = s.
Proof.
  intros Hs. unfold write_tf_static. rewrite lift_bind.
  destruct (static_transforms frame) as [m|e]; [|done].
  rewrite M_bind_unfold. unfold get_static_tf_message. rewrite Hs.
  by destruct (TFMessage_eqb first m).
Qed.

End SequencerFacts.

Section SequencerFacts.
Context `{Library} (cfg : Config).


Lemma writes_rest_of_frame frame timestamp :
  writes not_tf_static (rest_of_frame cfg frame timestamp).
Proof.
  unfold rest_of_frame.
  apply writes_bind; [apply writes_write_point_cloud|]. intros _.
  apply writes_bind; [apply writes_write_image|]. intros _.
  apply writes_write_camera_info.
Qed.

Lemma convert_frame_unfold data s :
  convert_frame cfg data s
  = match ParseFromString data with
    | Raise e => (s, Raise e)
    | Ok frame =>
        if decide (Frame.timestamp_micros frame < 0)%Z then (s, Raise TypeError)
        else
          let timestamp := stamp_of_micros (Frame.timestamp_micros frame) in
          match write_odom frame timestamp s with
          | (s1, Raise e) => (s1, Raise e)
          | (s1, Ok _) =>
              match write_tf_static frame timestamp s1 with
              | (s2, Raise e) => (s2, Raise e)
              | (s2, Ok _) => rest_of_frame cfg frame timestamp s2
              end
          end
    end.
Proof.
  unfold convert_frame. rewrite lift_bind. destruct (ParseFromString data); [|done].
  rewrite lift_bind. unfold Time_from_sec. case_decide; [done|].
  cbv zeta. rewrite M_bind_unfold. destruct (write_odom _ _ s) as [s1 [[]|e]]; [|done].
  rewrite M_bind_unfold. by destruct (write_tf_static _ _ s1) as [s2 [[]|e]].
Qed.





(** ** One unit *)

Lemma convert_tfrecord2bag_unfold file_idx s :
  convert_tfrecord2bag cfg file_idx s
  = match tfrecord_pathnames s !! file_idx with
    | None => (s, Raise IndexError)
    | Some pathname =>
        match TFRecordDataset pathname with
        | Raise e => (s, Raise e)
        | Ok dataset =>
            try_finally (for_each (convert_frame cfg) dataset) print_and_close
              (unit_start pathname s)
        end
    end.
Proof.
  unfold convert_tfrecord2bag. rewrite M_bind_unfold. unfold get_tfrecord_pathnames.
  rewrite lift_bind. destruct (tfrecord_pathnames s !! file_idx) as [pathname|]; [|done].
  simpl. rewrite lift_bind. by destruct (TFRecordDataset pathname).
Qed.

Lemma try_finally_close (body : M unit) s path :
  bag s = Some (path, []) →
  (∀ s', is_Some (bag (body s').1) ↔ is_Some (bag s')) →
  ∃ path' entries,
    bag (body s).1 = Some (path', entries) ∧
    try_finally body print_and_close s
    = ({| tfrecord_pathnames := tfrecord_pathnames (body s).1;
          static_tf_message := static_tf_message (body s).1;
          bag := None;
          closed_bags := closed_bags (body s).1 ++ [(path', entries)];
          stdout := stdout (body s).1 ++ [Bag_str path' entries] |}, (body s).2).
Proof.
  intros Hb Hbody. destruct (proj2 (Hbody s)) as [[path' entries] Hb']; [by rewrite Hb|].
  exists path', entries. split; [done|].
  unfold try_finally, print_and_close. destruct (body s) as [s1 r]; simpl in *.
  by rewrite Hb'.
Qed.
End SequencerFacts.

Lemma keeps_refl s : keeps s s.
Proof. done. Qed.

Lemma keeps_trans s1 s2 s3 : keeps s1 s2 → keeps s2 s3 → keeps s1 s3.
Proof.
  intros (? & ? & ? & ?) (? & ? & ? & ?). unfold keeps. split_and!; congruence.
Qed.

Lemma keeps_add_entries new s : keeps s (add_entries new s).
Proof.
  unfold keeps, add_entries. destruct (bag s) as [[path entries]|] eqn:Hb; simpl;
    rewrite ?Hb; by split_and!.
Qed.

Lemma writes_keeps {A} (P : Entry → Prop) (m : M A) s : writes P m → keeps s (m s).1.
Proof. intros Hm. destruct (Hm s) as (new & -> & _). apply keeps_add_entries. Qed.

Section SequencerFacts.
Context `{Library} (cfg : Config).

Lemma write_tf_static_keeps frame timestamp s :
  keeps s (write_tf_static frame timestamp s).1.
Proof.
  unfold write_tf_static. rewrite lift_bind.
  destruct (static_transforms frame) as [m|e]; [|apply keeps_refl].
  rewrite M_bind_unfold. unfold get_static_tf_message.
  destruct (static_tf_message s) as [first|].
  - destruct (TFMessage_eqb first m); apply keeps_refl.
  - rewrite M_bind_unfold. unfold bag_write.
    destruct (bag s) as [[path entries]|] eqn:Hb; [|apply keeps_refl].
    unfold keeps. simpl. rewrite Hb. by split_and!.
Qed.

Lemma convert_frame_keeps data s : keeps s (convert_frame cfg data s).1.
Proof.
  rewrite convert_frame_unfold.
  destruct (ParseFromString data) as [frame|e]; [|apply keeps_refl].
  case_decide; [apply keeps_refl|]. cbv zeta.
  set (timestamp := stamp_of_micros (Frame.timestamp_micros frame)).
  pose proof (writes_keeps _ _ s (writes_write_odom frame timestamp)) as H1.
  destruct (write_odom frame timestamp s) as [s1 [[]|e]]; [|done].
  pose proof (write_tf_static_keeps frame timestamp s1) as H2.
  destruct (write_tf_static frame timestamp s1) as [s2 [[]|e]];
    [|by eapply keeps_trans].
  pose proof (writes_keeps _ _ s2 (writes_rest_of_frame cfg frame timestamp)) as H3.
  eapply keeps_trans; [|exact H3]. by eapply keeps_trans.
Qed.

Lemma frames_keep dataset s : keeps s (for_each (convert_frame cfg) dataset s).1.
Proof.
  revert s. induction dataset as [|data dataset IH]; intros s; simpl; [apply keeps_refl|].
  rewrite M_bind_unfold. pose proof (convert_frame_keeps data s) as H1.
  destruct (convert_frame cfg data s) as [s1 [[]|e]]; [|done].
  eapply keeps_trans; [exact H1|apply IH].
Qed.

(** the outcome of a unit that could be read: its bag is closed with what
    the frames wrote, whether they failed or not *)
Lemma convert_tfrecord2bag_read file_idx s pathname dataset :
  tfrecord_pathnames s !! file_idx = Some pathname →
  TFRecordDataset pathname = Ok dataset →
  ∃ s1,
    for_each (convert_frame cfg) dataset (unit_start pathname s)
    = (s1, (convert_tfrecord2bag cfg file_idx s).2) ∧
    static_tf_message (convert_tfrecord2bag cfg file_idx s).1 = static_tf_message s1 ∧
    bag (convert_tfrecord2bag cfg file_idx s).1 = None ∧
    closed_bags (convert_tfrecord2bag cfg file_idx s).1
    = closed_bags s ++ [(bag_path pathname, entries_of s1)].
Proof.
  intros Hp Hd. rewrite convert_tfrecord2bag_unfold, Hp, Hd.
  pose proof (frames_keep dataset (unit_start pathname s)) as (Hc & _ & _ & Hb).
  destruct (for_each (convert_frame cfg) dataset (unit_start pathname s))
    as [s1 r] eqn:Hrun.
  exists s1. simpl in Hc, Hb.
  destruct (bag s1) as [[path entries]|] eqn:Hb1; [|done].
  injection Hb as ->.
  unfold try_finally, print_and_close. rewrite Hrun, Hb1. simpl.
  unfold entries_of. rewrite Hb1, Hc. done.
Qed.
End SequencerFacts.

Section SequencerFacts.
Context `{Library} (cfg : Config).

Lemma convert_unit_fresh i s s' :
  convert_unit cfg i s = (s', Ok ()) → static_tf_message s' = None.
Proof.
  unfold convert_unit. rewrite M_bind_unfold.
  destruct (convert_tfrecord2bag cfg i s) as [s1 [[]|e]]; [|done].
  unfold set_static_tf_message. by intros [= <-].
Qed.

Lemma units_fresh units s s' :
  static_tf_message s = None →
  for_each (convert_unit cfg) units s = (s', Ok ()) →
  static_tf_message s' = None.
Proof.
  revert s. induction units as [|i units IH]; intros s Hs; simpl.
  - by intros [= <-].
  - rewrite M_bind_unfold. destruct (convert_unit cfg i s) as [s1 [[]|e]] eqn:Hi; [|done].
    apply IH. by eapply convert_unit_fresh.
Qed.


Lemma convert_unfold s :
  convert cfg s
  = match for_each (convert_unit cfg) (seq 0 (length (tfrecord_pathnames s)))
            (print "start converting ..." s).1 with
    | (s1, Ok _) => print "finished ..." s1
    | (s1, Raise e) => (s1, Raise e)
    end.
Proof.
  unfold convert. rewrite M_bind_unfold. simpl. rewrite M_bind_unfold.
  unfold get_tfrecord_pathnames. simpl. rewrite M_bind_unfold.
  by destruct (for_each _ _ _) as [s1 [[]|e]].
Qed.

(** C9, as the code has it: when the conversion of a unit raises, [convert]
    ends with that exception in the state that unit left, the later units
    being never started; inside the unit the frame that raises ends the loop
    over the frames and the bag is closed with the messages written so
    far. *)
Theorem failing_unit_ends_the_run :
  (∀ s before i after s1 s2 e,
     seq 0 (length (tfrecord_pathnames s)) = before ++ i :: after →
     for_each (convert_unit cfg) before (print "start converting ..." s).1 = (s1, Ok ()) →
     convert_tfrecord2bag cfg i s1 = (s2, Raise e) →
     convert cfg s = (s2, Raise e)) ∧
  (∀ s file_idx pathname before data after s1 s2 e,
     tfrecord_pathnames s !! file_idx = Some pathname →
     TFRecordDataset pathname = Ok (before ++ data :: after) →
     for_each (convert_frame cfg) before (unit_start pathname s) = (s1, Ok ()) →
     convert_frame cfg data s1 = (s2, Raise e) →
     (convert_tfrecord2bag cfg file_idx s).2 = Raise e ∧
     bag (convert_tfrecord2bag cfg file_idx s).1 = None ∧
     closed_bags (convert_tfrecord2bag cfg file_idx s).1
     = closed_bags s ++ [(bag_path pathname, entries_of s2)]).
Proof.
  split.
  - intros s before i after s1 s2 e Hseq Hbefore Hi.
    rewrite convert_unfold, Hseq.
    rewrite (for_each_stops _ before after i _ s1 s2 e); [done|done|].
    unfold convert_unit. by rewrite M_bind_unfold, Hi.
  - intros s file_idx pathname before data after s1 s2 e Hp Hd Hbefore Hdata.
    destruct (convert_tfrecord2bag_read cfg file_idx s pathname _ Hp Hd)
      as (s' & Hrun & _ & Hb & Hc).
    rewrite (for_each_stops _ before after data _ s1 s2 e) in Hrun by done.
    injection Hrun as <- <-. done.
Qed.
End SequencerFacts.

Lemma grows_nothing (P : Entry → Prop) (m : M unit) :
  (∀ s, (m s).1 = s) → grows P 0 m.
Proof.
  intros Hm s path entries Hb. exists []. rewrite Hm, app_nil_r. by split_and!.
Qed.

Lemma grows_for_each {A} (P : Entry → Prop) (w : A → nat) (f : A → M unit) (l : list A) :
  (∀ x, grows P (w x) (f x)) → grows P (sum_list (w <$> l)) (for_each f l).
Proof.
  intros Hf. induction l as [|x l IH]; intros s path entries Hb; simpl.
  - exists []. rewrite app_nil_r. by split_and!.
  - rewrite M_bind_unfold.
    destruct (Hf x s path entries Hb) as (n1 & Hb1 & Hn1 & Hle1 & Heq1).
    destruct (f x s) as [s1 [[]|e]]; simpl in *.
    + destruct (IH s1 path (entries ++ n1) Hb1) as (n2 & Hb2 & Hn2 & Hle2 & Heq2).
      exists (n1 ++ n2). rewrite Hb2, app_assoc, length_app. split_and!; try done.
      * by apply Forall_app.
      * specialize (Heq1 eq_refl). change (list_fmap A nat w l) with (w <$> l). lia.
      * intros Hok. rewrite Heq1, Heq2 by done. done.
    + exists n1. split_and!; try done. lia.
Qed.

Lemma filter_none {A} (P : A → Prop) `{∀ x, Decision (P x)} (l : list A) :
  (∀ x, x ∈ l → ¬ P x) → filter P l = [].
Proof.
  induction l as [|x l IH]; intros Hl; [done|].
  rewrite filter_cons_False by (apply Hl; left). apply IH. intros y Hy. apply Hl. by right.
Qed.

Section CameraFacts.
Context `{Library}.

Lemma is_front_true name : is_front name = true ↔ camera_frame_name name = Ok "front".
Proof.
  unfold is_front, camera_frame_name.
  destruct (CameraName_Name name) as [str|e]; simpl; [|done].
  rewrite bool_decide_eq_true. split; congruence.
Qed.

Lemma camera_frame_name_cases name :
  (is_front name = true ∧ camera_frame_name name = Ok "front")
  ∨ (is_front name = false ∧
     ((∃ e, camera_frame_name name = Raise e)
      ∨ ∃ str, camera_frame_name name = Ok str ∧ str ≠ "front")).
Proof.
  destruct (is_front name) eqn:Hf.
  - left. by apply is_front_true in Hf.
  - right. split; [done|].
    destruct (camera_frame_name name) as [str|e] eqn:Hn; [|by left; eexists].
    right. exists str. split; [done|]. intros ->.
    apply is_front_true in Hn. congruence.
Qed.


Lemma sum_weight (names : list Z) : sum_list (weight <$> names) = front_count names.
Proof.
  unfold front_count. induction names as [|n names IH]; [done|].
  rewrite fmap_cons. cbn [sum_list sum_list_with]. unfold weight at 1.
  destruct (is_front n) eqn:Hn.
  - rewrite filter_cons_True by done. simpl. f_equal. apply IH.
  - rewrite filter_cons_False by (by rewrite Hn). apply IH.
Qed.

Lemma grows_write_one_image timestamp image :
  grows front_image (weight (CameraImage.name image)) (write_one_image timestamp image).
Proof.
  unfold weight, write_one_image.
  destruct (camera_frame_name_cases (CameraImage.name image))
    as [[-> Hn]|[-> [[e Hn]|(str & Hn & Hne)]]]; rewrite Hn.
  - intros s path entries Hb. rewrite lift_bind.
    rewrite decide_False by (by intros ?).
    rewrite lift_bind. destruct (cv2_imdecode _) as [bgr|e].
    2:{ exists []. rewrite app_nil_r. simpl. split_and!; try done. lia. }
    rewrite lift_bind. destruct (cv2_cvtColor_BGR2RGB bgr) as [rgb|e].
    2:{ exists []. rewrite app_nil_r. simpl. split_and!; try done. lia. }
    unfold bag_write. rewrite Hb. simpl. eexists [_]. split_and!; try done.
    constructor; [|done]. split; [done|]. by eexists.
  - apply grows_nothing. intros s. by rewrite lift_bind.
  - apply grows_nothing. intros s. rewrite lift_bind. by rewrite decide_True.
Qed.

Lemma grows_write_one_camera_info timestamp cc :
  grows front_camera_info (weight (CameraCalibration.name cc))
    (write_one_camera_info timestamp cc).
Proof.
  unfold weight, write_one_camera_info.
  destruct (camera_frame_name_cases (CameraCalibration.name cc))
    as [[-> Hn]|[-> [[e Hn]|(str & Hn & Hne)]]]; rewrite Hn.
  - intros s path entries Hb. rewrite lift_bind.
    rewrite decide_False by (by intros ?). cbv zeta.
    do 4 (rewrite lift_bind;
          destruct (of_option IndexError _) as [?|?];
          [|exists []; rewrite app_nil_r; simpl; split_and!; try done; lia]).
    unfold bag_write. rewrite Hb. simpl. eexists [_]. split_and!; try done.
    constructor; [|done]. split; [done|]. by eexists.
  - apply grows_nothing. intros s. by rewrite lift_bind.
  - apply grows_nothing. intros s. rewrite lift_bind. by rewrite decide_True.
Qed.

Lemma static_transform_front tf_message cc tf_message' :
  static_transform tf_message cc = Ok tf_message' →
  ∃ new, tf_message' = tf_message ++ new ∧ Forall front_transform new
         ∧ length new = weight (CameraCalibration.name cc).
Proof.
  unfold static_transform, weight.
  destruct (camera_frame_name_cases (CameraCalibration.name cc))
    as [[-> Hn]|[-> [[e Hn]|(str & Hn & Hne)]]]; rewrite Hn; simpl.
  - intros Ht.
    apply bind_Ok in Ht as (v2c & _ & Ht). apply bind_Ok in Ht as (mat & _ & Ht).
    apply bind_Ok in Ht as (tf_msg & Htf & [= <-]).
    exists [tf_msg]. split_and!; try done. constructor; [|done].
    unfold to_transform in Htf. apply bind_Ok in Htf as (t & _ & Htf).
    apply bind_Ok in Htf as (q & _ & [= <-]). done.
  - discriminate.
  - rewrite decide_True by done. intros [= <-]. exists []. by rewrite app_nil_r.
Qed.

Lemma static_transforms_front calibrations acc m :
  foldM static_transform acc calibrations = Ok m →
  ∃ new, m = acc ++ new ∧ Forall front_transform new
         ∧ length new = front_count (CameraCalibration.name <$> calibrations).
Proof.
  revert acc. induction calibrations as [|cc calibrations IH]; intros acc; simpl.
  - intros [= <-]. exists []. by rewrite app_nil_r.
  - intros Hf. apply bind_Ok in Hf as (acc1 & H1 & Hf).
    apply static_transform_front in H1 as (n1 & -> & Hn1 & Hl1).
    apply IH in Hf as (n2 & -> & Hn2 & Hl2).
    exists (n1 ++ n2). rewrite app_assoc, length_app, Hl1, Hl2. split_and!; try done.
    + by apply Forall_app.
    + rewrite <-!sum_weight. done.
Qed.

Lemma front_count_NoDup (names : list Z) :
  NoDup names →
  (∀ a b, is_front a = true → is_front b = true → a = b) →
  front_count names ≤ 1.
Proof.
  intros Hnd Hone. unfold front_count.
  induction Hnd as [|a names Ha Hnd IH]; simpl; [lia|].
  destruct (is_front a) eqn:Hfa.
  - rewrite filter_cons_True by done. simpl.
    assert (filter (λ n, is_front n = true) names = []) as ->; [|simpl; lia].
    apply filter_none. intros b Hb Hfb.
    apply Ha. by rewrite (Hone a b).
  - rewrite filter_cons_False by (by rewrite Hfa). done.
Qed.

(** C10, as the code has it: the writers of images and of camera infos
    append to the bag only messages of the front camera, one for every entry
    of the frame named front and none for an entry of another camera; the
    static transforms hold one transform for every calibration named front
    and none for another camera.  A frame listing the front camera twice
    thus gets two of each; when the camera names of the frame are distinct,
    and one name only reads front, each writer writes at most one. *)
Theorem only_front_camera_written frame timestamp s path entries :
  bag s = Some (path, entries) →
  (∃ new,
     bag (write_image frame timestamp s).1 = Some (path, entries ++ new) ∧
     Forall front_image new ∧
     length new ≤ front_count (CameraImage.name <$> Frame.images frame) ∧
     ((write_image frame timestamp s).2 = Ok () →
      length new = front_count (CameraImage.name <$> Frame.images frame))) ∧
  (∃ new,
     bag (write_camera_info frame timestamp s).1 = Some (path, entries ++ new) ∧
     Forall front_camera_info new ∧
     length new ≤ front_count (CameraCalibration.name <$> Frame.camera_calibrations frame) ∧
     ((write_camera_info frame timestamp s).2 = Ok () →
      length new
      = front_count (CameraCalibration.name <$> Frame.camera_calibrations frame))) ∧
  (∀ m, static_transforms frame = Ok m →
     Forall front_transform m ∧
     length m = front_count (CameraCalibration.name <$> Frame.camera_calibrations frame)) ∧
  (∀ names : list Z,
     NoDup names →
     (∀ a b, is_front a = true → is_front b = true → a = b) →
     front_count names ≤ 1) ∧
  (unique_front →
   (NoDup (CameraImage.name <$> Frame.images frame) →
    ∀ new, bag (write_image frame timestamp s).1 = Some (path, entries ++ new) →
           length new ≤ 1) ∧
   (NoDup (CameraCalibration.name <$> Frame.camera_calibrations frame) →
    (∀ new, bag (write_camera_info frame timestamp s).1 = Some (path, entries ++ new) →
            length new ≤ 1) ∧
    (∀ m, static_transforms frame = Ok m → length m ≤ 1))).
Proof.
  intros Hb.
  assert (∃ new,
     bag (write_image frame timestamp s).1 = Some (path, entries ++ new) ∧
     Forall front_image new ∧
     length new ≤ front_count (CameraImage.name <$> Frame.images frame) ∧
     ((write_image frame timestamp s).2 = Ok () →
      length new = front_count (CameraImage.name <$> Frame.images frame))) as Himage.
  { rewrite <-sum_weight, <-list_fmap_compose.
    apply (grows_for_each front_image (weight ∘ CameraImage.name)); [|done].
    intros image. apply grows_write_one_image. }
  assert (∃ new,
     bag (write_camera_info frame timestamp s).1 = Some (path, entries ++ new) ∧
     Forall front_camera_info new ∧
     length new ≤ front_count (CameraCalibration.name <$> Frame.camera_calibrations frame) ∧
     ((write_camera_info frame timestamp s).2 = Ok () →
      length new
      = front_count (CameraCalibration.name <$> Frame.camera_calibrations frame))) as Hinfo.
  { rewrite <-sum_weight, <-list_fmap_compose.
    apply (grows_for_each front_camera_info (weight ∘ CameraCalibration.name)); [|done].
    intros cc. apply grows_write_one_camera_info. }
  assert (∀ m, static_transforms frame = Ok m →
     Forall front_transform m ∧
     length m = front_count (CameraCalibration.name <$> Frame.camera_calibrations frame))
    as Hstatic.
  { intros m Hm. apply static_transforms_front in Hm as (new & -> & Hnew & Hlen). done. }
  split_and!; try done.
  - apply front_count_NoDup.
  - intros Huniq. split; [|intros Hnd; split].
    + intros Hnd new Hnew. destruct Himage as (new' & Hnew' & _ & Hle & _).
      rewrite Hnew in Hnew'. injection Hnew' as Heq. apply app_inv_head in Heq as <-.
      pose proof (front_count_NoDup _ Hnd Huniq). lia.
    + intros new Hnew. destruct Hinfo as (new' & Hnew' & _ & Hle & _).
      rewrite Hnew in Hnew'. injection Hnew' as Heq. apply app_inv_head in Heq as <-.
      pose proof (front_count_NoDup _ Hnd Huniq). lia.
    + intros m Hm. destruct (Hstatic m Hm) as [_ ->]. by apply front_count_NoDup.
Qed.
End CameraFacts.

Import Sample.

Section EngineTotal.
Context `{Library} (cfg : Config).

(** the engine returns a result on a well-shaped image whenever the
    projection does *)
Lemma project_and_gather_is_Ok t extrinsic beam poses cart :
  (if FILTER_NO_LABEL_ZONE_POINTS cfg then 3 < depth t else 1 < depth t) →
  extract_point_cloud_from_range_image [range_of t] [extrinsic] [beam] poses.1 poses.2
  = Ok [cart] →
  same_shape (cells t) cart →
  is_Ok (project_and_gather cfg t extrinsic beam poses).
Proof.
  intros Hd Hcart Hshape. unfold project_and_gather.
  assert (1 < depth t) as H1 by (destruct (FILTER_NO_LABEL_ZONE_POINTS cfg); lia).
  rewrite range_image_mask_is_Ok by (destruct (FILTER_NO_LABEL_ZONE_POINTS cfg); lia).
  rewrite (proj2 (channel_Ok 0 t _) (conj (Nat.lt_trans _ _ _ Nat.lt_0_1 H1) eq_refl)).
  rewrite (proj2 (channel_Ok 1 t _) (conj H1 eq_refl)).
  simpl. unfold tf_expand_dims, range_of in *. rewrite Hcart. simpl.
  fold (mask_of cfg t).
  assert (Forall (λ p, is_Some (at_ (cells t) p)) (tf_where (mask_of cfg t))) as Hin.
  { apply Forall_forall. intros p Hp. apply elem_of_tf_where in Hp.
    rewrite at_mask_of in Hp. destruct (at_ (cells t) p); [by eexists|done]. }
  destruct (tf_gather_nd_is_Ok cart (tf_where (mask_of cfg t))) as [points Hpoints].
  { eapply Forall_impl; [exact Hin|]. intros p. by apply same_shape_at. }
  rewrite Hpoints. simpl.
  destruct (tf_gather_nd_is_Ok
              (fmap (M:=list) (fmap (M:=list) (λ px, nth 1 px 0%float)) (cells t))
              (tf_where (mask_of cfg t))) as [intensity Hint].
  { eapply Forall_impl; [exact Hin|]. intros p. apply same_shape_at, same_shape_map. }
  rewrite Hint. by eexists.
Qed.
End EngineTotal.


Lemma inclinations_reversed_before_use_witness :
  convert_one default_config range_images [] pose front_calibration 1
  = Ok ([(4, 1, 0)]%float, [21]%float)
  ∧ ∃ ris range_image t extrinsic cart resolved,
      range_images !! LaserCalibration.name front_calibration = Some ris ∧
      ris !! 1 = Some range_image ∧
      tf_reshape (data range_image) (shape_dims range_image) = Ok t ∧
      (∃ h, shape_dims range_image !! 0 = Some h ∧
            compute_inclination [(-1)%float; 1%float] h = Ok resolved) ∧
      resolve_beam_inclinations front_calibration range_image = Ok (reverse resolved) ∧
      extract_point_cloud_from_range_image [range_of t] [extrinsic] [reverse resolved]
        (pose_locals front_calibration [] pose).1 (pose_locals front_calibration [] pose).2
      = Ok [cart] ∧
      ∀ i, i < length resolved →
        reverse resolved !! i = resolved !! (length resolved - 1 - i).
Proof.
  split; [vm_compute; reflexivity|].
  apply (inclinations_reversed_before_use default_config range_images [] pose
           front_calibration 1 ([(4, 1, 0)]%float, [21]%float)).
  vm_compute; reflexivity.
Defined.


Lemma returns_concatenated_into_cloud_witness :
  convert_range_image_to_point_cloud default_config frame1 range_images ∅ top_pose [0; 1]
  = Ok ret_dict
  ∧ assemble_cloud default_config ret_dict TOP
    = Ok [[5; 0.25; 0; np_tanh 10]; [3; -0.5; 0; np_tanh 12]; [4; 0.25; 0; np_tanh 21]]%float
  ∧ ∃ (p0 p1 : list (list Point)) (x0 x1 : list (list float)),
      dd_get ret_dict (points_key TOP 0) = Points <$> p0 ∧
      dd_get ret_dict (points_key TOP 1) = Points <$> p1 ∧
      dd_get ret_dict (intensity_key TOP 0) = Scalars <$> x0 ∧
      dd_get ret_dict (intensity_key TOP 1) = Scalars <$> x1 ∧
      length (concat p0 ++ concat p1) = length (concat x0 ++ concat x1).
Proof.
  assert (convert_range_image_to_point_cloud default_config frame1 range_images ∅
            top_pose [0; 1] = Ok ret_dict) as Hc by (vm_compute; reflexivity).
  split_and!; [exact Hc|vm_compute; reflexivity|].
  destruct (returns_concatenated_into_cloud default_config frame1 range_images ∅ top_pose
              ret_dict (TOP, "top") Hc)
    as (p0 & p1 & x0 & x1 & H0 & H1 & H2 & H3 & Hlen & _).
  by exists p0, p1, x0, x1.
Defined.

Lemma missing_sensor_aborts_frame_witness :
  (TOP, "top") ∈ SELECTED_LIDAR_SENSOR default_config
  ∧ (∀ c, c ∈ Frame.laser_calibrations frame4 → LaserCalibration.name c ≠ TOP)
  ∧ (∀ s, ∃ e, (write_point_cloud default_config frame4 (1%Z, 300000000%Z) s).2 = Raise e)
  ∧ (write_point_cloud default_config frame4 (1%Z, 300000000%Z)
       (unit_start "tfrecord/c.tfrecord" (Waymo2Bag pathnames))).2 = Raise ValueError.
Proof.
  assert ((TOP, "top") ∈ SELECTED_LIDAR_SENSOR default_config) as Hsel by (by left).
  assert (∀ c, c ∈ Frame.laser_calibrations frame4 → LaserCalibration.name c ≠ TOP) as Hno.
  { intros c Hc. apply list_elem_of_singleton in Hc as ->. discriminate. }
  split_and!; [exact Hsel|exact Hno| |vm_compute; reflexivity].
  exact (proj1 (proj2 (missing_sensor_aborts_frame default_config frame4
                         (1%Z, 300000000%Z) (TOP, "top") Hsel Hno))).
Defined.

Lemma sample_unique_front : @unique_front library.
Proof.
  assert (∀ n, @is_front library n = true → n = 1%Z) as Hone.
  { intros n Hn. unfold is_front in Hn. cbn in Hn. unfold camera_name in Hn.
    destruct n as [|p|p]; [discriminate| |discriminate].
    destruct p as [[p|p|]|[p|p|]|]; try discriminate; try reflexivity.
    all: destruct p; discriminate. }
  intros a b Ha Hb. by rewrite (Hone a Ha), (Hone b Hb).
Qed.

Lemma only_front_camera_written_witness :
  bag (unit_start "tfrecord/a.tfrecord" (Waymo2Bag ["tfrecord/a.tfrecord"]))
  = Some ("rosbag/a.bag", [])
  ∧ ∃ new,
      bag (write_image frame1 (1%Z, 0%Z)
             (unit_start "tfrecord/a.tfrecord" (Waymo2Bag ["tfrecord/a.tfrecord"]))).1
      = Some ("rosbag/a.bag", [] ++ new) ∧
      Forall front_image new ∧
      length new ≤ front_count (CameraImage.name <$> Frame.images frame1) ∧
      front_count (CameraImage.name <$> Frame.images frame1) = 1 ∧
      length new ≤ 1.
Proof.
  assert (bag (unit_start "tfrecord/a.tfrecord" (Waymo2Bag ["tfrecord/a.tfrecord"]))
          = Some ("rosbag/a.bag", [])) as Hb by (vm_compute; reflexivity).
  split; [exact Hb|].
  pose proof (only_front_camera_written frame1 (1%Z, 0%Z) _ _ _ Hb) as Hall.
  destruct Hall as ((new & Hnew & Hfront & Hle & _) & _ & _ & _ & Hone).
  exists new. split; [exact Hnew|]. split; [exact Hfront|]. split; [exact Hle|].
  split; [vm_compute; reflexivity|].
  apply (proj1 (Hone sample_unique_front)); [|exact Hnew].
  apply NoDup_cons. split; [|apply NoDup_singleton].
  intros Hin. apply list_elem_of_singleton in Hin. discriminate.
Defined.

(** C4: the frame pose is not handed to the projection for a sensor other
    than the top one *)
Lemma frame_pose_unused_off_top :
  ¬ frame_pose_alone front_calibration [] pose
  ∧ pose_locals front_calibration [] pose = (None, None)
  ∧ convert_one default_config range_images [] pose front_calibration 0
    = convert_one default_config range_images [] (chunks 4 4 identity16) front_calibration 0
  ∧ convert_one default_config range_images [] pose top_calibration 0
    ≠ convert_one default_config range_images [] (chunks 4 4 identity16) top_calibration 0.
Proof.
  split_and!.
  - unfold frame_pose_alone. vm_compute. discriminate.
  - reflexivity.
  - vm_compute; reflexivity.
  - vm_compute. intros [= Heq].
Qed.

(** C9: on two units of which the first fails, the second is not attempted *)
Lemma second_unit_not_attempted : ¬ best_effort_continue default_config.
Proof.
  intros Hcont.
  destruct (Hcont pathnames 1 "tfrecord/c.tfrecord" ["frame2"] eq_refl eq_refl)
    as [entries Hin].
  assert (fst <$> closed_bags (convert default_config (Waymo2Bag pathnames)).1
          = ["rosbag/b.bag"]) as Hbags by (vm_compute; reflexivity).
  apply (list_elem_of_fmap_2 fst) in Hin. rewrite Hbags in Hin.
  apply list_elem_of_singleton in Hin. vm_compute in Hin. discriminate.
Qed.

Example failing_unit_trace :
  (convert default_config (Waymo2Bag pathnames)).2 = Raise AssertionError
  ∧ stdout (convert default_config (Waymo2Bag pathnames)).1
    = ["start converting ..."; "filename: b"; "rosbag/b.bag"].
Proof. split; vm_compute; reflexivity. Qed.

Section Normalization.
Context `{Library} (cfg : Config).

Lemma intensity_column (points : list Point) (intensity : list float) :
  length points = length intensity →
  (λ row, nth 3 row 0%float) <$> zip_with (cloud_row cfg) points intensity
  = normalized cfg <$> intensity.
Proof.
  revert intensity. induction points as [|p points IH]; intros [|x intensity] Hlen;
    simpl in *; try done.
  f_equal. apply IH. lia.
Qed.

(** X1: the fourth column of a sensor's cloud is the raw channel-1 values of
    the two returns, each mapped through np.tanh when normalization is
    enabled and left as it is otherwise *)
Theorem intensity_column_normalized frame ris cps top ret_dict lidar_id cloud :
  convert_range_image_to_point_cloud cfg frame ris cps top [0; 1] = Ok ret_dict →
  assemble_cloud cfg ret_dict lidar_id = Ok cloud →
  ∃ x0 x1 : list (list float),
    dd_get ret_dict (intensity_key lidar_id 0) = Scalars <$> x0 ∧
    dd_get ret_dict (intensity_key lidar_id 1) = Scalars <$> x1 ∧
    (λ row, nth 3 row 0%float) <$> cloud
    = (if NORMALIZE_INTENSITY cfg
       then np_tanh <$> (concat x0 ++ concat x1)
       else concat x0 ++ concat x1).
Proof.
  intros Hc Ha. apply convert_range_image_to_point_cloud_paired in Hc.
  destruct (assemble_cloud_paired cfg ret_dict lidar_id Hc)
    as (p0 & p1 & x0 & x1 & _ & _ & Hx0 & Hx1 & Hl & Ha').
  rewrite Ha in Ha'. case_decide; [done|]. injection Ha' as ->.
  exists x0, x1. split_and!; try done.
  rewrite intensity_column.
  - unfold normalized. destruct (NORMALIZE_INTENSITY cfg); [done|].
    apply list_fmap_id.
  - rewrite <-!concat_app. by apply length_concat_Forall2.
Qed.
End Normalization.

Lemma intensity_column_normalized_witness :
  convert_range_image_to_point_cloud default_config frame1 range_images ∅ top_pose [0; 1]
  = Ok ret_dict
  ∧ assemble_cloud default_config ret_dict TOP
    = Ok [[5; 0.25; 0; np_tanh 10]; [3; -0.5; 0; np_tanh 12]; [4; 0.25; 0; np_tanh 21]]%float
  ∧ ∃ x0 x1 : list (list float),
      dd_get ret_dict (intensity_key TOP 0) = Scalars <$> x0 ∧
      dd_get ret_dict (intensity_key TOP 1) = Scalars <$> x1 ∧
      [np_tanh 10; np_tanh 12; np_tanh 21]%float = np_tanh <$> (concat x0 ++ concat x1).
Proof.
  assert (convert_range_image_to_point_cloud default_config frame1 range_images ∅
            top_pose [0; 1] = Ok ret_dict) as Hc by (vm_compute; reflexivity).
  assert (assemble_cloud default_config ret_dict TOP
          = Ok [[5; 0.25; 0; np_tanh 10]; [3; -0.5; 0; np_tanh 12];
                [4; 0.25; 0; np_tanh 21]]%float) as Ha by (vm_compute; reflexivity).
  split_and!; [exact Hc|exact Ha|].
  exact (intensity_column_normalized default_config frame1 range_images ∅ top_pose
           ret_dict TOP _ Hc Ha).
Defined.

Lemma pixel_pose_only_for_top_witness :
  LaserCalibration.name front_calibration ≠ TOP
  ∧ ∀ tp' frame_pose',
      convert_one default_config range_images tp' frame_pose' front_calibration 0
      = convert_one default_config range_images [] pose front_calibration 0.
Proof.
  assert (LaserCalibration.name front_calibration ≠ TOP) as Hn by discriminate.
  split; [exact Hn|].
  exact (proj2 (proj2 (pixel_pose_only_for_top default_config range_images [] pose
                         front_calibration 0) Hn)).
Defined.


Lemma failing_unit_ends_the_run_witness :
  (convert_frame default_config "frame3"
     (for_each (convert_frame default_config) ["frame1"]
        (unit_start "tfrecord/b.tfrecord"
           (print "start converting ..." (Waymo2Bag pathnames)).1)).1).2
  = Raise AssertionError
  ∧ (convert_tfrecord2bag default_config 0
       (print "start converting ..." (Waymo2Bag pathnames)).1).2 = Raise AssertionError
  ∧ (convert default_config (Waymo2Bag pathnames)).2 = Raise AssertionError.
Proof.
  set (s := (print "start converting ..." (Waymo2Bag pathnames)).1).
  set (s1 := (for_each (convert_frame default_config) ["frame1"]
                (unit_start "tfrecord/b.tfrecord" s)).1).
  set (s2 := (convert_frame default_config "frame3" s1).1).
  set (s3 := (convert_tfrecord2bag default_config 0 s).1).
  assert (for_each (convert_frame default_config) ["frame1"]
            (unit_start "tfrecord/b.tfrecord" s) = (s1, Ok ())) as H1
    by (vm_compute; reflexivity).
  assert (convert_frame default_config "frame3" s1 = (s2, Raise AssertionError)) as H2
    by (vm_compute; reflexivity).
  assert (TFRecordDataset "tfrecord/b.tfrecord" = Ok (["frame1"] ++ "frame3" :: ["frame2"]))
    as Hd by (vm_compute; reflexivity).
  destruct (proj2 (failing_unit_ends_the_run default_config) s 0 "tfrecord/b.tfrecord"
              ["frame1"] "frame3" ["frame2"] s1 s2 AssertionError
              eq_refl Hd H1 H2) as (Hr & _ & _).
  split_and!; [by rewrite H2|exact Hr|].
  assert (convert_tfrecord2bag default_config 0 s = (s3, Raise AssertionError)) as H3.
  { rewrite <-Hr. unfold s3. by destruct (convert_tfrecord2bag default_config 0 s). }
  rewrite (proj1 (failing_unit_ends_the_run default_config) (Waymo2Bag pathnames)
             [] 0 [1] s s3 AssertionError eq_refl eq_refl H3).
  reflexivity.
Defined.

(** ** The name of a unit's bag *)

Lemma string_app_cons (c : Ascii.ascii) (a b : string) :
  String c a +:+ b = String c (a +:+ b).
Proof. reflexivity. Qed.

Lemma string_app_nil_r (s : string) : s +:+ "" = s.
Proof. induction s as [|c s IH]; [done|]. by rewrite string_app_cons, IH. Qed.

Lemma string_app_assoc (a b c : string) : (a +:+ b) +:+ c = a +:+ b +:+ c.
Proof. induction a as [|d a IH]; [done|]. by rewrite !string_app_cons, IH. Qed.

Lemma basename_from_plain (cur b : string) :
  occurs "/" b = false → basename_from cur b = cur +:+ b.
Proof.
  revert cur. induction b as [|c b IH]; intros cur Hb; simpl in *.
  - by rewrite string_app_nil_r.
  - apply orb_false_iff in Hb as [Hc Hb]. rewrite Hc, IH by done.
    by rewrite string_app_assoc.
Qed.

Lemma basename_from_slash (cur a b : string) :
  basename_from cur (a +:+ "/" +:+ b) = basename_from "" b.
Proof.
  revert cur. induction a as [|c a IH]; intros cur; [done|].
  rewrite string_app_cons. simpl. destruct (Ascii.eqb c "/"); apply IH.
Qed.

Lemma occurs_app (c : Ascii.ascii) (a b : string) :
  occurs c (a +:+ b) = occurs c a || occurs c b.
Proof.
  induction a as [|d a IH]; [done|].
  rewrite string_app_cons. simpl. by rewrite IH, orb_assoc.
Qed.

Lemma occurs_basename_from (cur s : string) :
  occurs "/" cur = false → occurs "/" (basename_from cur s) = false.
Proof.
  revert cur. induction s as [|c s IH]; intros cur Hcur; simpl; [done|].
  destruct (Ascii.eqb c "/") eqn:Hc; apply IH; [done|].
  rewrite occurs_app, Hcur. simpl. by rewrite Hc.
Qed.

Lemma before_first_dot_stem (stem ext : string) :
  occurs "." stem = false → before_first_dot (stem +:+ "." +:+ ext) = stem.
Proof.
  induction stem as [|c stem IH]; intros Hs; [done|].
  rewrite string_app_cons. simpl in *.
  apply orb_false_iff in Hs as [Hc Hs]. rewrite Hc. f_equal. by apply IH.
Qed.

Lemma occurs_before_first_dot (c : Ascii.ascii) (s : string) :
  occurs c s = false → occurs c (before_first_dot s) = false.
Proof.
  induction s as [|d s IH]; intros Hs; simpl in *; [done|].
  apply orb_false_iff in Hs as [Hd Hs].
  destruct (Ascii.eqb d "."); simpl; [done|]. by rewrite Hd, IH.
Qed.

Lemma no_dot_before_first_dot (s : string) : occurs "." (before_first_dot s) = false.
Proof.
  induction s as [|d s IH]; simpl; [done|].
  destruct (Ascii.eqb d ".") eqn:Hd; simpl; [done|]. by rewrite Hd, IH.
Qed.

(** X2: the bag of [dir/stem.ext] is [rosbag/stem.bag]: the directory and
    everything from the first dot on are dropped, so that two units whose
    file names agree up to their first dot are written to the same bag *)
Theorem bag_path_of_pathname (dir stem ext : string) :
  occurs "/" stem = false →
  occurs "." stem = false →
  occurs "/" ext = false →
  bag_path (dir +:+ "/" +:+ stem +:+ "." +:+ ext) = "rosbag/" +:+ stem +:+ ".bag"
  ∧ bag_path (stem +:+ "." +:+ ext) = "rosbag/" +:+ stem +:+ ".bag"
  ∧ ∀ dir' ext', occurs "/" ext' = false →
      bag_path (dir' +:+ "/" +:+ stem +:+ "." +:+ ext')
      = bag_path (dir +:+ "/" +:+ stem +:+ "." +:+ ext).
Proof.
  intros Hs Hd He.
  assert (∀ e, occurs "/" e = false →
            before_first_dot (basename_from "" (stem +:+ "." +:+ e)) = stem) as Hstem.
  { intros e Hne. rewrite basename_from_plain.
    - by apply before_first_dot_stem.
    - rewrite !occurs_app, Hs, Hne. done. }
  assert (∀ d e, occurs "/" e = false →
            bag_path (d +:+ "/" +:+ stem +:+ "." +:+ e) = "rosbag/" +:+ stem +:+ ".bag") as Hdir.
  { intros d e Hne. unfold bag_path, os_path_basename.
    by rewrite basename_from_slash, Hstem. }
  split_and!.
  - by apply Hdir.
  - unfold bag_path, os_path_basename. by rewrite Hstem.
  - intros d' e' He'. by rewrite !Hdir.
Qed.

(** X3: every bag lies directly in [rosbag/]: the name between [rosbag/] and
    [.bag] holds neither a slash nor a dot, whatever the pathname is *)
Theorem bag_path_is_flat (pathname : string) :
  ∃ stem,
    bag_path pathname = "rosbag/" +:+ stem +:+ ".bag"
    ∧ occurs "/" stem = false
    ∧ occurs "." stem = false.
Proof.
  exists (before_first_dot (os_path_basename pathname)). split_and!.
  - done.
  - apply occurs_before_first_dot. by apply occurs_basename_from.
  - apply no_dot_before_first_dot.
Qed.

Lemma bag_path_of_pathname_witness :
  bag_path "tfrecord/segment-10017.with_camera_labels.tfrecord" = "rosbag/segment-10017.bag".
Proof.
  exact (proj1 (bag_path_of_pathname "tfrecord" "segment-10017"
                  "with_camera_labels.tfrecord" eq_refl eq_refl eq_refl)).
Defined.

(** ** Methods that only append to the open bag *)

Lemma appends_nothing {A} (P : Entry → Prop) (m : M A) :
  (∀ s, bag (m s).1 = bag s) → appends P m.
Proof.
  intros Hm s. exists []. rewrite Hm. split; [|done].
  destruct (bag s) as [[path entries]|]; simpl; [|done]. by rewrite app_nil_r.
Qed.

Lemma appends_lift {A} (P : Entry → Prop) (r : Res A) : appends P (lift r).
Proof. by apply appends_nothing. Qed.

Lemma appends_ret {A} (P : Entry → Prop) (a : A) : appends P (mret a).
Proof. by apply appends_nothing. Qed.

Lemma appends_bind {A B} (P : Entry → Prop) (m : M A) (f : A → M B) :
  appends P m → (∀ a, appends P (f a)) → appends P (m ≫= f).
Proof.
  intros Hm Hf s. rewrite M_bind_unfold.
  destruct (Hm s) as (n1 & Hs1 & Hn1). destruct (m s) as [s1 [a|e]]; simpl in *.
  - destruct (Hf a s1) as (n2 & Hs2 & Hn2). exists (n1 ++ n2).
    rewrite Hs2, Hs1. split; [|by apply Forall_app].
    destruct (bag s) as [[path entries]|]; simpl; [|done]. by rewrite app_assoc.
  - by exists n1.
Qed.

Lemma appends_bag_write (P : Entry → Prop) topic msg t :
  P {| e_topic := topic; e_msg := msg; e_t := t |} → appends P (bag_write topic msg t).
Proof.
  intros HP s. unfold bag_write.
  destruct (bag s) as [[path entries]|] eqn:Hb; simpl.
  - eexists [_]. split; [done|]. by constructor.
  - by exists [].
Qed.

Lemma appends_for_each {A} (P : Entry → Prop) (f : A → M unit) (l : list A) :
  (∀ x, x ∈ l → appends P (f x)) → appends P (for_each f l).
Proof.
  induction l as [|x l IH]; intros Hf; simpl.
  - apply appends_ret.
  - apply appends_bind; [apply Hf; left|]. intros _. apply IH.
    intros y Hy. apply Hf. by right.
Qed.

Lemma appends_impl {A} (P Q : Entry → Prop) (m : M A) :
  (∀ e, P e → Q e) → appends P m → appends Q m.
Proof.
  intros HPQ Hm s. destruct (Hm s) as (new & Hs & Hnew). exists new.
  split; [done|]. by eapply Forall_impl.
Qed.

Section FrameFacts.
Context `{Library} (cfg : Config).

Lemma to_transform_stamp from_frame_id to_frame_id stamp trans_mat m :
  to_transform from_frame_id to_frame_id stamp trans_mat = Ok m →
  TransformStamped.stamp m = stamp
  ∧ TransformStamped.frame_id m = from_frame_id
  ∧ TransformStamped.child_frame_id m = to_frame_id
  ∧ translation_from_matrix trans_mat = Ok (TransformStamped.translation m)
  ∧ quaternion_from_matrix trans_mat = Ok (TransformStamped.rotation m).
Proof.
  unfold to_transform. intros Ht.
  apply bind_Ok in Ht as (t & Htr & Ht). apply bind_Ok in Ht as (q & Hq & [= <-]).
  done.
Qed.

Lemma static_transforms_stamp frame m :
  static_transforms frame = Ok m →
  Forall (λ x, TransformStamped.stamp x = zero_time) m.
Proof.
  unfold static_transforms.
  apply (foldM_invariant (Forall (λ x, TransformStamped.stamp x = zero_time))); [|done].
  intros acc cc acc' Hacc. unfold static_transform. intros Hs.
  apply bind_Ok in Hs as (frame_name & _ & Hs).
  case_decide; [by injection Hs as <-|].
  apply bind_Ok in Hs as (v2c & _ & Hs). apply bind_Ok in Hs as (mat & _ & Hs).
  apply bind_Ok in Hs as (tf_msg & Htf & [= <-]).
  apply Forall_app. split; [done|]. constructor; [|done].
  by apply to_transform_stamp in Htf as (? & _).
Qed.

Lemma appends_write_odom frame timestamp :
  appends (frame_entry cfg timestamp) (write_odom frame timestamp).
Proof.
  unfold write_odom. apply appends_bind; [apply appends_lift|]. intros m.
  apply appends_bind; [apply appends_lift|]. intros tf_msg.
  apply appends_bag_write. left. by eexists.
Qed.

Lemma appends_write_tf_static frame timestamp :
  appends (frame_entry cfg timestamp) (write_tf_static frame timestamp).
Proof.
  unfold write_tf_static. intros s. rewrite lift_bind.
  destruct (static_transforms frame) as [m|e] eqn:Hm.
  2:{ by apply (appends_nothing _ (lift (Raise e) : M unit)). }
  revert s. apply appends_bind; [by apply appends_nothing|]. intros [first|].
  - destruct (TFMessage_eqb first m); by apply appends_nothing.
  - apply appends_bind; [|intros _; by apply appends_nothing].
    apply appends_bag_write. right. left. exists m. split; [done|].
    by apply static_transforms_stamp in Hm.
Qed.

Lemma appends_write_sensor_cloud d timestamp sensor :
  sensor ∈ SELECTED_LIDAR_SENSOR cfg →
  appends (frame_entry cfg timestamp) (write_sensor_cloud cfg d timestamp sensor).
Proof.
  intros Hin. unfold write_sensor_cloud, write_points_to_bag.
  apply appends_bind; [apply appends_lift|]. intros points.
  intros s. rewrite lift_bind. unfold create_cloud. case_decide.
  2:{ by apply (appends_nothing _ (lift (Raise LibraryError) : M unit)). }
  revert s. apply appends_bag_write. right. right. left. by exists sensor, points.
Qed.

Lemma appends_write_point_cloud frame timestamp :
  appends (frame_entry cfg timestamp) (write_point_cloud cfg frame timestamp).
Proof.
  unfold write_point_cloud. apply appends_bind; [apply appends_lift|]. intros parsed.
  apply appends_bind; [apply appends_lift|]. intros d.
  apply appends_for_each. intros sensor Hin. by apply appends_write_sensor_cloud.
Qed.

Lemma appends_write_image frame timestamp :
  appends (frame_entry cfg timestamp) (write_image frame timestamp).
Proof.
  apply appends_for_each. intros image _. unfold write_one_image.
  apply appends_bind; [apply appends_lift|]. intros frame_name.
  case_decide as Hname; [apply appends_ret|]. subst frame_name.
  apply appends_bind; [apply appends_lift|]. intros bgr.
  apply appends_bind; [apply appends_lift|]. intros rgb.
  apply appends_bag_write. do 3 right. left. split_and!; try done. by eexists.
Qed.

Lemma appends_write_camera_info frame timestamp :
  appends (frame_entry cfg timestamp) (write_camera_info frame timestamp).
Proof.
  apply appends_for_each. intros cc _. unfold write_one_camera_info.
  apply appends_bind; [apply appends_lift|]. intros frame_name.
  case_decide as Hname; [apply appends_ret|]. subst frame_name.
  do 4 (apply appends_bind; [apply appends_lift|]; intros ?).
  apply appends_bag_write. do 4 right. split_and!; try done. by eexists.
Qed.

Lemma appends_frame frame timestamp :
  appends (frame_entry cfg timestamp)
    (_ ← write_odom frame timestamp;
     _ ← write_tf_static frame timestamp;
     _ ← write_point_cloud cfg frame timestamp;
     _ ← write_image frame timestamp;
     write_camera_info frame timestamp).
Proof.
  apply appends_bind; [apply appends_write_odom|]. intros _.
  apply appends_bind; [apply appends_write_tf_static|]. intros _.
  apply appends_bind; [apply appends_write_point_cloud|]. intros _.
  apply appends_bind; [apply appends_write_image|]. intros _.
  apply appends_write_camera_info.
Qed.

Lemma frame_entry_topic timestamp e :
  frame_entry cfg timestamp e → frame_topic cfg (e_topic e).
Proof.
  unfold frame_topic.
  intros [(o & -> & _)|[(m & -> & _)|[(sensor & cloud & Hin & ->)|[(Ht & _)|(Ht & _)]]]];
    simpl; eauto 10.
Qed.

Lemma frame_entry_stamped timestamp e : frame_entry cfg timestamp e → stamped timestamp e.
Proof.
  unfold stamped.
  intros [(o & -> & Ho)|[(m & -> & Hm)|[(sensor & cloud & Hin & ->)|
          [(_ & Ht & m & Hm & Hs)|(_ & Ht & m & Hm & Hs)]]]]; simpl.
  - split; [done|]. by constructor.
  - split; [done|]. by apply Forall_fmap.
  - split; [done|]. by constructor.
  - rewrite Hm. simpl. split; [done|]. by constructor.
  - rewrite Hm. simpl. split; [done|]. by constructor.
Qed.

Lemma frame_topic_ne_tf topic : frame_topic cfg topic → topic ≠ "/tf".
Proof.
  intros [->|[->|[(sensor & _ & ->)|[-> | ->]]]]; discriminate.
Qed.

(** X4: every message a frame writes is recorded at the frame's time and
    carries that time in its header; the transforms of the static transform
    message alone are stamped with the zero time *)
Theorem frame_messages_stamped data frame s :
  ParseFromString data = Ok frame →
  ∃ new,
    bag (convert_frame cfg data s).1
    = (λ b : string * list Entry, (b.1, b.2 ++ new)) <$> bag s
    ∧ Forall (stamped (stamp_of_micros (Frame.timestamp_micros frame))) new.
Proof.
  intros Hp. unfold convert_frame. rewrite lift_bind, Hp, lift_bind.
  unfold Time_from_sec. case_decide.
  { exists []. split; [|done]. simpl.
    destruct (bag s) as [[path entries]|]; simpl; [|done]. by rewrite app_nil_r. }
  destruct (appends_frame frame (stamp_of_micros (Frame.timestamp_micros frame)) s)
    as (new & Hb & Hnew).
  exists new. split; [done|]. eapply Forall_impl; [exact Hnew|]. apply frame_entry_stamped.
Qed.

End FrameFacts.

(** ** The bags of a run *)

Section RunFacts.
Context `{Library} (cfg : Config).

Lemma appends_convert_frame data :
  appends (λ e, frame_topic cfg (e_topic e)) (convert_frame cfg data).
Proof.
  unfold convert_frame. apply appends_bind; [apply appends_lift|]. intros frame.
  apply appends_bind; [apply appends_lift|]. intros timestamp.
  eapply appends_impl; [|apply (appends_frame cfg frame timestamp)].
  intros e. apply frame_entry_topic.
Qed.

(** a unit that was read: its bag is closed with the messages of its frames *)
Lemma convert_tfrecord2bag_closed file_idx s pathname dataset :
  tfrecord_pathnames s !! file_idx = Some pathname →
  TFRecordDataset pathname = Ok dataset →
  convert_tfrecord2bag cfg file_idx s
  = ({| tfrecord_pathnames := tfrecord_pathnames s;
        static_tf_message :=
          static_tf_message (for_each (convert_frame cfg) dataset (unit_start pathname s)).1;
        bag := None;
        closed_bags :=
          closed_bags s
          ++ [(bag_path pathname,
               entries_of (for_each (convert_frame cfg) dataset (unit_start pathname s)).1)];
        stdout :=
          stdout s
          ++ ["filename: " +:+ before_first_dot (os_path_basename pathname);
              Bag_str (bag_path pathname)
                (entries_of (for_each (convert_frame cfg) dataset (unit_start pathname s)).1)] |},
     (for_each (convert_frame cfg) dataset (unit_start pathname s)).2)
  ∧ Forall (λ e, frame_topic cfg (e_topic e))
      (entries_of (for_each (convert_frame cfg) dataset (unit_start pathname s)).1).
Proof.
  intros Hp Hd. rewrite convert_tfrecord2bag_unfold, Hp, Hd.
  pose proof (frames_keep cfg dataset (unit_start pathname s)) as (Hc & Hn & Ho & Hb).
  destruct (appends_for_each (λ e, frame_topic cfg (e_topic e)) (convert_frame cfg) dataset
              (λ data _, appends_convert_frame data) (unit_start pathname s))
    as (new & Hnew & Htopics).
  destruct (for_each (convert_frame cfg) dataset (unit_start pathname s))
    as [s1 r] eqn:Hrun.
  simpl in Hc, Hn, Ho, Hb, Hnew. unfold entries_of. cbn [fst snd]. rewrite Hnew.
  split; [|done].
  unfold try_finally, print_and_close. rewrite Hrun, Hnew. simpl.
  by rewrite Hc, Hn, Ho, <-app_assoc.
Qed.

(** X5: a unit whose index is past the pathnames raises [IndexError], and one
    that cannot be read raises what the reader raised: in both cases no bag
    is opened and nothing is printed.  A unit that is read prints its
    name, converts its frames into a new bag and, whether they all convert
    or one of them fails, closes that bag, prints it, and returns what the
    loop over the frames returned *)
Theorem unit_opens_and_closes_one_bag file_idx s :
  match tfrecord_pathnames s !! file_idx with
  | None => convert_tfrecord2bag cfg file_idx s = (s, Raise IndexError)
  | Some pathname =>
      match TFRecordDataset pathname with
      | Raise e => convert_tfrecord2bag cfg file_idx s = (s, Raise e)
      | Ok dataset =>
          let frames := for_each (convert_frame cfg) dataset (unit_start pathname s) in
          convert_tfrecord2bag cfg file_idx s
          = ({| tfrecord_pathnames := tfrecord_pathnames s;
                static_tf_message := static_tf_message frames.1;
                bag := None;
                closed_bags := closed_bags s ++ [(bag_path pathname, entries_of frames.1)];
                stdout :=
                  stdout s
                  ++ ["filename: " +:+ before_first_dot (os_path_basename pathname);
                      Bag_str (bag_path pathname) (entries_of frames.1)] |},
             frames.2)
          ∧ bag (unit_start pathname s) = Some (bag_path pathname, [])
      end
  end.
Proof.
  destruct (tfrecord_pathnames s !! file_idx) as [pathname|] eqn:Hp.
  2:{ by rewrite convert_tfrecord2bag_unfold, Hp. }
  destruct (TFRecordDataset pathname) as [dataset|e] eqn:Hd.
  2:{ by rewrite convert_tfrecord2bag_unfold, Hp, Hd. }
  cbv zeta. split; [|done]. by apply convert_tfrecord2bag_closed.
Qed.

(** one unit: either it cannot be read and nothing changes, or its bag is
    closed *)
Lemma convert_unit_cases (a : nat) (s : State) :
  (∃ e, convert_unit cfg a s = (s, Raise e))
  ∨ (∃ pathname dataset entries l1 l2 s' r,
       tfrecord_pathnames s !! a = Some pathname
       ∧ TFRecordDataset pathname = Ok dataset
       ∧ Forall (λ e, frame_topic cfg (e_topic e)) entries
       ∧ convert_unit cfg a s = (s', r)
       ∧ tfrecord_pathnames s' = tfrecord_pathnames s
       ∧ closed_bags s' = closed_bags s ++ [(bag_path pathname, entries)]
       ∧ stdout s' = stdout s ++ [l1; l2]
       ∧ bag s' = None).
Proof.
  unfold convert_unit. rewrite M_bind_unfold.
  destruct (tfrecord_pathnames s !! a) as [pathname|] eqn:Hp.
  2:{ left. rewrite convert_tfrecord2bag_unfold, Hp. by eexists. }
  destruct (TFRecordDataset pathname) as [dataset|e] eqn:Hd.
  2:{ left. rewrite convert_tfrecord2bag_unfold, Hp, Hd. by eexists. }
  right.
  destruct (convert_tfrecord2bag_closed a s pathname dataset Hp Hd) as [-> Htopics].
  exists pathname, dataset,
    (entries_of (for_each (convert_frame cfg) dataset (unit_start pathname s)).1).
  destruct (for_each (convert_frame cfg) dataset (unit_start pathname s)) as [s1 [[]|e]];
    cbn [fst snd] in *; do 4 eexists; split_and!; try done.
Qed.

(** what the loop over the units leaves behind, from the unit [a] on *)
Lemma units_outcome (n a : nat) (s : State) :
  ∃ k bags,
    k ≤ n
    ∧ closed_bags (for_each (convert_unit cfg) (seq a n) s).1 = closed_bags s ++ bags
    ∧ fst <$> bags = bag_path <$> take k (drop a (tfrecord_pathnames s))
    ∧ Forall (λ b, Forall (λ e, frame_topic cfg (e_topic e)) b.2) bags
    ∧ (∀ pathname, pathname ∈ take k (drop a (tfrecord_pathnames s)) →
         is_Ok (TFRecordDataset pathname))
    ∧ (∃ lines, stdout (for_each (convert_unit cfg) (seq a n) s).1 = stdout s ++ lines
                ∧ length lines = 2 * k)
    ∧ (bag s = None → bag (for_each (convert_unit cfg) (seq a n) s).1 = None)
    ∧ ((for_each (convert_unit cfg) (seq a n) s).2 = Ok () → k = n).
Proof.
  revert a s. induction n as [|n IH]; intros a s.
  { exists 0, []. cbn [seq for_each]. unfold mret, M_ret. cbn [fst snd take fmap list_fmap].
    rewrite app_nil_r. split_and!; try done.
    - intros p Hp. by apply elem_of_nil in Hp.
    - exists []. by rewrite app_nil_r. }
  cbn [seq for_each]. rewrite M_bind_unfold.
  destruct (convert_unit_cases a s)
    as [[e ->]|(pathname & dataset & entries & l1 & l2 & s' & r & Hp & Hd & Ht & -> & Hn' & Hc' & Ho' & Hb')].
  { exists 0, []. cbn [fst snd take fmap list_fmap]. rewrite app_nil_r.
    split_and!; try done.
    - lia.
    - intros p Hin. by apply elem_of_nil in Hin.
    - exists []. by rewrite app_nil_r. }
  destruct r as [[]|e].
  2:{ exists 1, [(bag_path pathname, entries)]. cbn [fst snd].
      rewrite (drop_S _ pathname) by done. split_and!; try done.
      - lia.
      - by repeat constructor.
      - intros p Hin. apply list_elem_of_singleton in Hin as ->. by eexists.
      - by eexists [_; _]. }
  destruct (IH (S a) s') as (k & bags & Hk & Hc & Hf & Htb & Hr & (lines & Ho & Hlen) & Hb & Hok).
  exists (S k), ((bag_path pathname, entries) :: bags).
  rewrite Hc, Ho, Hc', Ho'. rewrite Hn' in Hf, Hr.
  rewrite (drop_S _ pathname a) by done. split_and!.
  - lia.
  - by rewrite <-app_assoc.
  - cbn [fmap list_fmap take fst]. f_equal. exact Hf.
  - by constructor.
  - intros p Hin. cbn [take] in Hin. apply elem_of_cons in Hin as [->|Hin]; [by eexists|].
    by apply Hr.
  - eexists (_ :: _ :: lines). rewrite <-app_assoc. split; [done|]. simpl. lia.
  - intros _. by apply Hb.
  - intros Hres. by rewrite Hok.
Qed.

Lemma run_outcome (pathnames : list string) :
  ∃ k bags,
    k ≤ length pathnames
    ∧ closed_bags (convert cfg (Waymo2Bag pathnames)).1 = bags
    ∧ fst <$> bags = bag_path <$> take k pathnames
    ∧ Forall (λ b, Forall (λ e, frame_topic cfg (e_topic e)) b.2) bags
    ∧ (∀ pathname, pathname ∈ take k pathnames → is_Ok (TFRecordDataset pathname))
    ∧ bag (convert cfg (Waymo2Bag pathnames)).1 = None
    ∧ head (stdout (convert cfg (Waymo2Bag pathnames)).1) = Some "start converting ..."
    ∧ length (stdout (convert cfg (Waymo2Bag pathnames)).1)
      = 2 * k + match (convert cfg (Waymo2Bag pathnames)).2 with Ok _ => 2 | Raise _ => 1 end
    ∧ ((convert cfg (Waymo2Bag pathnames)).2 = Ok () →
       k = length pathnames
       ∧ last (stdout (convert cfg (Waymo2Bag pathnames)).1) = Some "finished ..."
       ∧ static_tf_message (convert cfg (Waymo2Bag pathnames)).1 = None).
Proof.
  rewrite convert_unfold. cbn [Waymo2Bag tfrecord_pathnames print fst].
  match goal with |- context [for_each _ _ ?s'] => set (s0 := s') end.
  destruct (units_outcome (length pathnames) 0 s0)
    as (k & bags & Hk & Hc & Hf & Ht & Hr & (lines & Ho & Hlen) & Hb & Hok).
  pose proof (units_fresh cfg (seq 0 (length pathnames)) s0) as Hfresh.
  exists k, bags. cbn [s0 closed_bags stdout tfrecord_pathnames bag static_tf_message] in *.
  rewrite drop_0 in Hf, Hr.
  destruct (for_each (convert_unit cfg) (seq 0 (length pathnames)) s0) as [s1 [[]|e]];
    cbn [fst snd print closed_bags bag stdout static_tf_message] in *.
  - rewrite Ho, Hc. split_and!; try done.
    + by apply Hb.
    + rewrite length_app, length_app, Hlen. simpl. lia.
    + intros _. split_and!.
      * by apply Hok.
      * by rewrite last_snoc.
      * by eapply Hfresh.
  - rewrite Ho, Hc. split_and!; try done.
    + by apply Hb.
    + rewrite length_app, Hlen. simpl. lia.
Qed.

(** X6: the bags of a run are those of the first [k] pathnames, in their order
    and one each, all of them readable units; a run that succeeds has
    closed the bag of every pathname, and it alone prints the closing
    line; no bag is left open *)
Theorem run_closes_bags_in_order (pathnames : list string) :
  ∃ k,
    k ≤ length pathnames
    ∧ fst <$> closed_bags (convert cfg (Waymo2Bag pathnames)).1
      = bag_path <$> take k pathnames
    ∧ (∀ pathname, pathname ∈ take k pathnames → is_Ok (TFRecordDataset pathname))
    ∧ bag (convert cfg (Waymo2Bag pathnames)).1 = None
    ∧ head (stdout (convert cfg (Waymo2Bag pathnames)).1) = Some "start converting ..."
    ∧ length (stdout (convert cfg (Waymo2Bag pathnames)).1)
      = 2 * k + match (convert cfg (Waymo2Bag pathnames)).2 with Ok _ => 2 | Raise _ => 1 end
    ∧ ((convert cfg (Waymo2Bag pathnames)).2 = Ok () →
       k = length pathnames
       ∧ last (stdout (convert cfg (Waymo2Bag pathnames)).1) = Some "finished ..."
       ∧ static_tf_message (convert cfg (Waymo2Bag pathnames)).1 = None).
Proof.
  destruct (run_outcome pathnames) as (k & bags & Hk & <- & Hf & _ & Hrest).
  by exists k.
Qed.

(** X7: every message of every bag of a run is on the odometry topic, the
    static transform topic, the cloud topic of a selected sensor or one of
    the two topics of the front camera; none is on [/tf] *)
Theorem run_topics (pathnames : list string) path entries e :
  (path, entries) ∈ closed_bags (convert cfg (Waymo2Bag pathnames)).1 →
  e ∈ entries →
  frame_topic cfg (e_topic e) ∧ e_topic e ≠ "/tf".
Proof.
  destruct (run_outcome pathnames) as (k & bags & _ & <- & _ & Ht & _).
  intros Hin He. rewrite Forall_forall in Ht. specialize (Ht _ Hin).
  rewrite Forall_forall in Ht. specialize (Ht _ He).
  split; [done|]. by eapply frame_topic_ne_tf.
Qed.

End RunFacts.

(** ** The messages of one frame *)

Lemma for_each_one_each {A} (Q : A → Entry → Prop) (f : A → M unit) (l : list A) :
  (∀ x s path entries s',
     bag s = Some (path, entries) → f x s = (s', Ok ()) →
     ∃ e, bag s' = Some (path, entries ++ [e]) ∧ Q x e) →
  ∀ s path entries s',
    bag s = Some (path, entries) → for_each f l s = (s', Ok ()) →
    ∃ new, bag s' = Some (path, entries ++ new) ∧ Forall2 Q l new.
Proof.
  intros Hf. induction l as [|x l IH]; intros s path entries s' Hb; simpl.
  - intros [= <-]. exists []. by rewrite app_nil_r.
  - rewrite M_bind_unfold. destruct (f x s) as [s1 [[]|e]] eqn:Hx; [|done].
    intros Hl. destruct (Hf x s path entries s1 Hb Hx) as (e & Hb1 & He).
    destruct (IH s1 path _ s' Hb1 Hl) as (new & Hb' & Hnew).
    exists (e :: new). rewrite Hb', <-app_assoc. split; [done|]. by constructor.
Qed.

Section FrameFacts.
Context `{Library} (cfg : Config).

Lemma write_odom_Ok frame timestamp s s' path entries :
  bag s = Some (path, entries) →
  write_odom frame timestamp s = (s', Ok ()) →
  ∃ m t q,
    np_reshape_4_4 (Frame.pose_transform frame) = Ok m
    ∧ translation_from_matrix m = Ok t
    ∧ quaternion_from_matrix m = Ok q
    ∧ s' = set_bag (Some (path, entries ++
             [{| e_topic := "/odom";
                 e_msg := MOdometry {| Odometry.frame_id := "map";
                                       Odometry.stamp := timestamp;
                                       Odometry.child_frame_id := "base_link";
                                       Odometry.position := t;
                                       Odometry.orientation := q |};
                 e_t := timestamp |}])) s.
Proof.
  intros Hb. unfold write_odom. rewrite lift_bind.
  destruct (np_reshape_4_4 _) as [m|e]; [|done]. rewrite lift_bind.
  unfold to_transform.
  destruct (translation_from_matrix m) as [t|e] eqn:Ht; simpl; [|done].
  destruct (quaternion_from_matrix m) as [q|e] eqn:Hq; simpl; [|done].
  unfold bag_write. rewrite Hb. intros [= <-]. by exists m, t, q.
Qed.

Lemma write_sensor_cloud_one d timestamp sensor s path entries s' :
  bag s = Some (path, entries) →
  write_sensor_cloud cfg d timestamp sensor s = (s', Ok ()) →
  ∃ e, bag s' = Some (path, entries ++ [e]) ∧ e_topic e = cloud_topic sensor.2.
Proof.
  intros Hb. unfold write_sensor_cloud. rewrite lift_bind.
  destruct (assemble_cloud cfg d sensor.1) as [points|e]; [|done].
  unfold write_points_to_bag. rewrite lift_bind.
  destruct (create_cloud _ _ _ _) as [pcl_msg|e]; [|done].
  unfold bag_write. rewrite Hb. intros [= <-]. by eexists.
Qed.

Lemma write_point_cloud_Ok frame timestamp s path entries s' :
  bag s = Some (path, entries) →
  write_point_cloud cfg frame timestamp s = (s', Ok ()) →
  ∃ clouds,
    bag s' = Some (path, entries ++ clouds)
    ∧ e_topic <$> clouds = (λ sensor, cloud_topic sensor.2) <$> SELECTED_LIDAR_SENSOR cfg.
Proof.
  intros Hb. unfold write_point_cloud. rewrite lift_bind.
  destruct (parse_range_image_and_camera_projection frame) as [parsed|e]; [|done].
  rewrite lift_bind.
  destruct (convert_range_image_to_point_cloud _ _ _ _ _ _) as [d|e]; [|done].
  intros Hl.
  destruct (for_each_one_each (λ sensor e, e_topic e = cloud_topic sensor.2)
              (write_sensor_cloud cfg d timestamp) (SELECTED_LIDAR_SENSOR cfg)
              (λ x s0 p es s1, write_sensor_cloud_one d timestamp x s0 p es s1)
              s path entries s' Hb Hl) as (new & Hb' & Hnew).
  exists new. split; [done|].
  clear -Hnew. induction Hnew as [|sensor e l new He _ IH]; [done|].
  rewrite !fmap_cons. by f_equal.
Qed.

(** X8: a frame that converts appends, in this order: its odometry message, the
    static transform message if it is the first frame of the unit to get
    that far, one cloud per selected sensor in the order of the
    configuration, one image per front image, one camera info per front
    calibration *)
Theorem frame_messages_in_order data frame s path entries s' :
  ParseFromString data = Ok frame →
  bag s = Some (path, entries) →
  convert_frame cfg data s = (s', Ok ()) →
  ∃ odom tfs clouds images infos,
    bag s' = Some (path, entries ++ odom :: tfs ++ clouds ++ images ++ infos)
    ∧ e_topic odom = "/odom"
    ∧ match static_tf_message s with
      | None => ∃ m, static_transforms frame = Ok m
                     ∧ tfs = [tf_static_entry m (stamp_of_micros (Frame.timestamp_micros frame))]
      | Some _ => tfs = []
      end
    ∧ e_topic <$> clouds = (λ sensor, cloud_topic sensor.2) <$> SELECTED_LIDAR_SENSOR cfg
    ∧ Forall front_image images
    ∧ length images = front_count (CameraImage.name <$> Frame.images frame)
    ∧ Forall front_camera_info infos
    ∧ length infos = front_count (CameraCalibration.name <$> Frame.camera_calibrations frame).
Proof.
  intros Hp Hb. rewrite convert_frame_unfold, Hp. case_decide; [done|]. cbv zeta.
  set (timestamp := stamp_of_micros (Frame.timestamp_micros frame)).
  destruct (write_odom frame timestamp s) as [s1 [[]|e]] eqn:Hodom; [|done].
  apply (write_odom_Ok _ _ _ _ path entries) in Hodom as (m & t & q & _ & _ & _ & Hs1);
    [|done].
  match type of Hs1 with context [entries ++ [?e]] => set (odom := e) in * end.
  assert (bag s1 = Some (path, entries ++ [odom])) as Hb1 by (by rewrite Hs1).
  assert (static_tf_message s1 = static_tf_message s) as Hst1 by (by rewrite Hs1).
  destruct (write_tf_static frame timestamp s1) as [s2 [[]|e]] eqn:Htf; [|done].
  assert (∃ tfs, bag s2 = Some (path, (entries ++ [odom]) ++ tfs)
                 ∧ match static_tf_message s with
                   | None => ∃ m, static_transforms frame = Ok m
                                  ∧ tfs = [tf_static_entry m timestamp]
                   | Some _ => tfs = []
                   end) as (tfs & Hb2 & Htfs).
  { rewrite <-Hst1. destruct (static_tf_message s1) as [first|] eqn:Hfirst.
    - exists []. pose proof (write_tf_static_later frame timestamp first s1 Hfirst) as Hl.
      rewrite Htf in Hl. simpl in Hl. subst s2. by rewrite app_nil_r.
    - destruct (static_transforms frame) as [msg|e] eqn:Hm.
      + rewrite (write_tf_static_first frame timestamp msg s1 path (entries ++ [odom]))
          in Htf by done.
        injection Htf as <-. exists [tf_static_entry msg timestamp].
        split; [done|]. by exists msg.
      + unfold write_tf_static in Htf. by rewrite lift_bind, Hm in Htf. }
  unfold rest_of_frame. rewrite M_bind_unfold.
  destruct (write_point_cloud cfg frame timestamp s2) as [s3 [[]|e]] eqn:Hcloud; [|done].
  apply (write_point_cloud_Ok _ _ _ path ((entries ++ [odom]) ++ tfs)) in Hcloud
    as (clouds & Hb3 & Hclouds); [|done].
  rewrite M_bind_unfold.
  pose proof (grows_for_each front_image (λ image, weight (CameraImage.name image))
                (write_one_image timestamp) (Frame.images frame)
                (grows_write_one_image timestamp) s3 path _ Hb3)
    as (images & Hb4 & Himages & _ & Hcount).
  fold (write_image frame timestamp) in Hb4, Hcount.
  destruct (write_image frame timestamp s3) as [s4 [[]|e]]; [|done].
  cbn [fst snd] in Hb4, Hcount.
  pose proof (grows_for_each front_camera_info (λ cc, weight (CameraCalibration.name cc))
                (write_one_camera_info timestamp) (Frame.camera_calibrations frame)
                (grows_write_one_camera_info timestamp) s4 path _ Hb4)
    as (infos & Hb5 & Hinfos & _ & Hcount').
  fold (write_camera_info frame timestamp) in Hb5, Hcount'.
  intros Hlast. rewrite Hlast in Hb5, Hcount'. cbn [fst snd] in Hb5, Hcount'.
  exists odom, tfs, clouds, images, infos. split_and!; try done.
  - rewrite Hb5. f_equal. f_equal. rewrite <-!app_assoc. done.
  - rewrite Hcount by done. by rewrite <-sum_weight, <-list_fmap_compose.
  - rewrite Hcount' by done. by rewrite <-sum_weight, <-list_fmap_compose.
Qed.

End FrameFacts.

(** ** The vehicle pose: odometry and transform *)

Section PoseFacts.
Context `{Library} (cfg : Config).

Lemma np_reshape_4_4_Ok (l : list float) (m : Matrix) :
  np_reshape_4_4 l = Ok m ↔ length l = 16 ∧ m = chunks 4 4 l.
Proof.
  unfold np_reshape_4_4. case_decide; split.
  - by intros [= <-].
  - by intros [_ ->].
  - done.
  - by intros [? _].
Qed.

Lemma write_odom_unfold frame timestamp s :
  write_odom frame timestamp s
  = match np_reshape_4_4 (Frame.pose_transform frame) with
    | Raise e => (s, Raise e)
    | Ok m =>
        match translation_from_matrix m with
        | Raise e => (s, Raise e)
        | Ok t =>
            match quaternion_from_matrix m with
            | Raise e => (s, Raise e)
            | Ok q => bag_write "/odom" (e_msg (odom_entry timestamp t q)) timestamp s
            end
        end
    end.
Proof.
  unfold write_odom. rewrite lift_bind.
  destruct (np_reshape_4_4 _) as [m|e]; [|done]. rewrite lift_bind.
  unfold to_transform.
  destruct (translation_from_matrix m) as [t|e]; simpl; [|done].
  by destruct (quaternion_from_matrix m) as [q|e].
Qed.

Lemma write_tf_unfold frame timestamp s :
  write_tf frame timestamp s
  = match np_reshape_4_4 (Frame.pose_transform frame) with
    | Raise e => (s, Raise e)
    | Ok m =>
        match translation_from_matrix m with
        | Raise e => (s, Raise e)
        | Ok t =>
            match quaternion_from_matrix m with
            | Raise e => (s, Raise e)
            | Ok q => bag_write "/tf" (e_msg (tf_entry timestamp t q)) timestamp s
            end
        end
    end.
Proof.
  unfold write_tf. rewrite lift_bind.
  destruct (np_reshape_4_4 _) as [m|e]; [|done]. cbv zeta. rewrite lift_bind.
  unfold to_transform. simpl.
  destruct (translation_from_matrix m) as [t|e]; simpl; [|done].
  by destruct (quaternion_from_matrix m) as [q|e].
Qed.

(** X9: on an open bag [write_odom] writes one message, whose position and
    orientation are the translation and the quaternion of the 4 x 4 pose of
    the frame, or fails and writes nothing; a pose that does not hold 16
    numbers is a [ValueError] of [write_odom]; the conversion of such a frame
    writes nothing and ends with that [ValueError], or with the [TypeError]
    of a negative timestamp, which is raised before *)
Theorem odometry_from_pose frame timestamp s path entries :
  bag s = Some (path, entries) →
  (∀ s', write_odom frame timestamp s = (s', Ok ()) →
     ∃ t q,
       length (Frame.pose_transform frame) = 16
       ∧ translation_from_matrix (chunks 4 4 (Frame.pose_transform frame)) = Ok t
       ∧ quaternion_from_matrix (chunks 4 4 (Frame.pose_transform frame)) = Ok q
       ∧ s' = set_bag (Some (path, entries ++ [odom_entry timestamp t q])) s)
  ∧ (∀ s' e, write_odom frame timestamp s = (s', Raise e) → s' = s)
  ∧ (length (Frame.pose_transform frame) ≠ 16 →
     write_odom frame timestamp s = (s, Raise ValueError)
     ∧ ∀ data, ParseFromString data = Ok frame →
         convert_frame cfg data s
         = (s, Raise (if decide (Frame.timestamp_micros frame < 0)%Z
                      then TypeError else ValueError))).
Proof.
  intros Hb. split_and!.
  - intros s'. rewrite write_odom_unfold.
    destruct (np_reshape_4_4 _) as [m|e] eqn:Hm; [|done].
    apply np_reshape_4_4_Ok in Hm as [Hlen ->].
    destruct (translation_from_matrix _) as [t|e]; [|done].
    destruct (quaternion_from_matrix _) as [q|e]; [|done].
    unfold bag_write. rewrite Hb. intros [= <-]. by exists t, q.
  - intros s' e. rewrite write_odom_unfold.
    destruct (np_reshape_4_4 _) as [m|e1]; [|by intros [= <- _]].
    destruct (translation_from_matrix _) as [t|e1]; [|by intros [= <- _]].
    destruct (quaternion_from_matrix _) as [q|e1]; [|by intros [= <- _]].
    unfold bag_write. by rewrite Hb.
  - intros Hlen.
    assert (write_odom frame timestamp s = (s, Raise ValueError)) as Hodom.
    { rewrite write_odom_unfold. unfold np_reshape_4_4. by rewrite decide_False. }
    split; [done|]. intros data Hp. rewrite convert_frame_unfold, Hp.
    case_decide; [done|]. cbv zeta.
    rewrite write_odom_unfold. unfold np_reshape_4_4. by rewrite decide_False.
Qed.

(** X10: [write_tf] succeeds on the frames on which [write_odom] does; it writes
    one message on [/tf], holding the one transform from [map] to
    [base_link], stamped with the time of the frame, whose translation and
    rotation are the position and the orientation of the odometry message *)
Theorem write_tf_agrees_with_odom frame timestamp s path entries :
  bag s = Some (path, entries) →
  (write_tf frame timestamp s).2 = (write_odom frame timestamp s).2
  ∧ (∀ e, (write_tf frame timestamp s).2 = Raise e → (write_tf frame timestamp s).1 = s)
  ∧ ((write_tf frame timestamp s).2 = Ok () →
     ∃ t q,
       write_tf frame timestamp s
       = (set_bag (Some (path, entries ++ [tf_entry timestamp t q])) s, Ok ())
       ∧ write_odom frame timestamp s
         = (set_bag (Some (path, entries ++ [odom_entry timestamp t q])) s, Ok ())).
Proof.
  intros Hb. rewrite write_tf_unfold, write_odom_unfold.
  destruct (np_reshape_4_4 _) as [m|e1]; [|by split_and!].
  destruct (translation_from_matrix _) as [t|e1]; [|by split_and!].
  destruct (quaternion_from_matrix _) as [q|e1]; [|by split_and!].
  unfold bag_write. rewrite Hb. split_and!; try done.
  intros _. by exists t, q.
Qed.

End PoseFacts.

(** ** The camera info of the front camera *)

Section CameraInfoFacts.
Context `{Library}.

(** X11: for a calibration of the front camera with at least four intrinsic
    values, the camera info holds K = [fx 0 cx; 0 fy cy; 0 0 1] built from
    the first four, P = K with a zero fourth column, R the identity and D
    the values after the fourth; with fewer than four values the writer
    raises [IndexError] and writes nothing *)
Theorem camera_info_of_front_calibration timestamp cc s path entries :
  camera_frame_name (CameraCalibration.name cc) = Ok "front" →
  bag s = Some (path, entries) →
  (length (CameraCalibration.intrinsic cc) < 4 →
   write_one_camera_info timestamp cc s = (s, Raise IndexError))
  ∧ (4 ≤ length (CameraCalibration.intrinsic cc) →
     ∃ m fx fy cx cy,
       write_one_camera_info timestamp cc s
       = (set_bag (Some (path, entries ++
            [{| e_topic := "/camera/front/camera_info"; e_msg := MCameraInfo m;
                e_t := timestamp |}])) s, Ok ())
       ∧ take 4 (CameraCalibration.intrinsic cc) = [fx; fy; cx; cy]
       ∧ chunks 3 3 (CameraInfo.K m) = [[fx; 0; cx]; [0; fy; cy]; [0; 0; 1]]%float
       ∧ chunks 4 3 (CameraInfo.P m) = (λ row, row ++ [0%float]) <$> chunks 3 3 (CameraInfo.K m)
       ∧ chunks 3 3 (CameraInfo.R m) = [[1; 0; 0]; [0; 1; 0]; [0; 0; 1]]%float
       ∧ CameraInfo.D m = drop 4 (CameraCalibration.intrinsic cc)
       ∧ CameraInfo.width m = CameraCalibration.width cc
       ∧ CameraInfo.height m = CameraCalibration.height cc
       ∧ CameraInfo.frame_id m = "front"
       ∧ CameraInfo.stamp m = timestamp
       ∧ CameraInfo.distortion_model m = "plumb_bob").
Proof.
  intros Hn Hb. unfold write_one_camera_info. split.
  - intros Hlen. rewrite lift_bind, Hn. rewrite decide_False by (by intros ?). cbv zeta.
    destruct (CameraCalibration.intrinsic cc) as [|fx [|fy [|cx [|cy rest]]]]; simpl in Hlen;
      try lia; by rewrite ?lift_bind.
  - intros Hlen. rewrite lift_bind, Hn. rewrite decide_False by (by intros ?). cbv zeta.
    destruct (CameraCalibration.intrinsic cc) as [|fx [|fy [|cx [|cy rest]]]]; simpl in Hlen;
      try lia.
    eexists _, fx, fy, cx, cy. split.
    { do 4 (rewrite lift_bind; simpl). unfold bag_write. rewrite Hb. reflexivity. }
    by split_and!.
Qed.

End CameraInfoFacts.

(** ** Static transforms holding a NaN *)

Lemma RosTime_eqb_refl (t : RosTime) : RosTime_eqb t t = true.
Proof. unfold RosTime_eqb. by rewrite !bool_decide_eq_true_2. Qed.

Lemma TransformStamped_eqb_refl (x : TransformStamped.t) :
  TransformStamped_eqb x x = negb (existsb PrimFloat.is_nan (floats_of x)).
Proof.
  unfold TransformStamped_eqb, floats_of, PrimFloat.is_nan. simpl.
  rewrite RosTime_eqb_refl, !String.eqb_refl. simpl.
  repeat match goal with |- context [PrimFloat.eqb ?a ?a] => destruct (PrimFloat.eqb a a) end;
    reflexivity.
Qed.

Lemma TFMessage_eqb_refl (m : TFMessage) : TFMessage_eqb m m = negb (has_nan m).
Proof.
  induction m as [|x m IH]; [done|]. simpl.
  rewrite TransformStamped_eqb_refl, IH. by rewrite negb_orb.
Qed.

Section NaNFacts.
Context `{Library}.

(** X12: a static transform message equals itself unless one of its numbers is
    a NaN; so the frames after the first, on an unchanged calibration, pass
    the comparison when the transforms hold no NaN and raise
    [AssertionError] when they hold one *)
Theorem static_transform_with_nan (m : TFMessage) :
  TFMessage_eqb m m = negb (has_nan m)
  ∧ ∀ frame timestamp s,
      static_transforms frame = Ok m →
      static_tf_message s = Some m →
      write_tf_static frame timestamp s
      = (s, if has_nan m then Raise AssertionError else Ok ()).
Proof.
  split; [apply TFMessage_eqb_refl|].
  intros frame timestamp s Hm Hs. unfold write_tf_static. rewrite lift_bind, Hm.
  rewrite M_bind_unfold. unfold get_static_tf_message. rewrite Hs.
  rewrite TFMessage_eqb_refl. by destruct (has_nan m).
Qed.

End NaNFacts.

(** ** The order of the calibrations *)

Lemma insert_by_name_sorted c l :
  Sorted by_name l → Sorted by_name (insert_by_name c l).
Proof.
  induction 1 as [|d l Hl IH Hd]; simpl.
  - by repeat constructor.
  - case_decide as Hcd.
    + constructor; [by constructor|]. by constructor.
    + constructor; [done|].
      destruct l as [|d' l]; simpl in *.
      * constructor. unfold by_name. lia.
      * case_decide.
        -- constructor. unfold by_name. lia.
        -- constructor. by inversion Hd.
Qed.

Lemma sorted_by_name_sorted l : Sorted by_name (sorted_by_name l).
Proof.
  induction l as [|c l IH]; simpl; [constructor|]. by apply insert_by_name_sorted.
Qed.

Lemma NoDup_fmap_inj_on {A B} (f : A → B) (l : list A) (x y : A) :
  NoDup (f <$> l) → x ∈ l → y ∈ l → f x = f y → x = y.
Proof.
  induction l as [|a l IH]; intros Hnd Hx Hy Hxy; [by apply elem_of_nil in Hx|].
  rewrite fmap_cons in Hnd. apply NoDup_cons in Hnd as [Ha Hnd].
  apply elem_of_cons in Hx as [->|Hx], Hy as [->|Hy]; try done.
  - destruct Ha. rewrite Hxy. by apply list_elem_of_fmap_2.
  - destruct Ha. rewrite <-Hxy. by apply list_elem_of_fmap_2.
  - by apply IH.
Qed.

Lemma sorted_by_name_unique l1 l2 :
  l1 ≡ₚ l2 → NoDup (LaserCalibration.name <$> l2) →
  sorted_by_name l1 = sorted_by_name l2.
Proof.
  intros Hperm Hnd.
  apply (Sorted_unique_strong by_name); try apply sorted_by_name_sorted.
  - intros x1 x2 Hx1 Hx2 H12 H21. rewrite sorted_by_name_perm in Hx1, Hx2.
    rewrite Hperm in Hx1. apply (NoDup_fmap_inj_on LaserCalibration.name l2); try done.
    unfold by_name in *. lia.
  - by rewrite !sorted_by_name_perm.
Qed.

Section EngineMore.
Context `{Library} (cfg : Config).

(** X13: the dictionary of results does not depend on the order in which the
    frame lists its laser calibrations, when their names are distinct *)
Theorem calibration_order_irrelevant frame frame' ris cps top ri_indexes :
  Frame.pose_transform frame' = Frame.pose_transform frame →
  Frame.laser_calibrations frame' ≡ₚ Frame.laser_calibrations frame →
  NoDup (LaserCalibration.name <$> Frame.laser_calibrations frame) →
  convert_range_image_to_point_cloud cfg frame' ris cps top ri_indexes
  = convert_range_image_to_point_cloud cfg frame ris cps top ri_indexes.
Proof.
  intros Hpose Hperm Hnd. unfold convert_range_image_to_point_cloud.
  by rewrite Hpose, (sorted_by_name_unique _ _ Hperm Hnd).
Qed.

(** *** What a conversion that succeeds has found *)

Lemma foldM_Ok_each {A B} (f : B → A → Res B) (b b' : B) (l : list A) (x : A) :
  foldM f b l = Ok b' → x ∈ l → ∃ b1 b2, f b1 x = Ok b2.
Proof.
  revert b. induction l as [|y l IH]; intros b Hf Hx; [by apply elem_of_nil in Hx|].
  simpl in Hf. apply bind_Ok in Hf as (b1 & Hy & Hf).
  apply elem_of_cons in Hx as [->|Hx]; [by eexists _, _|]. by eapply IH.
Qed.

Lemma range_image_mask_depth t mask :
  range_image_mask cfg t = Ok mask →
  if FILTER_NO_LABEL_ZONE_POINTS cfg then 4 ≤ depth t else 1 ≤ depth t.
Proof.
  unfold range_image_mask. intros Hm.
  apply bind_Ok in Hm as (rng & [H0 _]%channel_Ok & Hm).
  destruct (FILTER_NO_LABEL_ZONE_POINTS cfg); [|lia].
  apply bind_Ok in Hm as (nlz & [H3 _]%channel_Ok & _). lia.
Qed.

Lemma convert_one_needs range_images tp frame_pose c ri out :
  convert_one cfg range_images tp frame_pose c ri = Ok out →
  length (LaserCalibration.extrinsic_transform c) = 16
  ∧ ∃ images image t,
      range_images !! LaserCalibration.name c = Some images
      ∧ images !! ri = Some image
      ∧ tf_reshape (data image) (shape_dims image) = Ok t
      ∧ 2 ≤ depth t
      ∧ (FILTER_NO_LABEL_ZONE_POINTS cfg = true → 4 ≤ depth t).
Proof.
  intros Hc. apply convert_one_Ok in Hc
    as (images & image & beam & ex & t & Hris & Hri & _ & Hex & Ht & Hp).
  apply np_reshape_4_4_Ok in Hex as [Hex _]. split; [done|].
  exists images, image, t. split_and!; try done.
  - unfold project_and_gather in Hp.
    apply bind_Ok in Hp as (mask & _ & Hp). apply bind_Ok in Hp as (rng & _ & Hp).
    apply bind_Ok in Hp as (batch & _ & Hp). apply bind_Ok in Hp as (cart & _ & Hp).
    apply bind_Ok in Hp as (pts & _ & Hp).
    apply bind_Ok in Hp as (ch1 & [H1 _]%channel_Ok & _). lia.
  - intros Hfilter. unfold project_and_gather in Hp.
    apply bind_Ok in Hp as (mask & Hmask%range_image_mask_depth & _).
    by rewrite Hfilter in Hmask.
Qed.

(** X14: a conversion that succeeds has found, for every laser calibration of
    the frame, a 16-number extrinsic and both returns among the range images,
    each of a shape [H, W, C] that fits its data, with at least two
    channels, and four when the no-label zone is filtered; the pose of the
    frame holds 16 numbers *)
Theorem conversion_needs_every_calibration frame ris cps top d :
  convert_range_image_to_point_cloud cfg frame ris cps top [0; 1] = Ok d →
  length (Frame.pose_transform frame) = 16
  ∧ ∀ c, c ∈ Frame.laser_calibrations frame →
      length (LaserCalibration.extrinsic_transform c) = 16
      ∧ ∃ images,
          ris !! LaserCalibration.name c = Some images
          ∧ 2 ≤ length images
          ∧ ∀ image, image ∈ take 2 images →
              ∃ t, tf_reshape (data image) (shape_dims image) = Ok t
                   ∧ 2 ≤ depth t
                   ∧ (FILTER_NO_LABEL_ZONE_POINTS cfg = true → 4 ≤ depth t).
Proof.
  unfold convert_range_image_to_point_cloud. intros Hc.
  apply bind_Ok in Hc as (frame_pose & [Hpose _]%np_reshape_4_4_Ok & Hc).
  apply bind_Ok in Hc as (tp & _ & Hc). split; [done|].
  intros c Hin. rewrite <-sorted_by_name_perm in Hin.
  destruct (foldM_Ok_each _ _ _ _ c Hc Hin) as (d1 & d2 & Hinner).
  simpl in Hinner. apply bind_Ok in Hinner as (da & Ha0 & Hinner).
  apply bind_Ok in Hinner as (db & Ha1 & _).
  unfold append_return in Ha0, Ha1.
  apply bind_Ok in Ha0 as (out0 & H0 & _). apply bind_Ok in Ha1 as (out1 & H1 & _).
  apply convert_one_needs in H0 as (Hex & images & image0 & t0 & Hris & Hi0 & Ht0 & Hd0 & Hf0).
  apply convert_one_needs in H1 as (_ & images' & image1 & t1 & Hris' & Hi1 & Ht1 & Hd1 & Hf1).
  rewrite Hris in Hris'. injection Hris' as <-.
  split; [done|]. exists images. split_and!; try done.
  - apply lookup_lt_Some in Hi1. lia.
  - destruct images as [|i0 [|i1 rest]]; try done.
    simpl in Hi0, Hi1. injection Hi0 as ->. injection Hi1 as ->.
    intros image Himage. simpl in Himage.
    apply elem_of_cons in Himage as [->|Himage]; [by exists t0|].
    apply list_elem_of_singleton in Himage as ->. by exists t1.
Qed.

End EngineMore.

(** ** What the dictionary holds for a sensor *)

Lemma key_suffix_return (a b : Z) (r ri : nat) :
  r ∈ [0; 1] → ri ∈ [0; 1] → key_suffix a r = key_suffix b ri → r = ri.
Proof.
  intros Hr Hri Heq.
  assert (a = b) as -> by exact (key_suffix_inj a b r ri Hr Hri Heq).
  unfold key_suffix in Heq. apply (inj (String.app _)) in Heq.
  apply (inj (String.app _)) in Heq. by apply (inj pretty) in Heq.
Qed.

Lemma key_inj (a b : Z) (r ri : nat) :
  r ∈ [0; 1] → ri ∈ [0; 1] →
  (points_key a r = points_key b ri → a = b ∧ r = ri)
  ∧ (intensity_key a r = intensity_key b ri → a = b ∧ r = ri)
  ∧ points_key a r ≠ intensity_key b ri.
Proof.
  intros Hr Hri. unfold points_key, intensity_key. split_and!.
  - intros Heq. apply (inj (String.app _)) in Heq.
    split; [exact (key_suffix_inj a b r ri Hr Hri Heq)
           |exact (key_suffix_return a b r ri Hr Hri Heq)].
  - intros Heq. apply (inj (String.app _)) in Heq.
    split; [exact (key_suffix_inj a b r ri Hr Hri Heq)
           |exact (key_suffix_return a b r ri Hr Hri Heq)].
  - apply points_key_ne_intensity_key.
Qed.

Section DictionaryFacts.
Context `{Library} (cfg : Config).

(** the arrays one calibration appends, return by return *)
Lemma append_returns_get range_images tp frame_pose c d d' :
  foldM (append_return cfg range_images tp frame_pose c) d [0; 1] = Ok d' →
  ∃ p0 x0 p1 x1,
    convert_one cfg range_images tp frame_pose c 0 = Ok (p0, x0)
    ∧ convert_one cfg range_images tp frame_pose c 1 = Ok (p1, x1)
    ∧ dd_get d' (points_key (LaserCalibration.name c) 0)
      = dd_get d (points_key (LaserCalibration.name c) 0) ++ [Points p0]
    ∧ dd_get d' (intensity_key (LaserCalibration.name c) 0)
      = dd_get d (intensity_key (LaserCalibration.name c) 0) ++ [Scalars x0]
    ∧ dd_get d' (points_key (LaserCalibration.name c) 1)
      = dd_get d (points_key (LaserCalibration.name c) 1) ++ [Points p1]
    ∧ dd_get d' (intensity_key (LaserCalibration.name c) 1)
      = dd_get d (intensity_key (LaserCalibration.name c) 1) ++ [Scalars x1]
    ∧ ∀ n ri, n ≠ LaserCalibration.name c → ri ∈ [0; 1] →
        dd_get d' (points_key n ri) = dd_get d (points_key n ri)
        ∧ dd_get d' (intensity_key n ri) = dd_get d (intensity_key n ri).
Proof.
  simpl. intros Hf. apply bind_Ok in Hf as (da & Ha0 & Hf).
  apply bind_Ok in Hf as (db & Ha1 & [= <-]).
  unfold append_return in Ha0, Ha1.
  apply bind_Ok in Ha0 as ([p0 x0] & H0 & [= <-]).
  apply bind_Ok in Ha1 as ([p1 x1] & H1 & [= <-]).
  exists p0, x0, p1, x1.
  assert (0 ∈ [0; 1]) as I0 by (by left).
  assert (1 ∈ [0; 1]) as I1 by (by right; left).
  set (n := LaserCalibration.name c).
  destruct (key_inj n n 0 1 I0 I1) as (P01 & X01 & PX01).
  destruct (key_inj n n 1 0 I1 I0) as (P10 & X10 & PX10).
  destruct (key_inj n n 0 0 I0 I0) as (_ & _ & PX00).
  destruct (key_inj n n 1 1 I1 I1) as (_ & _ & PX11).
  split_and!; try done.
  - rewrite !dd_get_append.
    rewrite (decide_False (P:=intensity_key n 1 = _)) by (intros ?; by destruct PX01).
    rewrite (decide_False (P:=points_key n 1 = _)) by (intros [_ [=]]%P10).
    rewrite (decide_False (P:=intensity_key n 0 = _)) by (intros ?; by destruct PX00).
    by rewrite decide_True.
  - rewrite !dd_get_append.
    rewrite (decide_False (P:=intensity_key n 1 = _)) by (intros [_ [=]]%X10).
    rewrite (decide_False (P:=points_key n 1 = _)) by (intros ?; by destruct PX10).
    by rewrite decide_True.
  - rewrite !dd_get_append.
    rewrite (decide_False (P:=intensity_key n 1 = _)) by (intros ?; by destruct PX11).
    rewrite decide_True by done. f_equal.
    rewrite (decide_False (P:=intensity_key n 0 = _)) by (intros ?; by destruct PX10).
    by rewrite (decide_False (P:=points_key n 0 = _)) by (intros [_ [=]]%P01).
  - rewrite !dd_get_append. rewrite decide_True by done. f_equal.
    rewrite (decide_False (P:=points_key n 1 = _)) by (intros ?; by destruct PX11).
    rewrite (decide_False (P:=intensity_key n 0 = _)) by (intros [_ [=]]%X01).
    by rewrite (decide_False (P:=points_key n 0 = _)) by (intros ?; by destruct PX01).
  - intros m ri Hm Hri. rewrite !dd_get_append.
    destruct (key_inj n m 0 ri I0 Hri) as (Pa & Xa & PXa).
    destruct (key_inj n m 1 ri I1 Hri) as (Pb & Xb & PXb).
    destruct (key_inj m n ri 0 Hri I0) as (_ & _ & PXc).
    destruct (key_inj m n ri 1 Hri I1) as (_ & _ & PXd).
    split.
    + rewrite (decide_False (P:=intensity_key n 1 = _)) by (intros ?; by destruct PXd).
      rewrite (decide_False (P:=points_key n 1 = _)) by (intros [? _]%Pb; by destruct Hm).
      rewrite (decide_False (P:=intensity_key n 0 = _)) by (intros ?; by destruct PXc).
      by rewrite (decide_False (P:=points_key n 0 = _)) by (intros [? _]%Pa; by destruct Hm).
    + rewrite (decide_False (P:=intensity_key n 1 = _)) by (intros [? _]%Xb; by destruct Hm).
      rewrite (decide_False (P:=points_key n 1 = _)) by (intros ?; by destruct PXb).
      rewrite (decide_False (P:=intensity_key n 0 = _)) by (intros [? _]%Xa; by destruct Hm).
      by rewrite (decide_False (P:=points_key n 0 = _)) by (intros ?; by destruct PXa).
Qed.

(** the arrays of a sensor after all the calibrations of [l], whose names
    are distinct *)
Lemma calibrations_get range_images tp frame_pose (l : list LaserCalibration.t) d d' c :
  NoDup (LaserCalibration.name <$> l) →
  foldM (λ ret_dict c, foldM (append_return cfg range_images tp frame_pose c) ret_dict [0; 1])
    d l = Ok d' →
  c ∈ l →
  ∃ p0 x0 p1 x1,
    convert_one cfg range_images tp frame_pose c 0 = Ok (p0, x0)
    ∧ convert_one cfg range_images tp frame_pose c 1 = Ok (p1, x1)
    ∧ dd_get d' (points_key (LaserCalibration.name c) 0)
      = dd_get d (points_key (LaserCalibration.name c) 0) ++ [Points p0]
    ∧ dd_get d' (intensity_key (LaserCalibration.name c) 0)
      = dd_get d (intensity_key (LaserCalibration.name c) 0) ++ [Scalars x0]
    ∧ dd_get d' (points_key (LaserCalibration.name c) 1)
      = dd_get d (points_key (LaserCalibration.name c) 1) ++ [Points p1]
    ∧ dd_get d' (intensity_key (LaserCalibration.name c) 1)
      = dd_get d (intensity_key (LaserCalibration.name c) 1) ++ [Scalars x1].
Proof.
  revert d. induction l as [|a l IH]; intros d Hnd Hf Hc; [by apply elem_of_nil in Hc|].
  rewrite fmap_cons in Hnd. apply NoDup_cons in Hnd as [Ha Hnd].
  cbn [foldM] in Hf. apply bind_Ok in Hf as (d1 & H1 & Hf).
  destruct (append_returns_get _ _ _ _ _ _ H1)
    as (p0 & x0 & p1 & x1 & Hc0 & Hc1 & Hp0 & Hx0 & Hp1 & Hx1 & Hother).
  assert (0 ∈ [0; 1]) as I0 by (by left).
  assert (1 ∈ [0; 1]) as I1 by (by right; left).
  apply elem_of_cons in Hc as [->|Hin].
  2:{ destruct (IH d1 Hnd Hf Hin) as (q0 & y0 & q1 & y1 & ? & ? & Hq0 & Hy0 & Hq1 & Hy1).
    assert (LaserCalibration.name c ≠ LaserCalibration.name a) as Hne.
    { intros Heq. apply Ha. rewrite <-Heq. by apply list_elem_of_fmap_2. }
    destruct (Hother _ 0 Hne I0) as [E0 F0]. destruct (Hother _ 1 Hne I1) as [E1 F1].
    exists q0, y0, q1, y1. rewrite Hq0, Hy0, Hq1, Hy1, E0, F0, E1, F1. done. }
  exists p0, x0, p1, x1. rewrite <-Hp0, <-Hx0, <-Hp1, <-Hx1.
  assert (∀ ri, ri ∈ [0; 1] →
            dd_get d' (points_key (LaserCalibration.name a) ri)
            = dd_get d1 (points_key (LaserCalibration.name a) ri)
            ∧ dd_get d' (intensity_key (LaserCalibration.name a) ri)
              = dd_get d1 (intensity_key (LaserCalibration.name a) ri)) as Hkeep.
  { clear -Hf Ha. revert d1 Hf. induction l as [|b l IHl]; intros d1 Hf ri Hri.
    - by injection Hf as <-.
    - rewrite fmap_cons in Ha. apply not_elem_of_cons in Ha as [Hab Ha].
      cbn [foldM] in Hf. apply bind_Ok in Hf as (d2 & H2 & Hf).
      destruct (append_returns_get _ _ _ _ _ _ H2)
        as (_ & _ & _ & _ & _ & _ & _ & _ & _ & _ & Ho).
      destruct (IHl Ha d2 Hf ri Hri) as [-> ->]. by apply Ho. }
  destruct (Hkeep 0 I0) as [-> ->]. destruct (Hkeep 1 I1) as [-> ->]. done.
Qed.

(** X15: when the names of the calibrations are distinct, the dictionary holds
    for every calibration of the frame exactly one array of points and one
    of intensities per return: those of the conversion of that return; the
    cloud assembled for the sensor has one row per valid pixel of its two
    range images *)
Theorem sensor_arrays_in_dictionary frame ris cps top d c :
  convert_range_image_to_point_cloud cfg frame ris cps top [0; 1] = Ok d →
  c ∈ Frame.laser_calibrations frame →
  NoDup (LaserCalibration.name <$> Frame.laser_calibrations frame) →
  ∃ frame_pose tp p0 x0 p1 x1 images image0 image1 t0 t1,
    np_reshape_4_4 (Frame.pose_transform frame) = Ok frame_pose
    ∧ top_pose_tensor top = Ok tp
    ∧ convert_one cfg ris tp frame_pose c 0 = Ok (p0, x0)
    ∧ convert_one cfg ris tp frame_pose c 1 = Ok (p1, x1)
    ∧ dd_get d (points_key (LaserCalibration.name c) 0) = [Points p0]
    ∧ dd_get d (intensity_key (LaserCalibration.name c) 0) = [Scalars x0]
    ∧ dd_get d (points_key (LaserCalibration.name c) 1) = [Points p1]
    ∧ dd_get d (intensity_key (LaserCalibration.name c) 1) = [Scalars x1]
    ∧ assemble_cloud cfg d (LaserCalibration.name c)
      = Ok (zip_with (cloud_row cfg) (p0 ++ p1) (x0 ++ x1))
    ∧ ris !! LaserCalibration.name c = Some images
    ∧ images !! 0 = Some image0 ∧ images !! 1 = Some image1
    ∧ tf_reshape (data image0) (shape_dims image0) = Ok t0
    ∧ tf_reshape (data image1) (shape_dims image1) = Ok t1
    ∧ length (zip_with (cloud_row cfg) (p0 ++ p1) (x0 ++ x1))
      = count_valid (mask_of cfg t0) + count_valid (mask_of cfg t1).
Proof.
  intros Hconv Hc Hnd. pose proof Hconv as Hpaired.
  apply convert_range_image_to_point_cloud_paired in Hpaired.
  unfold convert_range_image_to_point_cloud in Hconv.
  apply bind_Ok in Hconv as (frame_pose & Hpose & Hconv).
  apply bind_Ok in Hconv as (tp & Htp & Hconv).
  rewrite <-sorted_by_name_perm in Hc.
  assert (NoDup (LaserCalibration.name <$> sorted_by_name (Frame.laser_calibrations frame)))
    as Hnd' by (by rewrite sorted_by_name_perm).
  destruct (calibrations_get _ _ _ _ _ _ c Hnd' Hconv Hc)
    as (p0 & x0 & p1 & x1 & H0 & H1 & Hp0 & Hx0 & Hp1 & Hx1).
  rewrite dd_get_empty in Hp0, Hx0, Hp1, Hx1. simpl in Hp0, Hx0, Hp1, Hx1.
  pose proof H0 as H0'. pose proof H1 as H1'.
  apply convert_one_Ok in H0' as (images & image0 & b0 & e0 & t0 & Hris & Hi0 & _ & _ & Ht0 & Hg0).
  apply convert_one_Ok in H1' as (images' & image1 & b1 & e1 & t1 & Hris' & Hi1 & _ & _ & Ht1 & Hg1).
  rewrite Hris in Hris'. injection Hris' as <-.
  apply project_and_gather_Ok in Hg0 as (cart0 & _ & _ & Hpts0 & Hints0).
  apply project_and_gather_Ok in Hg1 as (cart1 & _ & _ & Hpts1 & Hints1).
  apply Forall2_length in Hpts0, Hints0, Hpts1, Hints1.
  unfold tf_where in Hpts0, Hints0, Hpts1, Hints1.
  rewrite length_where_from in Hpts0, Hints0, Hpts1, Hints1.
  exists frame_pose, tp, p0, x0, p1, x1, images, image0, image1, t0, t1.
  split_and!; try done.
  - destruct (assemble_cloud_paired cfg d (LaserCalibration.name c) Hpaired)
      as (q0 & q1 & y0 & y1 & Hq0 & Hq1 & Hy0 & Hy1 & _ & ->).
    rewrite Hp0 in Hq0. rewrite Hp1 in Hq1. rewrite Hx0 in Hy0. rewrite Hx1 in Hy1.
    destruct q0 as [|? [|]]; try done. destruct q1 as [|? [|]]; try done.
    destruct y0 as [|? [|]]; try done. destruct y1 as [|? [|]]; try done.
    injection Hq0 as <-. injection Hq1 as <-. injection Hy0 as <-. injection Hy1 as <-.
    rewrite decide_False by done. simpl. by rewrite !app_nil_r.
  - rewrite length_zip_with, !length_app. lia.
Qed.

End DictionaryFacts.

(** ** Cameras other than the front one *)

Lemma for_each_skip {A} (f : A → M unit) (keep : A → bool) (l : list A) (s : State) :
  (∀ x, x ∈ l → keep x = false → ∀ s', f x s' = (s', Ok ())) →
  for_each f l s = for_each f (filter (λ x, keep x = true) l) s.
Proof.
  revert s. induction l as [|x l IH]; intros s Hskip; [done|].
  destruct (keep x) eqn:Hx.
  - rewrite filter_cons_True by done. simpl. rewrite !M_bind_unfold.
    destruct (f x s) as [s1 [[]|e]]; [|done]. apply IH.
    intros y Hy. apply Hskip. by right.
  - rewrite filter_cons_False by (by rewrite Hx). simpl. rewrite M_bind_unfold.
    rewrite (Hskip x) by (done || by left). apply IH.
    intros y Hy. apply Hskip. by right.
Qed.

Lemma foldM_skip {A B} (f : B → A → Res B) (keep : A → bool) (l : list A) (b : B) :
  (∀ x, x ∈ l → keep x = false → ∀ b', f b' x = Ok b') →
  foldM f b l = foldM f b (filter (λ x, keep x = true) l).
Proof.
  revert b. induction l as [|x l IH]; intros b Hskip; [done|].
  destruct (keep x) eqn:Hx.
  - rewrite filter_cons_True by done. simpl.
    destruct (f b x) as [b1|e]; [|done]. simpl. apply IH.
    intros y Hy. apply Hskip. by right.
  - rewrite filter_cons_False by (by rewrite Hx). simpl.
    rewrite (Hskip x) by (done || by left). simpl. apply IH.
    intros y Hy. apply Hskip. by right.
Qed.

Section CameraSkip.
Context `{Library}.

Lemma not_front_name (name : Z) :
  is_Ok (CameraName_Name name) → is_front name = false →
  ∃ str, camera_frame_name name = Ok str ∧ str ≠ "front".
Proof.
  intros [str Hstr] Hf.
  destruct (camera_frame_name_cases name) as [[Ht _]|[_ [[e He]|Hother]]].
  - congruence.
  - unfold camera_frame_name in He. by rewrite Hstr in He.
  - done.
Qed.

(** X16: when the names of the cameras resolve, the writers of images, of camera
    infos and of the static transforms run as if the frame held its front
    cameras only: the image bytes, the intrinsics and the extrinsic of
    another camera are not read, and cannot fail the frame *)
Theorem other_cameras_ignored frame timestamp s :
  (Forall (λ image, is_Ok (CameraName_Name (CameraImage.name image))) (Frame.images frame) →
   write_image frame timestamp s
   = for_each (write_one_image timestamp)
       (filter (λ image, is_front (CameraImage.name image) = true) (Frame.images frame)) s)
  ∧ (Forall (λ cc, is_Ok (CameraName_Name (CameraCalibration.name cc)))
       (Frame.camera_calibrations frame) →
     write_camera_info frame timestamp s
     = for_each (write_one_camera_info timestamp)
         (filter (λ cc, is_front (CameraCalibration.name cc) = true)
            (Frame.camera_calibrations frame)) s
     ∧ static_transforms frame
       = foldM static_transform []
           (filter (λ cc, is_front (CameraCalibration.name cc) = true)
              (Frame.camera_calibrations frame))).
Proof.
  split; [|intros Hnames; split].
  - intros Hnames. unfold write_image.
    apply (for_each_skip _ (λ image, is_front (CameraImage.name image))).
    intros image Hin Hf s'. rewrite Forall_forall in Hnames.
    destruct (not_front_name _ (Hnames _ Hin) Hf) as (str & Hstr & Hne).
    unfold write_one_image. rewrite lift_bind, Hstr. by rewrite decide_True.
  - unfold write_camera_info.
    apply (for_each_skip _ (λ cc, is_front (CameraCalibration.name cc))).
    intros cc Hin Hf s'. rewrite Forall_forall in Hnames.
    destruct (not_front_name _ (Hnames _ Hin) Hf) as (str & Hstr & Hne).
    unfold write_one_camera_info. rewrite lift_bind, Hstr. by rewrite decide_True.
  - unfold static_transforms.
    apply (foldM_skip _ (λ cc, is_front (CameraCalibration.name cc))).
    intros cc Hin Hf acc. rewrite Forall_forall in Hnames.
    destruct (not_front_name _ (Hnames _ Hin) Hf) as (str & Hstr & Hne).
    unfold static_transform. rewrite Hstr. simpl. by rewrite decide_True.
Qed.

End CameraSkip.

(** ** Edge cases of the conversion *)

Section EngineEdges.
Context `{Library} (cfg : Config).

Lemma foldM_no_return range_images tp frame_pose (l : list LaserCalibration.t) d :
  foldM (λ ret_dict c, foldM (append_return cfg range_images tp frame_pose c) ret_dict [])
    d l = Ok d.
Proof. induction l as [|c l IH]; [done|]. simpl. apply IH. Qed.

(** X17: the conversion reads the pose of the frame first and the pose grid of
    the top sensor second, whatever the calibrations are: a pose that does
    not hold 16 numbers is a [ValueError], a failure on the pose grid is
    raised as it is; with no calibration, or no return index, the result is
    the empty dictionary *)
Theorem conversion_edge_cases frame ris cps top ri_indexes :
  (length (Frame.pose_transform frame) ≠ 16 →
   convert_range_image_to_point_cloud cfg frame ris cps top ri_indexes = Raise ValueError)
  ∧ (length (Frame.pose_transform frame) = 16 →
     (∀ e, top_pose_tensor top = Raise e →
        convert_range_image_to_point_cloud cfg frame ris cps top ri_indexes = Raise e)
     ∧ (is_Ok (top_pose_tensor top) →
        Frame.laser_calibrations frame = [] ∨ ri_indexes = [] →
        convert_range_image_to_point_cloud cfg frame ris cps top ri_indexes = Ok ∅)).
Proof.
  unfold convert_range_image_to_point_cloud, np_reshape_4_4. split.
  - intros Hlen. by rewrite decide_False.
  - intros Hlen. rewrite decide_True by done. simpl. split.
    + intros e ->. done.
    + intros [tp ->] [Hnil| ->]; simpl.
      * by rewrite Hnil.
      * apply (foldM_no_return ris tp (chunks 4 4 (Frame.pose_transform frame))).
Qed.

End EngineEdges.

(** ** The further theorems on the sample *)

Lemma sample_conversion :
  convert_range_image_to_point_cloud default_config frame1 range_images ∅ top_pose [0; 1]
  = Ok ret_dict.
Proof. vm_compute. reflexivity. Qed.

Lemma sample_names :
  NoDup (LaserCalibration.name <$> Frame.laser_calibrations frame1).
Proof.
  apply NoDup_cons. split; [|apply NoDup_singleton].
  intros Hin. apply list_elem_of_singleton in Hin. discriminate.
Qed.

Lemma frame_messages_stamped_witness :
  ParseFromString "frame1" = Ok frame1
  ∧ ∃ new,
      bag (convert_frame default_config "frame1" open_unit).1
      = (λ b : string * list Entry, (b.1, b.2 ++ new)) <$> bag open_unit
      ∧ Forall (stamped (stamp_of_micros (Frame.timestamp_micros frame1))) new.
Proof.
  split; [reflexivity|].
  exact (frame_messages_stamped default_config "frame1" frame1 open_unit eq_refl).
Defined.

Lemma unit_opens_and_closes_one_bag_witness :
  bag (convert_tfrecord2bag default_config 0 (Waymo2Bag pathnames)).1 = None
  ∧ fst <$> closed_bags (convert_tfrecord2bag default_config 0 (Waymo2Bag pathnames)).1
    = ["rosbag/b.bag"]
  ∧ convert_tfrecord2bag default_config 2 (Waymo2Bag pathnames)
    = (Waymo2Bag pathnames, Raise IndexError).
Proof.
  pose proof (unit_opens_and_closes_one_bag default_config 0 (Waymo2Bag pathnames)) as H0.
  pose proof (unit_opens_and_closes_one_bag default_config 2 (Waymo2Bag pathnames)) as H2.
  assert (tfrecord_pathnames (Waymo2Bag pathnames) !! 0 = Some "tfrecord/b.tfrecord")
    as Hp0 by reflexivity.
  assert (tfrecord_pathnames (Waymo2Bag pathnames) !! 2 = None) as Hp2 by reflexivity.
  assert (TFRecordDataset "tfrecord/b.tfrecord" = Ok ["frame1"; "frame3"; "frame2"])
    as Hd by (vm_compute; reflexivity).
  rewrite Hp0, Hd in H0. rewrite Hp2 in H2. cbv zeta in H0. destruct H0 as [-> _].
  split; [reflexivity|]. split; [reflexivity|exact H2].
Defined.

Lemma run_topics_witness :
  (first_bag.1, first_bag.2) ∈ closed_bags (convert default_config (Waymo2Bag pathnames)).1
  ∧ first_entry ∈ first_bag.2
  ∧ frame_topic default_config (e_topic first_entry)
  ∧ e_topic first_entry ≠ "/tf".
Proof.
  assert ((first_bag.1, first_bag.2)
          ∈ closed_bags (convert default_config (Waymo2Bag pathnames)).1) as Hbag.
  { vm_compute. left. }
  assert (first_entry ∈ first_bag.2) as Hentry.
  { vm_compute. left. }
  split; [exact Hbag|]. split; [exact Hentry|].
  exact (run_topics default_config pathnames _ _ _ Hbag Hentry).
Defined.

Lemma frame_messages_in_order_witness :
  ∃ odom tfs clouds images infos,
    bag (convert_frame default_config "frame1" open_unit).1
    = Some ("rosbag/b.bag", [] ++ odom :: tfs ++ clouds ++ images ++ infos)
    ∧ e_topic odom = "/odom"
    ∧ length tfs = 1 ∧ length clouds = 1 ∧ length images = 1 ∧ length infos = 1.
Proof.
  assert (convert_frame default_config "frame1" open_unit
          = ((convert_frame default_config "frame1" open_unit).1, Ok ())) as Hrun.
  { vm_compute. reflexivity. }
  assert (ParseFromString "frame1" = Ok frame1) as Hparse by reflexivity.
  assert (bag open_unit = Some ("rosbag/b.bag", [])) as Hbag by reflexivity.
  destruct (frame_messages_in_order default_config "frame1" frame1 open_unit
              "rosbag/b.bag" [] _ Hparse Hbag Hrun)
    as (odom & tfs & clouds & images & infos & Hb & Ho & Htfs & Hc & _ & Hi & _ & Hn).
  exists odom, tfs, clouds, images, infos. split; [exact Hb|]. split; [exact Ho|].
  split; [|split; [|split]].
  - destruct Htfs as (m & _ & ->). reflexivity.
  - apply (f_equal length) in Hc. rewrite !length_fmap in Hc. exact Hc.
  - rewrite Hi. vm_compute. reflexivity.
  - rewrite Hn. vm_compute. reflexivity.
Defined.

Lemma odometry_from_pose_witness :
  write_odom frame_short_pose (1%Z, 0%Z) open_unit = (open_unit, Raise ValueError)
  ∧ convert_frame default_config "frame2" open_unit
    ≠ (open_unit, Raise ValueError).
Proof.
  split.
  - apply (odometry_from_pose default_config frame_short_pose (1%Z, 0%Z) open_unit
             "rosbag/b.bag" [] eq_refl).
    vm_compute. lia.
  - vm_compute. discriminate.
Defined.

Lemma write_tf_agrees_with_odom_witness :
  (write_tf frame2 (1%Z, 100000000%Z) open_unit).2
  = (write_odom frame2 (1%Z, 100000000%Z) open_unit).2
  ∧ (write_tf frame2 (1%Z, 100000000%Z) open_unit).2 = Ok ().
Proof.
  split.
  - exact (proj1 (write_tf_agrees_with_odom frame2 (1%Z, 100000000%Z) open_unit
                    "rosbag/b.bag" [] eq_refl)).
  - vm_compute. reflexivity.
Defined.

Lemma camera_info_of_front_calibration_witness :
  write_one_camera_info (1%Z, 0%Z) short_camera open_unit = (open_unit, Raise IndexError)
  ∧ ∃ m, bag (write_one_camera_info (1%Z, 0%Z) (front_camera identity16) open_unit).1
         = Some ("rosbag/b.bag", [{| e_topic := "/camera/front/camera_info";
                                     e_msg := MCameraInfo m; e_t := (1%Z, 0%Z) |}])
         ∧ CameraInfo.D m = [0; 0; 0; 0; 0]%float.
Proof.
  assert (camera_frame_name 1%Z = Ok "front") as Hname by (vm_compute; reflexivity).
  assert (bag open_unit = Some ("rosbag/b.bag", [])) as Hbag by reflexivity.
  split.
  - apply (camera_info_of_front_calibration (1%Z, 0%Z) short_camera open_unit
             "rosbag/b.bag" [] Hname Hbag).
    vm_compute. lia.
  - destruct (proj2 (camera_info_of_front_calibration (1%Z, 0%Z) (front_camera identity16)
                       open_unit "rosbag/b.bag" [] Hname Hbag))
      as (m & fx & fy & cx & cy & Hw & _ & _ & _ & _ & HD & _).
    { vm_compute. lia. }
    exists m. rewrite Hw. split; [reflexivity|]. rewrite HD. reflexivity.
Defined.

Lemma static_transform_with_nan_witness :
  has_nan transforms_nan = true
  ∧ write_tf_static frame_nan (1%Z, 0%Z)
      (set_static_tf_message (Some transforms_nan) open_unit).1
    = ((set_static_tf_message (Some transforms_nan) open_unit).1, Raise AssertionError).
Proof.
  split; [reflexivity|].
  exact (proj2 (static_transform_with_nan transforms_nan) frame_nan (1%Z, 0%Z)
           (set_static_tf_message (Some transforms_nan) open_unit).1 eq_refl eq_refl).
Defined.

Lemma calibration_order_irrelevant_witness :
  convert_range_image_to_point_cloud default_config frame_swapped range_images ∅ top_pose [0; 1]
  = convert_range_image_to_point_cloud default_config frame1 range_images ∅ top_pose [0; 1].
Proof.
  apply (calibration_order_irrelevant default_config frame1 frame_swapped).
  - reflexivity.
  - apply perm_swap.
  - exact sample_names.
Defined.

Lemma conversion_needs_every_calibration_witness :
  length (Frame.pose_transform frame1) = 16
  ∧ ∀ c, c ∈ Frame.laser_calibrations frame1 →
      length (LaserCalibration.extrinsic_transform c) = 16
      ∧ ∃ images,
          range_images !! LaserCalibration.name c = Some images
          ∧ 2 ≤ length images
          ∧ ∀ image, image ∈ take 2 images →
              ∃ t, tf_reshape (data image) (shape_dims image) = Ok t
                   ∧ 2 ≤ depth t
                   ∧ (FILTER_NO_LABEL_ZONE_POINTS default_config = true → 4 ≤ depth t).
Proof.
  exact (conversion_needs_every_calibration default_config frame1 range_images ∅ top_pose
           ret_dict sample_conversion).
Defined.

Lemma sensor_arrays_in_dictionary_witness :
  ∃ p0 x0 p1 x1,
    dd_get ret_dict (points_key TOP 0) = [Points p0]
    ∧ dd_get ret_dict (intensity_key TOP 0) = [Scalars x0]
    ∧ dd_get ret_dict (points_key TOP 1) = [Points p1]
    ∧ dd_get ret_dict (intensity_key TOP 1) = [Scalars x1]
    ∧ assemble_cloud default_config ret_dict TOP
      = Ok (zip_with (cloud_row default_config) (p0 ++ p1) (x0 ++ x1)).
Proof.
  assert (top_calibration ∈ Frame.laser_calibrations frame1) as Hin.
  { right. left. }
  destruct (sensor_arrays_in_dictionary default_config frame1 range_images ∅ top_pose
              ret_dict top_calibration sample_conversion Hin sample_names)
    as (fp & tp & p0 & x0 & p1 & x1 & ims & i0 & i1 & t0 & t1
        & _ & _ & _ & _ & Hp0 & Hx0 & Hp1 & Hx1 & Ha & _).
  exists p0, x0, p1, x1. split; [exact Hp0|]. split; [exact Hx0|].
  split; [exact Hp1|]. split; [exact Hx1|exact Ha].
Defined.

Lemma other_cameras_ignored_witness :
  write_image frame1 (1%Z, 0%Z) open_unit
  = for_each (write_one_image (1%Z, 0%Z))
      [{| CameraImage.name := 1%Z; CameraImage.image := "jpeg-front" |}] open_unit.
Proof.
  rewrite (proj1 (other_cameras_ignored frame1 (1%Z, 0%Z) open_unit)).
  - reflexivity.
  - repeat constructor; by eexists.
Defined.

Lemma conversion_edge_cases_witness :
  convert_range_image_to_point_cloud default_config frame_short_pose range_images ∅
    top_pose [0; 1] = Raise ValueError
  ∧ convert_range_image_to_point_cloud default_config frame_bare range_images ∅
      top_pose [0; 1] = Ok ∅.
Proof.
  split.
  - apply (proj1 (conversion_edge_cases default_config frame_short_pose range_images ∅
                    top_pose [0; 1])).
    vm_compute. lia.
  - apply (proj2 (conversion_edge_cases default_config frame_bare range_images ∅
                    top_pose [0; 1])).
    + reflexivity.
    + by eexists.
    + by left.
Defined.

(** ** The intensity column, from the range image to the cloud *)

Section IntensityFacts.
Context `{Library} (cfg : Config).

Lemma append_return_intensity_sourced frame range_images tp frame_pose c d ri d' :
  c ∈ Frame.laser_calibrations frame → ri ∈ [0; 1] →
  intensity_sourced cfg frame range_images d →
  append_return cfg range_images tp frame_pose c d ri = Ok d' →
  intensity_sourced cfg frame range_images d'.
Proof.
  intros Hc Hri Hd Ha. unfold append_return in Ha.
  apply bind_Ok in Ha as ([points intensity] & Hone & [= <-]).
  intros n r Hr. rewrite !dd_get_append.
  destruct (key_inj (LaserCalibration.name c) n ri r Hri Hr) as (_ & Hinj & _).
  destruct (key_inj (LaserCalibration.name c) n ri r Hri Hr) as (_ & _ & Hne).
  case_decide as Hk.
  - destruct (Hinj Hk) as [<- <-]. clear Hk.
    rewrite decide_False by apply points_key_ne_intensity_key.
    apply Forall_app. split; [by apply Hd|]. constructor; [|done].
    exists intensity. split; [done|].
    apply convert_one_Ok in Hone
      as (images & range_image & beam & ex & t & Himages & Himage & _ & _ & Ht & Hp).
    apply project_and_gather_Ok in Hp as (cart & _ & _ & _ & Hints).
    by exists c, ri, images, range_image, t.
  - rewrite decide_False by done. by apply Hd.
Qed.

Lemma convert_range_image_to_point_cloud_intensity_sourced frame ris cps top d :
  convert_range_image_to_point_cloud cfg frame ris cps top [0; 1] = Ok d →
  intensity_sourced cfg frame ris d.
Proof.
  unfold convert_range_image_to_point_cloud. intros Hc.
  apply bind_Ok in Hc as (frame_pose & _ & Hc).
  apply bind_Ok in Hc as (tp & _ & Hc).
  eapply (foldM_invariant_in (intensity_sourced cfg frame ris)); [| |exact Hc].
  - intros d1 c d2 Hin Hd1 Hfold.
    rewrite sorted_by_name_perm in Hin.
    eapply (foldM_invariant_in (intensity_sourced cfg frame ris)); [|exact Hd1|exact Hfold].
    intros d3 ri d4 Hri Hd3 Ha. by eapply append_return_intensity_sourced.
  - intros n ri _. by rewrite dd_get_empty.
Qed.

Lemma Forall_Scalars (P : list float → Prop) (xs : list (list float)) :
  Forall (λ a, ∃ x, a = Scalars x ∧ P x) (Scalars <$> xs) → Forall P xs.
Proof.
  induction xs as [|x xs IH]; [done|]. rewrite fmap_cons. intros Hf.
  apply Forall_cons in Hf as [(y & [= <-] & Hy) Hf]. constructor; [done|by apply IH].
Qed.

(** C5, as the code has it: the intensity column of a cloud is, entry by
    entry, the raw values gathered at the valid pixels of channel 1 of the
    sensor's range images, first return then second, each mapped through
    [np_tanh] when normalization is enabled and left as it is when it is
    disabled; with normalization the column therefore satisfies every
    bound that the results of [np_tanh] satisfy. *)
Theorem intensity_is_tanh_of_raw frame ris cps top ret_dict lidar_id cloud :
  convert_range_image_to_point_cloud cfg frame ris cps top [0; 1] = Ok ret_dict →
  assemble_cloud cfg ret_dict lidar_id = Ok cloud →
  ∃ x0 x1 : list (list float),
    dd_get ret_dict (intensity_key lidar_id 0) = Scalars <$> x0
    ∧ dd_get ret_dict (intensity_key lidar_id 1) = Scalars <$> x1
    ∧ Forall (from_channel_1 cfg frame ris lidar_id) (x0 ++ x1)
    ∧ length cloud = length (concat x0 ++ concat x1)
    ∧ (NORMALIZE_INTENSITY cfg = true →
       intensities cloud = np_tanh <$> (concat x0 ++ concat x1)
       ∧ ∀ P : float → Prop, (∀ x, P (np_tanh x)) → Forall P (intensities cloud))
    ∧ (NORMALIZE_INTENSITY cfg = false →
       intensities cloud = concat x0 ++ concat x1).
Proof.
  intros Hc Ha. pose proof (convert_range_image_to_point_cloud_intensity_sourced _ _ _ _ _ Hc)
    as Hsrc.
  apply convert_range_image_to_point_cloud_paired in Hc.
  destruct (assemble_cloud_paired cfg ret_dict lidar_id Hc)
    as (p0 & p1 & x0 & x1 & _ & _ & Hx0 & Hx1 & Hl & Ha').
  rewrite Ha in Ha'. case_decide; [done|]. injection Ha' as ->.
  assert (length (concat p0 ++ concat p1) = length (concat x0 ++ concat x1)) as Hlen.
  { rewrite <-!concat_app. by apply length_concat_Forall2. }
  assert (intensities (zip_with (cloud_row cfg) (concat p0 ++ concat p1)
                         (concat x0 ++ concat x1))
          = normalized cfg <$> (concat x0 ++ concat x1)) as Hcol.
  { unfold intensities. by apply intensity_column. }
  exists x0, x1. split_and!; try done.
  - apply Forall_app. split; apply Forall_Scalars.
    + rewrite <-Hx0. apply Hsrc. by left.
    + rewrite <-Hx1. apply Hsrc. by right; left.
  - rewrite length_zip_with. lia.
  - intros Hn. rewrite Hcol. unfold normalized. rewrite Hn. split; [done|].
    intros P HP. apply Forall_fmap. apply Forall_true. intros x. apply HP.
  - intros Hn. rewrite Hcol. unfold normalized. rewrite Hn. apply list_fmap_id.
Qed.

End IntensityFacts.

Lemma rounding_conversion :
  @convert_range_image_to_point_cloud rounding default_config frame1 range_images ∅
    top_pose [0; 1] = Ok ret_dict_rounding.
Proof. vm_compute. reflexivity. Qed.

Lemma rounding_cloud :
  @assemble_cloud rounding default_config ret_dict_rounding TOP = Ok cloud_rounding.
Proof. vm_compute. reflexivity. Qed.

Lemma tanh_rounded_closed (x : float) :
  within_closed (tanh_rounded x) ∨ PrimFloat.is_nan (tanh_rounded x) = true.
Proof.
  unfold tanh_rounded.
  destruct (PrimFloat.leb 20 x); [left; split; vm_compute; reflexivity|].
  destruct (PrimFloat.leb x (-20)); [left; split; vm_compute; reflexivity|].
  destruct (PrimFloat.eqb x x) eqn:Hx; [left; split; vm_compute; reflexivity|].
  right. unfold PrimFloat.is_nan. by rewrite Hx.
Qed.

(** C5: a raw intensity of 21 comes out as 1, which is not below 1 *)
Lemma intensity_reaches_one :
  @np_tanh rounding 21%float = 1%float
  ∧ intensities cloud_rounding = [0; 0; 1]%float
  ∧ ¬ @normalized_within_open rounding default_config.
Proof.
  split; [reflexivity|]. split; [vm_compute; reflexivity|].
  intros Hbound.
  pose proof (Hbound eq_refl frame1 range_images ∅ top_pose ret_dict_rounding TOP
                cloud_rounding rounding_conversion rounding_cloud) as Hall.
  assert (intensities cloud_rounding = [0; 0; 1]%float) as Hcol by (vm_compute; reflexivity).
  rewrite Hcol in Hall.
  apply Forall_cons in Hall as [_ Hall]. apply Forall_cons in Hall as [_ Hall].
  apply Forall_cons in Hall as [[_ Hone] _]. vm_compute in Hone. discriminate.
Qed.

Lemma intensity_is_tanh_of_raw_witness :
  intensities cloud_rounding = tanh_rounded <$> [10; 12; 21]%float
  ∧ Forall (λ y, within_closed y ∨ PrimFloat.is_nan y = true) (intensities cloud_rounding).
Proof.
  split; [vm_compute; reflexivity|].
  destruct (@intensity_is_tanh_of_raw rounding default_config frame1 range_images ∅ top_pose
              ret_dict_rounding TOP cloud_rounding rounding_conversion rounding_cloud)
    as (x0 & x1 & _ & _ & _ & _ & Hon & _).
  destruct (Hon eq_refl) as [_ Hbound].
  apply Hbound. intros x. apply tanh_rounded_closed.
Defined.

(** C10: a frame that lists the front camera twice gets two images, two
    camera infos and two camera transforms *)
Lemma second_front_entry_written :
  length (entries_of (write_image frame_two_fronts (1%Z, 0%Z) open_unit).1) = 2
  ∧ length (entries_of (write_camera_info frame_two_fronts (1%Z, 0%Z) open_unit).1) = 2
  ∧ length <$> static_transforms frame_two_fronts = Ok 2
  ∧ ¬ @one_message_per_frame library.
Proof.
  assert (length (entries_of (write_image frame_two_fronts (1%Z, 0%Z) open_unit).1) = 2)
    as Himages by (vm_compute; reflexivity).
  split; [exact Himages|]. split; [vm_compute; reflexivity|].
  split; [vm_compute; reflexivity|].
  intros Hone.
  assert (bag open_unit = Some ("rosbag/b.bag", [])) as Hbag by reflexivity.
  destruct (Hone frame_two_fronts (1%Z, 0%Z) open_unit "rosbag/b.bag" [] Hbag)
    as ((new & Hnew & Hlen) & _).
  unfold entries_of in Himages. rewrite Hnew in Himages. simpl in Himages. lia.
Qed.
